(** * Tunnel management of mac/gui/vpn_manager.py

    A shallow embedding of the hev-socks5-tunnel manager: the descriptor
    builder, the per-device apply / status / disconnect helpers that talk to
    the device through [adb_shell], and the [VPNManager] orchestrator with its
    poll loop and reconnect backoff.  Python dictionaries keyed by instance
    name are [gmap string _], the kill-switch set is a [gset string], the
    device channel is a state monad with exceptions over an explicit world. *)

From Stdlib Require Import ZArith Ascii String List Bool Lia DecimalString.
From stdpp Require Import gmap strings list.

Local Open Scope Z_scope.

(** ** Text helpers (Python [str] methods used by the module) *)

Module Text.

Definition nl : string := String (ascii_of_nat 10) EmptyString.
Definition quote : ascii := ascii_of_nat 39.

(** Text is a Python [str] of characters below U+0100, one [ascii] per
    character.  [str.isspace] is true there for TAB..CR, FS..US, the blank,
    NEL (U+0085) and the no-break space (U+00A0); the class [\s] of [re] is
    the same set. *)
Definition is_space (c : ascii) : bool :=
    let n := nat_of_ascii c in
    ((9 <=? n)%nat && (n <=? 13)%nat) || ((28 <=? n)%nat && (n <=? 32)%nat)
    || (n =? 133)%nat || (n =? 160)%nat.

(** The class [\d] of [re]: below U+0100 the decimal digits are 0 to 9. *)
Definition is_digit (c : ascii) : bool :=
    let n := nat_of_ascii c in (48 <=? n)%nat && (n <=? 57)%nat.

(** Python truthiness of a string: [if s:]. *)
Definition nonempty (s : string) : bool :=
    match s with EmptyString => false | String _ _ => true end.

Fixpoint lstrip (s : string) : string :=
    match s with
    | String c r => if is_space c then lstrip r else s
    | EmptyString => EmptyString
    end.

Fixpoint rstrip (s : string) : string :=
    match s with
    | EmptyString => EmptyString
    | String c r =>
        match rstrip r with
        | EmptyString => if is_space c then EmptyString else String c EmptyString
        | r' => String c r'
        end
    end.

(** [s.strip()] *)
Definition strip (s : string) : string := rstrip (lstrip s).

(** [s.startswith(p)], returning the remainder after the prefix. *)
Fixpoint drop_prefix (p s : string) : option string :=
    match p, s with
    | EmptyString, _ => Some s
    | String a p', String b s' =>
        if Ascii.eqb a b then drop_prefix p' s' else None
    | String _ _, EmptyString => None
    end.

(** [sub in s] *)
Fixpoint contains (sub s : string) : bool :=
    match drop_prefix sub s with
    | Some _ => true
    | None => match s with
              | EmptyString => false
              | String _ r => contains sub r
              end
    end.

(** [s.replace(c, new)] for a one-character pattern [c]. *)
Fixpoint replace_char (c : ascii) (new : string) (s : string) : string :=
    match s with
    | EmptyString => EmptyString
    | String a r =>
        if Ascii.eqb a c then new +:+ replace_char c new r
        else String a (replace_char c new r)
    end.

(** [f"{n}"] for an integer. *)
Definition str_of_int (n : Z) : string := NilZero.string_of_int (Z.to_int n).

(** The longest prefix of characters satisfying [p], and the rest. *)
Fixpoint span (p : ascii → bool) (s : string) : string * string :=
    match s with
    | EmptyString => (EmptyString, EmptyString)
    | String c r =>
        if p c then let '(a, b) := span p r in (String c a, b)
        else (EmptyString, s)
    end.

(** The first [n] lines of a text, line terminators kept ([head -n]). *)
Fixpoint head_lines (n : nat) (s : string) : string :=
    match n with
    | O => EmptyString
    | S n' =>
        match s with
        | EmptyString => EmptyString
        | String c r =>
            if Ascii.eqb c (ascii_of_nat 10) then String c (head_lines n' r)
            else String c (head_lines n r)
        end
    end.

(** What [text=True] of [subprocess.run] does to the output it decodes:
    every CR LF and every lone CR becomes LF. *)
Fixpoint universal_newlines (s : string) : string :=
    match s with
    | EmptyString => EmptyString
    | String c r =>
        if Ascii.eqb c (ascii_of_nat 13) then
          String (ascii_of_nat 10)
            (match r with
             | String c' r' =>
                 if Ascii.eqb c' (ascii_of_nat 10) then universal_newlines r'
                 else universal_newlines r
             | EmptyString => EmptyString
             end)
        else String c (universal_newlines r)
    end.

End Text.

(** ** Constants of the module *)

Definition TUNNEL_BIN : string := "/data/local/tmp/hev-socks5-tunnel".
Definition TUNNEL_CONFIG : string := "/data/local/tmp/hev-socks5-tunnel.yml".
Definition TUNNEL_PID : string := "/data/local/tmp/hev-socks5-tunnel.pid".
Definition TUNNEL_MARK : Z := 438.
Definition TUNNEL_TABLE : Z := 20.
Definition KILLSWITCH_CHAIN : string := "JORK_KS".
Definition POLL_INTERVAL : Z := 5.

(** ** TunnelDescriptorBuilder: [_build_tunnel_config] *)

(** The [auth_lines] local of [_build_tunnel_config]. *)
Definition auth_lines (username password : string) : string :=
  if Text.nonempty username && Text.nonempty password then
    let safe_user := Text.replace_char Text.quote "''" username in
    let safe_pass := Text.replace_char Text.quote "''" password in
    "  username: '" +:+ safe_user +:+ "'" +:+ Text.nl +:+
    "  password: '" +:+ safe_pass +:+ "'" +:+ Text.nl
  else "".

Definition _build_tunnel_config
    (server : string) (port : Z) (username password : string) : string :=
  "tunnel:" +:+ Text.nl +:+
  "  name: tun0" +:+ Text.nl +:+
  "  mtu: 1500" +:+ Text.nl +:+
  "  ipv4: 198.18.0.1" +:+ Text.nl +:+
  Text.nl +:+
  "socks5:" +:+ Text.nl +:+
  "  port: " +:+ Text.str_of_int port +:+ Text.nl +:+
  "  address: '" +:+ server +:+ "'" +:+ Text.nl +:+
  "  udp: 'tcp'" +:+ Text.nl +:+
  auth_lines username password +:+
  "  mark: " +:+ Text.str_of_int TUNNEL_MARK +:+ Text.nl +:+
  Text.nl +:+
  "misc:" +:+ Text.nl +:+
  "  task-stack-size: 24576" +:+ Text.nl +:+
  "  connect-timeout: 5000" +:+ Text.nl +:+
  "  read-write-timeout: 60000" +:+ Text.nl +:+
  "  log-level: warn" +:+ Text.nl +:+
  "  pid-file: " +:+ TUNNEL_PID +:+ Text.nl.

(** ** The two regular-expression searches of the status reader

    [re.search(r"KEY:\s*'?([^'\n]+)", text)] and
    [re.search(r"^\s*port:\s*(\d+)", text, re.MULTILINE)], written out as the
    backtracking matcher runs them: the leftmost start position wins, [\s*]
    is greedy and gives characters back one at a time. *)

Module Re.

(** [\s*] followed by the continuation [k]. *)
Fixpoint star_ws (k : string → option string) (s : string) : option string :=
  match s with
  | String c r =>
      if Text.is_space c then
        match star_ws k r with
        | Some g => Some g
        | None => k s
        end
      else k s
  | EmptyString => k s
  end.

Definition not_quote_nl (c : ascii) : bool :=
  negb (Ascii.eqb c Text.quote) && negb (Ascii.eqb c (ascii_of_nat 10)).

(** [([^'\n]+)] *)
Definition group_value (s : string) : option string :=
  let '(g, _) := Text.span not_quote_nl s in
  if Text.nonempty g then Some g else None.

(** [(\d+)] *)
Definition group_digits (s : string) : option string :=
  let '(g, _) := Text.span Text.is_digit s in
  if Text.nonempty g then Some g else None.

(** ['?([^'\n]+)] *)
Definition opt_quote_value (s : string) : option string :=
  match s with
  | String c r =>
      if Ascii.eqb c Text.quote then
        match group_value r with
        | Some g => Some g
        | None => group_value s
        end
      else group_value s
  | EmptyString => group_value s
  end.

(** The pattern [KEY:\s*'?([^'\n]+)] anchored at the start of [s];
    [key] includes the colon. *)
Definition value_at (key s : string) : option string :=
  match Text.drop_prefix key s with
  | Some rest => star_ws opt_quote_value rest
  | None => None
  end.

(** [re.search] of that pattern: group 1 of the leftmost match. *)
Fixpoint search_value (key s : string) : option string :=
  match value_at key s with
  | Some g => Some g
  | None =>
      match s with
      | String _ r => search_value key r
      | EmptyString => None
      end
  end.

(** [\s*port:\s*(\d+)] anchored at the start of [s]. *)
Definition port_at (s : string) : option string :=
  star_ws (fun s1 =>
             match Text.drop_prefix "port:" s1 with
             | Some rest => star_ws group_digits rest
             | None => None
             end) s.

(** With [re.MULTILINE], [^] holds at the start of the text and right after
    every newline; [bol] tells whether the current position is one of them. *)
Fixpoint search_port_from (bol : bool) (s : string) : option string :=
  match (if bol then port_at s else None) with
  | Some g => Some g
  | None =>
      match s with
      | String c r => search_port_from (Ascii.eqb c (ascii_of_nat 10)) r
      | EmptyString => None
      end
  end.

Definition search_port (s : string) : option string := search_port_from true s.

End Re.

(** ** The device behind the command channel

    The module only ever sends the shell commands below; the device is the
    part of an Android instance they read or change. *)

(** A route of the main table; [rt_via] is empty for a device route. *)
Record route := { rt_dst : string; rt_via : string; rt_dev : string }.

(** An [ip rule]; [ru_fwmark] is [None] for a rule without selector. *)
Record rule := { ru_fwmark : option Z; ru_lookup : string; ru_pref : Z }.

#[global] Instance route_eq_dec : EqDecision route.
Proof. solve_decision. Defined.

#[global] Instance rule_eq_dec : EqDecision rule.
Proof. solve_decision. Defined.

(** [0.0.0.0/1 dev tun0] and [128.0.0.0/1 dev tun0] *)
Definition split_low : route :=
  {| rt_dst := "0.0.0.0/1"; rt_via := ""; rt_dev := "tun0" |}.
Definition split_high : route :=
  {| rt_dst := "128.0.0.0/1"; rt_via := ""; rt_dev := "tun0" |}.
(** [default via 10.0.2.2 dev eth0] *)
Definition default_route : route :=
  {| rt_dst := "default"; rt_via := "10.0.2.2"; rt_dev := "eth0" |}.
(** [{ip}/32 via 10.0.2.2 dev eth0] *)
Definition host_route (ip : string) : route :=
  {| rt_dst := ip +:+ "/32"; rt_via := "10.0.2.2"; rt_dev := "eth0" |}.

(** [fwmark 438 lookup eth0 pref 9000] and [lookup main pref 9500] *)
Definition rule_fwmark : rule :=
  {| ru_fwmark := Some TUNNEL_MARK; ru_lookup := "eth0"; ru_pref := 9000 |}.
Definition rule_main : rule :=
  {| ru_fwmark := None; ru_lookup := "main"; ru_pref := 9500 |}.
(** The rules of older versions that [_cleanup_routing] still removes. *)
Definition rule_legacy_20 : rule :=
  {| ru_fwmark := None; ru_lookup := "20"; ru_pref := 20 |}.
Definition rule_legacy_14000 : rule :=
  {| ru_fwmark := None; ru_lookup := "20"; ru_pref := 14000 |}.
Definition rule_legacy_fwmark : rule :=
  {| ru_fwmark := Some TUNNEL_MARK; ru_lookup := "main"; ru_pref := 10 |}.

(** The shell commands of the module, one constructor per command string. *)
Inductive cmd :=
  | GetpropBoot      (* getprop sys.boot_completed *)
  | TestBin          (* su -c 'test -x BIN && echo OK' *)
  | ChmodBin         (* su -c 'chmod 755 BIN' *)
  | KillAll          (* su -c 'kill $(head -1 PID) ..; pkill -9 hev-socks5 ..; rm -f PID ..; true' *)
  | RouteDel (r : route)   (* su -c 'ip route del R 2>/dev/null; true' *)
  | RouteAdd (r : route)   (* su -c 'ip route add R 2>/dev/null; true' *)
  | RuleDel (r : rule)     (* su -c 'ip rule del R 2>/dev/null; true' *)
  | RuleAdd (r : rule)     (* su -c 'ip rule add R 2>/dev/null; true' *)
  | RouteFlush (table : Z) (* su -c 'ip route flush table T 2>/dev/null; true' *)
  | LinkDelTun       (* su -c 'ip link delete tun0 2>/dev/null; true' *)
  | WriteConfig (text : string) (* su -c 'echo B64 | base64 -d > CONFIG' *)
  | SysctlRpAll      (* su -c 'sysctl -w net.ipv4.conf.all.rp_filter=0 2>/dev/null' *)
  | SysctlRpTun      (* su -c 'sysctl -w net.ipv4.conf.tun0.rp_filter=0 2>/dev/null' *)
  | StartDaemon      (* su -c 'nohup BIN CONFIG >/dev/null 2>&1 &' *)
  | LinkShowTunUp    (* su -c 'ip link show tun0 2>/dev/null && echo TUN0_UP' *)
  | ProbeDaemon (dead : string) (* su -c 'kill -0 $(head -1 PID ..) .. && echo RUNNING || echo DEAD' *)
  | LinkShowTun      (* ip link show tun0 2>/dev/null *)
  | HeadConfig       (* su -c 'head -50 CONFIG 2>/dev/null' *)
  | KillPid          (* su -c 'kill $(head -1 PID ..) 2>/dev/null; true' *)
  | RmFiles          (* su -c 'rm -f PID CONFIG 2>/dev/null' *)
  | IptablesDelJump  (* su -c 'iptables -D OUTPUT -j CHAIN 2>/dev/null; true' *)
  | IptablesFlush    (* su -c 'iptables -F CHAIN 2>/dev/null; true' *)
  | IptablesDelChain (* su -c 'iptables -X CHAIN 2>/dev/null; true' *).

Inductive bin_state := BinAbsent | BinPushed | BinExec.

Record device := {
  d_booted : bool;             (* sys.boot_completed is 1 *)
  d_bin : bin_state;           (* TUNNEL_BIN on the device *)
  d_pidfile : bool;            (* TUNNEL_PID names the daemon process *)
  d_alive : bool;              (* the daemon process runs *)
  d_tun : bool;                (* interface tun0 exists *)
  d_config : option string;    (* content of TUNNEL_CONFIG *)
  d_routes : list route;       (* main routing table *)
  d_rules : list rule;         (* ip rules *)
  d_daemon_ok : bool           (* a started daemon reaches its proxy and stays up *)
}.

Definition set_bin (b : bin_state) (d : device) : device :=
  {| d_booted := d_booted d; d_bin := b; d_pidfile := d_pidfile d;
     d_alive := d_alive d; d_tun := d_tun d; d_config := d_config d;
     d_routes := d_routes d; d_rules := d_rules d; d_daemon_ok := d_daemon_ok d |}.

Definition set_daemon (pidfile alive tun : bool) (d : device) : device :=
  {| d_booted := d_booted d; d_bin := d_bin d; d_pidfile := pidfile;
     d_alive := alive; d_tun := tun; d_config := d_config d;
     d_routes := d_routes d; d_rules := d_rules d; d_daemon_ok := d_daemon_ok d |}.

Definition set_config (c : option string) (d : device) : device :=
  {| d_booted := d_booted d; d_bin := d_bin d; d_pidfile := d_pidfile d;
     d_alive := d_alive d; d_tun := d_tun d; d_config := c;
     d_routes := d_routes d; d_rules := d_rules d; d_daemon_ok := d_daemon_ok d |}.

Definition set_routes (r : list route) (d : device) : device :=
  {| d_booted := d_booted d; d_bin := d_bin d; d_pidfile := d_pidfile d;
     d_alive := d_alive d; d_tun := d_tun d; d_config := d_config d;
     d_routes := r; d_rules := d_rules d; d_daemon_ok := d_daemon_ok d |}.

Definition set_rules (r : list rule) (d : device) : device :=
  {| d_booted := d_booted d; d_bin := d_bin d; d_pidfile := d_pidfile d;
     d_alive := d_alive d; d_tun := d_tun d; d_config := d_config d;
     d_routes := d_routes d; d_rules := r; d_daemon_ok := d_daemon_ok d |}.

(** What [subprocess.CompletedProcess] carries. *)
Record completed := { returncode : Z; stdout : string; stderr : string }.

Definition done_ok (out : string) : completed :=
  {| returncode := 0; stdout := out; stderr := "" |}.
Definition done_fail : completed :=
  {| returncode := 1; stdout := ""; stderr := "" |}.

(** The line [ip link show tun0] prints for an existing interface. *)
Definition tun0_line : string :=
  "5: tun0: <POINTOPOINT,MULTICAST,NOARP,UP,LOWER_UP> mtu 1500" +:+ Text.nl.

Definition daemon_running (d : device) : bool := d_pidfile d && d_alive d.

(** The interface a route leaves through must exist; eth0 always does. *)
Definition dev_present (d : device) (r : route) : bool :=
  if String.eqb (rt_dev r) "tun0" then d_tun d else true.

(** One command on the device: its result and the device afterwards.
    An added route or rule that exists already is refused by the kernel and
    leaves the table as it is; deleting an absent one changes nothing.
    A killed daemon leaves tun0 behind (the stale interface that
    [write_proxy_config] deletes); deleting tun0 drops the routes through it.
    The firewall, sysctl settings and table 20 are not tracked. *)
Definition exec (c : cmd) (d : device) : completed * device :=
  match c with
  | GetpropBoot =>
      (done_ok ((if d_booted d then "1" else "") +:+ Text.nl), d)
  | TestBin =>
      (match d_bin d with
       | BinExec => done_ok ("OK" +:+ Text.nl)
       | _ => done_fail
       end, d)
  | ChmodBin =>
      match d_bin d with
      | BinAbsent => (done_fail, d)
      | _ => (done_ok "", set_bin BinExec d)
      end
  | KillAll => (done_ok "", set_daemon false false (d_tun d) d)
  | RouteDel r =>
      (done_ok "", set_routes (filter (λ x, x ≠ r) (d_routes d)) d)
  | RouteAdd r =>
      (done_ok "",
       if dev_present d r && negb (bool_decide (r ∈ d_routes d))
       then set_routes (r :: d_routes d) d else d)
  | RuleDel r =>
      (done_ok "", set_rules (filter (λ x, x ≠ r) (d_rules d)) d)
  | RuleAdd r =>
      (done_ok "",
       if bool_decide (r ∈ d_rules d) then d
       else set_rules (r :: d_rules d) d)
  | RouteFlush _ => (done_ok "", d)
  | LinkDelTun =>
      (done_ok "",
       set_routes (filter (λ x, rt_dev x ≠ "tun0") (d_routes d))
         (set_daemon (d_pidfile d) (d_alive d) false d))
  | WriteConfig text => (done_ok "", set_config (Some text) d)
  | SysctlRpAll => (done_ok "", d)
  | SysctlRpTun => (if d_tun d then done_ok "" else done_fail, d)
  | StartDaemon =>
      (done_ok "",
       match d_bin d, d_config d with
       | BinExec, Some _ =>
           if d_daemon_ok d && negb (d_tun d)
           then set_daemon true true true d else d
       | _, _ => d
       end)
  | LinkShowTunUp =>
      (if d_tun d then done_ok (tun0_line +:+ "TUN0_UP" +:+ Text.nl)
       else done_fail, d)
  | ProbeDaemon dead =>
      (done_ok ((if daemon_running d then "RUNNING" else dead) +:+ Text.nl), d)
  | LinkShowTun =>
      (if d_tun d then done_ok tun0_line else done_fail, d)
  | HeadConfig =>
      (match d_config d with
       | Some text => done_ok (Text.head_lines 50 text)
       | None => done_fail
       end, d)
  | KillPid =>
      (done_ok "",
       if d_pidfile d then set_daemon true false (d_tun d) d else d)
  | RmFiles => (done_ok "", set_config None (set_daemon false (d_alive d) (d_tun d) d))
  | IptablesDelJump | IptablesFlush | IptablesDelChain => (done_ok "", d)
  end.

(** ** Exceptions

    The exceptions the calls of the module can raise, as far as its handlers
    tell them apart: [except socket.error] catches every [OSError], [except
    socket.gaierror] only that subclass, [except Exception] all of them. *)
Inductive exn :=
  | OSError      (* socket.error, FileNotFoundError, PermissionError *)
  | GaiError     (* socket.gaierror, a subclass of OSError *)
  | ValueError   (* also UnicodeError and UnicodeDecodeError, its subclasses *)
  | TypeError.

Definition is_OSError (e : exn) : bool :=
  match e with OSError | GaiError => true | _ => false end.

Definition is_gaierror (e : exn) : bool :=
  match e with GaiError => true | _ => false end.

(** [except Exception] *)
Definition is_Exception (e : exn) : bool := true.

(** A call returns a value or raises. *)
Inductive outcome (A : Type) : Type :=
  | Val (a : A)
  | Raise (e : exn).

Arguments Val {A} a.
Arguments Raise {A} e.

(** What [subprocess.run] does on the next [adb_shell] call. *)
Inductive fault :=
  | Answers
  | TimesOut             (* subprocess.TimeoutExpired *)
  | Raises (e : exn)     (* anything else: adb cannot be started, or its
                            output cannot be decoded *).

(** ** The world outside the manager

    Devices are looked up by their adb serial.  What the host cannot decide
    is read from the world as it comes: whether an [adb_shell] call answers,
    times out or raises, whether an [adb push] succeeds, the readings of
    [time.time()], what [socket.inet_aton] and [socket.gethostbyname] do
    with a name, and whether [_patch_geo_from_ip] finds the exit country. *)
Record world := {
  w_devs : gmap string device;
  w_faults : list fault;         (* the next adb_shell calls; all answer after *)
  w_log : list (string * cmd);   (* commands sent, newest first *)
  w_clock : nat → Z;             (* successive readings of time.time() *)
  w_tick : nat;
  w_local_bin : bool;            (* os.path.isfile(_LOCAL_TUNNEL_BIN) *)
  w_push : list bool;            (* outcomes of the next adb push calls *)
  w_geo : list bool;             (* outcomes of the next geo patches *)
  w_inet_aton : string → option exn;   (* [None]: inet_aton accepts the text *)
  w_dns : string → outcome string      (* gethostbyname *)
}.

Definition with_devs (ds : gmap string device) (w : world) : world :=
  {| w_devs := ds; w_faults := w_faults w; w_log := w_log w;
     w_clock := w_clock w; w_tick := w_tick w; w_local_bin := w_local_bin w;
     w_push := w_push w; w_geo := w_geo w;
     w_inet_aton := w_inet_aton w; w_dns := w_dns w |}.

Definition with_faults (fs : list fault) (w : world) : world :=
  {| w_devs := w_devs w; w_faults := fs; w_log := w_log w;
     w_clock := w_clock w; w_tick := w_tick w; w_local_bin := w_local_bin w;
     w_push := w_push w; w_geo := w_geo w;
     w_inet_aton := w_inet_aton w; w_dns := w_dns w |}.

Definition with_log (l : list (string * cmd)) (w : world) : world :=
  {| w_devs := w_devs w; w_faults := w_faults w; w_log := l;
     w_clock := w_clock w; w_tick := w_tick w; w_local_bin := w_local_bin w;
     w_push := w_push w; w_geo := w_geo w;
     w_inet_aton := w_inet_aton w; w_dns := w_dns w |}.

Definition with_tick (n : nat) (w : world) : world :=
  {| w_devs := w_devs w; w_faults := w_faults w; w_log := w_log w;
     w_clock := w_clock w; w_tick := n; w_local_bin := w_local_bin w;
     w_push := w_push w; w_geo := w_geo w;
     w_inet_aton := w_inet_aton w; w_dns := w_dns w |}.

Definition with_push (l : list bool) (w : world) : world :=
  {| w_devs := w_devs w; w_faults := w_faults w; w_log := w_log w;
     w_clock := w_clock w; w_tick := w_tick w; w_local_bin := w_local_bin w;
     w_push := l; w_geo := w_geo w;
     w_inet_aton := w_inet_aton w; w_dns := w_dns w |}.

Definition with_geo (l : list bool) (w : world) : world :=
  {| w_devs := w_devs w; w_faults := w_faults w; w_log := w_log w;
     w_clock := w_clock w; w_tick := w_tick w; w_local_bin := w_local_bin w;
     w_push := w_push w; w_geo := l;
     w_inet_aton := w_inet_aton w; w_dns := w_dns w |}.

(** Computations against the world: a value or an exception, and the world
    as the call left it. *)
Definition M (A : Type) : Type := world → outcome A * world.

Definition ret {A} (a : A) : M A := λ w, (Val a, w).

(** Sequencing: an exception of the first call ends the computation. *)
Definition bind {A B} (m : M A) (k : A → M B) : M B :=
  λ w, match m w with
       | (Val a, w') => k a w'
       | (Raise e, w') => (Raise e, w')
       end.

Definition raise {A} (e : exn) : M A := λ w, (Raise e, w).

(** [try: m  except C: handler], [caught] telling the exceptions of [C]. *)
Definition try_except {A} (m : M A) (caught : exn → bool) (handler : M A) : M A :=
  λ w, match m w with
       | (Raise e, w') => if caught e then handler w' else (Raise e, w')
       | (Val a, w') => (Val a, w')
       end.

Notation "x <- m ;; k" := (bind m (λ x, k))
  (at level 100, m at next level, right associativity).
Notation "m ;;; k" := (bind m (λ _, k))
  (at level 100, right associativity).

(** The output of a command as [text=True] hands it over. *)
Definition as_text (cp : completed) : completed :=
  {| returncode := returncode cp;
     stdout := Text.universal_newlines (stdout cp);
     stderr := Text.universal_newlines (stderr cp) |}.

(** [randomize_instances.adb_shell]: [run_cmd] turns a timeout into a
    [CompletedProcess] with return code 1, empty output and the error text
    [timeout], and lets every other exception of [subprocess.run] through.
    A command that timed out or raised is taken not to have run.  An unknown
    serial makes adb fail. *)
Definition adb_shell (serial : string) (c : cmd) : M completed :=
  λ w,
    let w1 := with_log ((serial, c) :: w_log w) w in
    match w_faults w with
    | TimesOut :: fs =>
        (Val {| returncode := 1; stdout := ""; stderr := "timeout" |},
         with_faults fs w1)
    | Raises e :: fs => (Raise e, with_faults fs w1)
    | fs =>
        let w2 := with_faults (tail fs) w1 in
        match w_devs w !! serial with
        | None =>
            (Val {| returncode := 1; stdout := "";
                    stderr := "adb: device '" +:+ serial +:+ "' not found" |}, w2)
        | Some d =>
            let '(cp, d') := exec c d in
            (Val (as_text cp), with_devs (<[serial := d']> (w_devs w)) w2)
        end
    end.

(** [time.time()] *)
Definition time_time (w : world) : Z * world :=
  (w_clock w (w_tick w), with_tick (S (w_tick w)) w).

(** [os.path.isfile(_LOCAL_TUNNEL_BIN)] *)
Definition isfile_local : M bool := λ w, (Val (w_local_bin w), w).

(** [subprocess.run([adb, "-s", serial, "push", local, TUNNEL_BIN])] inside
    its [try ... except Exception]: [true] when the return code is 0. *)
Definition adb_push (serial : string) : M bool :=
  λ w,
    match w_push w with
    | true :: l =>
        (Val true,
         with_push l
           (with_devs (alter (set_bin BinPushed) serial (w_devs w)) w))
    | _ :: l => (Val false, with_push l w)
    | [] => (Val false, w)
    end.

(** [randomize_instances._patch_geo_from_ip] inside its [try ... except
    Exception]: [true] when it returns a country.  It edits the profile
    files and the time zone property, none of which the tunnel reads. *)
Definition patch_geo (serial : string) : M bool :=
  λ w,
    match w_geo w with
    | b :: l => (Val b, with_geo l w)
    | [] => (Val false, w)
    end.

(** [socket.inet_aton(hostname)] and [socket.gethostbyname(hostname)] *)
Definition inet_aton (hostname : string) : M unit :=
  λ w, match w_inet_aton w hostname with
       | None => (Val tt, w)
       | Some e => (Raise e, w)
       end.

Definition gethostbyname (hostname : string) : M string :=
  λ w, (w_dns w hostname, w).

(** ** Device helpers of the module *)

(** [{"ok": True}] or [{"ok": False, "error": msg}] *)
Inductive result := Ok | Failed (error : string).

Definition result_ok (r : result) : bool :=
  match r with Ok => true | Failed _ => false end.

(** The push retries of [_ensure_binary]: [for attempt in range(n)] with its
    [else] branch, [true] when a push broke out of the loop. *)
Fixpoint push_loop (n : nat) (serial : string) : M bool :=
  match n with
  | O => ret false
  | S k =>
      pushed <- adb_push serial ;;
      if pushed then ret true else push_loop k serial
  end.

Definition _ensure_binary (serial : string) : M bool :=
  cp <- adb_shell serial TestBin ;;
  if (returncode cp =? 0) && Text.contains "OK" (stdout cp) then ret true
  else
    have_local <- isfile_local ;;
    if negb have_local then ret false
    else
      pushed <- push_loop 3 serial ;;
      if pushed then (adb_shell serial ChmodBin ;;; ret true)
      else ret false.

(** The command list of [_cleanup_routing], in order. *)
Definition cleanup_cmds : list cmd :=
  [ RouteDel split_low; RouteDel split_high;
    RuleDel rule_fwmark; RuleDel rule_main;
    RuleDel rule_legacy_20; RuleDel rule_legacy_14000;
    RuleDel rule_legacy_fwmark; RouteFlush TUNNEL_TABLE ].

(** Send each command in turn, results ignored. *)
Fixpoint run_all (serial : string) (cs : list cmd) : M unit :=
  match cs with
  | [] => ret tt
  | c :: r => adb_shell serial c ;;; run_all serial r
  end.

Definition _cleanup_routing (serial : string) : M unit :=
  run_all serial cleanup_cmds.

(** Two [try] blocks in a row, the second reached when the first caught a
    [socket.error]. *)
Definition _resolve_host (hostname : string) : M string :=
  try_except (inet_aton hostname ;;; ret hostname) is_OSError
    (try_except (gethostbyname hostname) is_gaierror (ret hostname)).

(** Step 8 of [write_proxy_config]: poll for tun0, [true] when it showed. *)
Fixpoint wait_tun0 (n : nat) (serial : string) : M bool :=
  match n with
  | O => ret false
  | S k =>
      tun_check <- adb_shell serial LinkShowTunUp ;;
      if Text.contains "TUN0_UP" (stdout tun_check) then ret true
      else wait_tun0 k serial
  end.

(** The geo patch retries at the end of [write_proxy_config]. *)
Fixpoint geo_loop (n : nat) (serial : string) : M unit :=
  match n with
  | O => ret tt
  | S k =>
      geo <- patch_geo serial ;;
      if geo then ret tt else geo_loop k serial
  end.

Definition daemon_failed_msg : string :=
  "Tunnel daemon failed to start — check proxy credentials".

Definition write_proxy_config
    (serial server : string) (port : Z) (username password : string)
  : M result :=
  server_ip <- _resolve_host server ;;
  have_bin <- _ensure_binary serial ;;
  if negb have_bin then ret (Failed "Failed to push tunnel binary to device")
  else
    adb_shell serial KillAll ;;;
    _cleanup_routing serial ;;;
    adb_shell serial LinkDelTun ;;;
    adb_shell serial (RouteAdd default_route) ;;;
    let yaml_content := _build_tunnel_config server_ip port username password in
    cp <- adb_shell serial (WriteConfig yaml_content) ;;
    if negb (returncode cp =? 0) then
      ret (Failed ("Failed to write config: " +:+ Text.strip (stderr cp)))
    else
      adb_shell serial SysctlRpAll ;;;
      adb_shell serial StartDaemon ;;;
      wait_tun0 10 serial ;;;
      adb_shell serial SysctlRpTun ;;;
      adb_shell serial (RouteAdd (host_route server_ip)) ;;;
      adb_shell serial (RouteAdd split_low) ;;;
      adb_shell serial (RouteAdd split_high) ;;;
      adb_shell serial (RuleAdd rule_fwmark) ;;;
      adb_shell serial (RuleAdd rule_main) ;;;
      cp_verify <- adb_shell serial (ProbeDaemon "DEAD") ;;
      if negb (Text.contains "RUNNING" (stdout cp_verify)) then
        _cleanup_routing serial ;;;
        ret (Failed daemon_failed_msg)
      else
        geo_loop 3 serial ;;;
        ret Ok.

(** ** StatusReader: [read_vpn_status] *)

Inductive tunnel_state := Connected | Reconnecting | Stopped | Unknown.

(** The status dictionary [{"state": .., "server": ..}]. *)
Record status := { st_state : tunnel_state; st_server : string }.

#[global] Instance tunnel_state_eq_dec : EqDecision tunnel_state.
Proof. solve_decision. Defined.

#[global] Instance status_eq_dec : EqDecision status.
Proof. solve_decision. Defined.

(** The [server] entry computed from the output of [head -50 CONFIG]. *)
Definition parse_server (cp_conf : completed) : string :=
  if (returncode cp_conf =? 0) && Text.nonempty (Text.strip (stdout cp_conf)) then
    match Re.search_value "address:" (stdout cp_conf) with
    | Some g =>
        let addr := Text.strip g in
        let prt := match Re.search_port (stdout cp_conf) with
                   | Some p => Text.strip p
                   | None => ""
                   end in
        if Text.nonempty prt then addr +:+ ":" +:+ prt else addr
    | None => ""
    end
  else "".

Definition read_vpn_status (serial : string) : M status :=
  cp_pid <- adb_shell serial (ProbeDaemon "STOPPED") ;;
  let daemon_running :=
    (returncode cp_pid =? 0) && Text.contains "RUNNING" (stdout cp_pid) in
  state <-
    (if daemon_running then
       cp_tun <- adb_shell serial LinkShowTun ;;
       if (returncode cp_tun =? 0) && Text.contains "tun0" (stdout cp_tun)
       then ret Connected else ret Reconnecting
     else ret Stopped) ;;
  cp_conf <- adb_shell serial HeadConfig ;;
  ret {| st_state := state; st_server := parse_server cp_conf |}.

(** [read_current_config]: the keys present in the returned dictionary. *)
Record current_config := {
  cc_server : option string; cc_port : option string;
  cc_username : option string; cc_password : option string }.

Definition empty_config : current_config :=
  {| cc_server := None; cc_port := None;
     cc_username := None; cc_password := None |}.

Definition read_current_config (serial : string) : M current_config :=
  cp <- adb_shell serial HeadConfig ;;
  if negb (returncode cp =? 0) || negb (Text.nonempty (Text.strip (stdout cp)))
  then ret empty_config
  else
    let text := stdout cp in
    ret {| cc_server := Text.strip <$> Re.search_value "address:" text;
           cc_port := Text.strip <$> Re.search_port text;
           cc_username := Text.strip <$> Re.search_value "username:" text;
           cc_password := Text.strip <$> Re.search_value "password:" text |}.

(** ** [disconnect_vpn] and the kill switch helpers *)

Definition disconnect_vpn (serial : string) : M result :=
  config <- read_current_config serial ;;
  let proxy_ip := default "" (cc_server config) in
  _cleanup_routing serial ;;;
  (if Text.nonempty proxy_ip
   then adb_shell serial (RouteDel (host_route proxy_ip)) ;;; ret tt
   else ret tt) ;;;
  adb_shell serial KillPid ;;;
  adb_shell serial RmFiles ;;;
  ret Ok.

(** [enable_kill_switch] is a placeholder that only logs. *)
Definition enable_kill_switch (serial : string) : M unit := ret tt.

Definition disable_kill_switch (serial : string) : M unit :=
  run_all serial [IptablesDelJump; IptablesFlush; IptablesDelChain].

(** ** ReconnectPolicy: the backoff of [_poll_loop] *)

Definition _RECONNECT_BASE_DELAY : Z := 10.
Definition _RECONNECT_MAX_DELAY : Z := 300.
Definition _RECONNECT_MAX_ATTEMPTS : nat := 10.

(** The [rs] dictionary [{"last_attempt": .., "attempts": ..}].  The clock is
    read in whole seconds; [attempts] starts at 0 and only ever grows. *)
Record reconnect := { last_attempt : Z; attempts : nat }.

Definition reconnect_zero : reconnect := {| last_attempt := 0; attempts := 0 |}.

(** [min(BASE * (2 ** rs["attempts"]), MAX)] *)
Definition reconnect_delay (n : nat) : Z :=
  Z.min (_RECONNECT_BASE_DELAY * 2 ^ Z.of_nat n) _RECONNECT_MAX_DELAY.

Inductive decision :=
  | GiveUpReport   (* attempts == MAX: log "gave up", bump the counter *)
  | GiveUpSilent   (* attempts > MAX: nothing *)
  | Attempt        (* reconnect now *)
  | Wait           (* too early *).

(** The branch taken for a stopped always-on instance and the [rs] it
    stores, before [apply_proxy] is called. *)
Definition reconnect_decide (rs : reconnect) (now : Z) : decision * reconnect :=
  let delay := reconnect_delay (attempts rs) in
  if (_RECONNECT_MAX_ATTEMPTS <=? attempts rs)%nat then
    if (attempts rs =? _RECONNECT_MAX_ATTEMPTS)%nat then
      (GiveUpReport,
       {| last_attempt := last_attempt rs; attempts := S (attempts rs) |})
    else (GiveUpSilent, rs)
  else if delay <=? now - last_attempt rs then
    (Attempt, {| last_attempt := now; attempts := S (attempts rs) |})
  else (Wait, rs).

(** ** VPNManager *)

(** An always-on entry [{server, port, username, password}]. *)
Record proxy_config := {
  pc_server : string; pc_port : Z; pc_username : string; pc_password : string }.

(** A polled instance [{name, serial}]. *)
Record instance := { inst_name : string; inst_serial : string }.

(** What the manager lets the outside see besides its return values: the
    [on_status_change] callback and the two log lines of the backoff. *)
Inductive event :=
  | StatusChange (name : string) (st : status)
  | LogReconnecting (name : string) (attempt : nat)
  | LogGaveUp (name : string).

Record manager := {
  _statuses : gmap string status;
  _always_on : gmap string proxy_config;
  _reconnect_state : gmap string reconnect;
  _kill_switch : gset string;
  _boot_ready : gmap string Z;
  events : list event            (* newest first *)
}.

(** [VPNManager.__init__] *)
Definition new_manager : manager :=
  {| _statuses := ∅; _always_on := ∅; _reconnect_state := ∅;
     _kill_switch := ∅; _boot_ready := ∅; events := [] |}.

Definition with_statuses (x : gmap string status) (m : manager) : manager :=
  {| _statuses := x; _always_on := _always_on m;
     _reconnect_state := _reconnect_state m; _kill_switch := _kill_switch m;
     _boot_ready := _boot_ready m; events := events m |}.

Definition with_always_on (x : gmap string proxy_config) (m : manager) : manager :=
  {| _statuses := _statuses m; _always_on := x;
     _reconnect_state := _reconnect_state m; _kill_switch := _kill_switch m;
     _boot_ready := _boot_ready m; events := events m |}.

Definition with_reconnect_state (x : gmap string reconnect) (m : manager) : manager :=
  {| _statuses := _statuses m; _always_on := _always_on m;
     _reconnect_state := x; _kill_switch := _kill_switch m;
     _boot_ready := _boot_ready m; events := events m |}.

Definition with_kill_switch (x : gset string) (m : manager) : manager :=
  {| _statuses := _statuses m; _always_on := _always_on m;
     _reconnect_state := _reconnect_state m; _kill_switch := x;
     _boot_ready := _boot_ready m; events := events m |}.

Definition with_boot_ready (x : gmap string Z) (m : manager) : manager :=
  {| _statuses := _statuses m; _always_on := _always_on m;
     _reconnect_state := _reconnect_state m; _kill_switch := _kill_switch m;
     _boot_ready := x; events := events m |}.

Definition emit (e : event) (m : manager) : manager :=
  {| _statuses := _statuses m; _always_on := _always_on m;
     _reconnect_state := _reconnect_state m; _kill_switch := _kill_switch m;
     _boot_ready := _boot_ready m; events := e :: events m |}.

(** [self._statuses[name] = st] followed by the callback. *)
Definition set_status (name : string) (st : status) (m : manager) : manager :=
  emit (StatusChange name st) (with_statuses (<[name := st]> (_statuses m)) m).

(** The status [{"state": "unknown", "error": str(e)}] that the poll loop
    caches when a pass raised; the error text is not kept. *)
Definition err_status : status := {| st_state := Unknown; st_server := "" |}.

Definition apply_proxy
    (instance_name serial server : string) (port : Z)
    (username password : string) (m : manager) (w : world)
  : outcome result * manager * world :=
  match write_proxy_config serial server port username password w with
  | (Val res, w1) =>
      if result_ok res then
        (Val res,
         set_status instance_name
           {| st_state := Reconnecting;
              st_server := server +:+ ":" +:+ Text.str_of_int port |} m,
         w1)
      else (Val res, m, w1)
  | (Raise e, w1) => (Raise e, m, w1)
  end.

(** The kill-switch removal is inside [try ... except Exception], the call
    of [disconnect_vpn] before it is not. *)
Definition disconnect (instance_name serial : string) (m : manager) (w : world)
  : outcome result * manager * world :=
  match disconnect_vpn serial w with
  | (Val res, w1) =>
      let '(m1, w2) :=
        if bool_decide (instance_name ∈ _kill_switch m) then
          let '(_, w2) := disable_kill_switch serial w1 in
          (with_kill_switch (_kill_switch m ∖ {[instance_name]}) m, w2)
        else (m, w1) in
      let m2 := with_always_on (delete instance_name (_always_on m1)) m1 in
      (Val res,
       set_status instance_name {| st_state := Stopped; st_server := "" |} m2, w2)
  | (Raise e, w1) => (Raise e, m, w1)
  end.

(** [proxy_config] is [None] to disable. *)
Definition set_always_on
    (instance_name : string) (cfg : option proxy_config) (m : manager) : manager :=
  match cfg with
  | Some c => with_always_on (<[instance_name := c]> (_always_on m)) m
  | None => with_always_on (delete instance_name (_always_on m)) m
  end.

(** The set is changed first, then the helper is called. *)
Definition set_kill_switch
    (instance_name serial : string) (enabled : bool) (m : manager) (w : world)
  : outcome unit * manager * world :=
  if enabled then
    let '(r, w1) := enable_kill_switch serial w in
    (r, with_kill_switch ({[instance_name]} ∪ _kill_switch m) m, w1)
  else
    let '(r, w1) := disable_kill_switch serial w in
    (r, with_kill_switch (_kill_switch m ∖ {[instance_name]}) m, w1).

(** The always-on branch of the loop body, entered when the state read is
    [stopped] and the instance is registered with [cfg].  The call of
    [apply_proxy] and what follows it are inside [try ... except Exception],
    which only logs. *)
Definition reconnect_branch
    (inst : instance) (cfg : proxy_config) (m : manager) (w : world)
  : manager * world :=
  let name := inst_name inst in
  let rs := default reconnect_zero (_reconnect_state m !! name) in
  let '(now, w1) := time_time w in
  match reconnect_decide rs now with
  | (GiveUpReport, rs') =>
      (with_reconnect_state (<[name := rs']> (_reconnect_state m))
         (emit (LogGaveUp name) m), w1)
  | (Attempt, rs') =>
      let m1 :=
        with_reconnect_state (<[name := rs']> (_reconnect_state m))
          (emit (LogReconnecting name (S (attempts rs))) m) in
      match apply_proxy name (inst_serial inst) (pc_server cfg) (pc_port cfg)
              (pc_username cfg) (pc_password cfg) m1 w1 with
      | (Val res, m2, w2) =>
          if result_ok res then
            let m3 :=
              with_reconnect_state
                (<[name := reconnect_zero]> (_reconnect_state m2)) m2 in
            if bool_decide (name ∈ _kill_switch m3) then
              let '(_, w3) := enable_kill_switch (inst_serial inst) w2 in (m3, w3)
            else (m3, w2)
          else (m2, w2)
      | (Raise _, m2, w2) => (m2, w2)
      end
  | (GiveUpSilent, _) | (Wait, _) => (m, w1)
  end.

(** One pass of the [for inst in instances] body of [_poll_loop]: the boot
    probe in its own [try], the rest in the outer one, whose handler caches
    the error status and notifies. *)
Definition poll_instance (inst : instance) (m : manager) (w : world)
  : manager * world :=
  let name := inst_name inst in
  match adb_shell (inst_serial inst) GetpropBoot w with
  | (Raise _, w1) => (with_boot_ready (delete name (_boot_ready m)) m, w1)
  | (Val boot_cp, w1) =>
      if negb (returncode boot_cp =? 0) || negb (Text.contains "1" (stdout boot_cp))
      then (with_boot_ready (delete name (_boot_ready m)) m, w1)
      else
        match _boot_ready m !! name with
        | None =>
            let '(t, w2) := time_time w1 in
            (with_boot_ready (<[name := t]> (_boot_ready m)) m, w2)
        | Some t0 =>
            let '(t, w2) := time_time w1 in
            let cooldown_elapsed := t - t0 in
            if cooldown_elapsed <? 30 then (m, w2)
            else
              match read_vpn_status (inst_serial inst) w2 with
              | (Raise _, w3) => (set_status name err_status m, w3)
              | (Val st, w3) =>
                  let old := _statuses m !! name in
                  let m1 := with_statuses (<[name := st]> (_statuses m)) m in
                  let m2 :=
                    if bool_decide (old ≠ Some st)
                    then emit (StatusChange name st) m1 else m1 in
                  match st_state st, _always_on m2 !! name with
                  | Stopped, Some cfg => reconnect_branch inst cfg m2 w3
                  | Connected, _ =>
                      (with_reconnect_state
                         (delete name (_reconnect_state m2)) m2, w3)
                  | _, _ => (m2, w3)
                  end
              end
        end
  end.

(** One cycle over the polled instances, and the [while] loop stopped after
    [n] cycles. *)
Fixpoint poll_cycle (instances : list instance) (m : manager) (w : world)
  : manager * world :=
  match instances with
  | [] => (m, w)
  | inst :: rest =>
      let '(m1, w1) := poll_instance inst m w in poll_cycle rest m1 w1
  end.

Fixpoint _poll_loop (n : nat) (instances : list instance) (m : manager) (w : world)
  : manager * world :=
  match n with
  | O => (m, w)
  | S k =>
      let '(m1, w1) := poll_cycle instances m w in _poll_loop k instances m1 w1
  end.

(** ** More of the manager *)

(** The dictionary [{i["name"]: i for i in ...}] of [start_polling] as the
    list of its values in insertion order: assigning to a name that is there
    replaces the value in place, a new name goes to the end. *)
Fixpoint dict_set (inst : instance) (l : list instance) : list instance :=
  match l with
  | [] => [inst]
  | x :: r =>
      if String.eqb (inst_name x) (inst_name inst) then inst :: r
      else x :: dict_set inst r
  end.

(** [existing[name]] *)
Fixpoint dict_get (name : string) (l : list instance) : option instance :=
  match l with
  | [] => None
  | x :: r => if String.eqb (inst_name x) name then Some x else dict_get name r
  end.

(** Assign the instances of [l] in turn. *)
Definition dict_update (l : list instance) (d : list instance) : list instance :=
  fold_left (λ acc inst, dict_set inst acc) l d.

(** The new [_poll_instances] of [start_polling]: with a live poller the
    given instances are merged into the polled ones by name, otherwise they
    replace them as they are.  Starting and stopping the thread is left
    out. *)
Definition start_polling
    (alive : bool) (_poll_instances instances : list instance) : list instance :=
  if alive then dict_update instances (dict_update _poll_instances [])
  else instances.

(** The instance assigned last under [name] in [l]. *)
Definition last_named (name : string) (l : list instance) : option instance :=
  dict_get name (rev l).

(** [disconnect_all]: the loop with its [results] dictionary. *)
Fixpoint disconnect_all_from
    (instances : list instance) (results : gmap string result)
    (m : manager) (w : world)
  : outcome (gmap string result) * manager * world :=
  match instances with
  | [] => (Val results, m, w)
  | inst :: rest =>
      match disconnect (inst_name inst) (inst_serial inst) m w with
      | (Val res, m1, w1) =>
          disconnect_all_from rest (<[inst_name inst := res]> results) m1 w1
      | (Raise e, m1, w1) => (Raise e, m1, w1)
      end
  end.

Definition disconnect_all (instances : list instance) (m : manager) (w : world)
  : outcome (gmap string result) * manager * world :=
  disconnect_all_from instances ∅ m w.

(** [get_status]: the cached status, [{"state": "unknown"}] without one;
    the server key is then missing, which reads as the empty text. *)
Definition get_status (instance_name : string) (m : manager) : status :=
  default {| st_state := Unknown; st_server := "" |} (_statuses m !! instance_name).

(** [refresh_status]: read, cache and notify, whatever was cached; an
    exception is only logged. *)
Definition refresh_status (instance_name serial : string) (m : manager) (w : world)
  : manager * world :=
  match read_vpn_status serial w with
  | (Val st, w1) => (set_status instance_name st m, w1)
  | (Raise _, w1) => (m, w1)
  end.

(** ** [apply_proxy_bulk]

    One worker thread per assignment runs [apply_proxy] and then stores what
    it returned under the instance name; the caller joins the threads one
    after the other, each for at most 30 seconds, and returns the
    dictionary.  How a worker's call ended and when is taken as it comes. *)

(** The worker of one assignment: the instance name, how its [apply_proxy]
    call ended, and the time in seconds, counted from the first join, at
    which the thread ends. *)
Record worker := { wk_name : string; wk_end : outcome result; wk_done : Z }.

(** [t.join(timeout=30)] called at [now] for a thread that ends at [done]:
    the time at which the call returns. *)
Definition join (now done : Z) : Z :=
  if done <=? now then now else Z.min done (now + 30).

(** [for t in threads: t.join(timeout=30)] *)
Fixpoint join_all (now : Z) (ws : list worker) : Z :=
  match ws with
  | [] => now
  | wk :: rest => join_all (join now (wk_done wk)) rest
  end.

(** The workers in the order in which they end, list order among equals. *)
Fixpoint insert_by_done (wk : worker) (ws : list worker) : list worker :=
  match ws with
  | [] => [wk]
  | x :: rest =>
      if wk_done wk <? wk_done x then wk :: x :: rest
      else x :: insert_by_done wk rest
  end.

Definition by_done (ws : list worker) : list worker :=
  fold_right insert_by_done [] (rev ws).

(** [results[a["instance_name"]] = r], which a worker reaches only when
    [apply_proxy] returned. *)
Definition store (results : gmap string result) (wk : worker)
  : gmap string result :=
  match wk_end wk with
  | Val r => <[wk_name wk := r]> results
  | Raise _ => results
  end.

(** The dictionary at time [t]: the stores of the workers that have ended. *)
Definition results_at (t : Z) (ws : list worker) : gmap string result :=
  fold_left store (filter (λ wk, wk_done wk ≤ t) (by_done ws)) ∅.

(** [apply_proxy_bulk]: the dictionary as it is when the last join returns,
    and the time of that return. *)
Definition apply_proxy_bulk (ws : list worker) : gmap string result * Z :=
  let t := join_all 0 ws in (results_at t ws, t).

(** ** Notions used by the statements *)




(** How many reconnect attempts the event log records for [name]. *)
Fixpoint count_reconnects (name : string) (evs : list event) : nat :=
  match evs with
  | [] => O
  | LogReconnecting n _ :: rest =>
      if String.eqb n name then S (count_reconnects name rest)
      else count_reconnects name rest
  | _ :: rest => count_reconnects name rest
  end.

(** The calls a client of the manager makes between which the state is
    observed; a poll cycle stands for the background thread's turn.  A call
    that raises leaves the manager as it was at the raise. *)
Inductive op :=
  | OpPoll (instances : list instance)
  | OpApply (name serial server : string) (port : Z) (username password : string)
  | OpDisconnect (name serial : string)
  | OpDisconnectAll (instances : list instance)
  | OpSetAlwaysOn (name : string) (cfg : option proxy_config)
  | OpSetKillSwitch (name serial : string) (enabled : bool)
  | OpRefresh (name serial : string).

Definition run_op (o : op) (m : manager) (w : world) : manager * world :=
  match o with
  | OpPoll instances => poll_cycle instances m w
  | OpApply name serial server port username password =>
      let '(_, m1, w1) := apply_proxy name serial server port username password m w in
      (m1, w1)
  | OpDisconnect name serial =>
      let '(_, m1, w1) := disconnect name serial m w in (m1, w1)
  | OpDisconnectAll instances =>
      let '(_, m1, w1) := disconnect_all instances m w in (m1, w1)
  | OpSetAlwaysOn name cfg => (set_always_on name cfg m, w)
  | OpSetKillSwitch name serial enabled =>
      let '(_, m1, w1) := set_kill_switch name serial enabled m w in (m1, w1)
  | OpRefresh name serial => refresh_status name serial m w
  end.

Fixpoint run_ops (os : list op) (m : manager) (w : world) : manager * world :=
  match os with
  | [] => (m, w)
  | o :: rest => let '(m1, w1) := run_op o m w in run_ops rest m1 w1
  end.

(** The call registers always-on for [name]. *)
Definition registers (name : string) (o : op) : bool :=
  match o with
  | OpSetAlwaysOn n (Some _) => String.eqb n name
  | _ => false
  end.

(** "A reconnect-state entry exists only for registered instances." *)
Definition reconnect_registered (m : manager) : Prop :=
  ∀ name, is_Some (_reconnect_state m !! name) → is_Some (_always_on m !! name).

(** The first 50 lines of a descriptor as the host reads them. *)
Definition head_config (text : string) : string :=
  Text.universal_newlines (Text.head_lines 50 text).


(** A device right after boot, nothing of the tunnel installed; [bin] tells
    whether the daemon binary is there, [ok] whether a daemon would stay up. *)
Definition fresh_device (bin : bin_state) (ok : bool) : device :=
  {| d_booted := true; d_bin := bin; d_pidfile := false; d_alive := false;
     d_tun := false; d_config := None; d_routes := []; d_rules := [];
     d_daemon_ok := ok |}.

(** A world with the one device [emu], a reliable channel, a clock that
    advances 100 s per reading, and server names that are IPv4 literals. *)
Definition lab (d : device) : world :=
  {| w_devs := {[ "emu" := d ]}; w_faults := []; w_log := [];
     w_clock := λ n, 100 * Z.of_nat n; w_tick := 0;
     w_local_bin := false; w_push := []; w_geo := [];
     w_inet_aton := λ _, None; w_dns := λ _, Raise GaiError |}.

Definition routes_of (w : world) : list route :=
  match w_devs w !! "emu" with Some d => d_routes d | None => [] end.

Definition rules_of (w : world) : list rule :=
  match w_devs w !! "emu" with Some d => d_rules d | None => [] end.

(** An instance [A] on device [emu], registered always-on with a proxy. *)
Definition demo_cfg : proxy_config :=
  {| pc_server := "10.0.0.9"; pc_port := 1080;
     pc_username := ""; pc_password := "" |}.

Definition demo_inst : instance := {| inst_name := "A"; inst_serial := "emu" |}.

(** Register [A], then poll twice a booted device that has no daemon binary
    while the host has none to push: the first cycle starts the boot
    cooldown, the second reads [stopped] and makes a reconnect attempt,
    which fails. *)
Definition after_failed_reconnect : manager * world :=
  _poll_loop 2 [demo_inst]
    (set_always_on "A" (Some demo_cfg) new_manager)
    (lab (fresh_device BinAbsent false)).

(** Two applies in a row on a device that has the binary and whose daemon
    stays up, and one apply on a device whose daemon does not stay up. *)
Definition two_applies : outcome result * outcome result * world :=
  let '(r1, w1) :=
    write_proxy_config "emu" "10.0.0.1" 1080 "" "" (lab (fresh_device BinExec true)) in
  let '(r2, w2) := write_proxy_config "emu" "10.0.0.2" 1080 "" "" w1 in
  (r1, r2, w2).

Definition failed_apply : outcome result * world :=
  write_proxy_config "emu" "10.0.0.9" 1080 "" "" (lab (fresh_device BinExec false)).

(** A device with a live daemon and tun0 up, but no descriptor file. *)
Definition running_device : device :=
  {| d_booted := true; d_bin := BinExec; d_pidfile := true; d_alive := true;
     d_tun := true; d_config := None; d_routes := []; d_rules := [];
     d_daemon_ok := true |}.

(** The world [lab] at its second clock reading, and with a resolver that
    knows no name and an [inet_aton] that accepts none. *)
Definition lab_later (d : device) : world := with_tick 1 (lab d).

Definition lab_no_dns (d : device) : world :=
  {| w_devs := {[ "emu" := d ]}; w_faults := []; w_log := [];
     w_clock := λ n, 100 * Z.of_nat n; w_tick := 0;
     w_local_bin := false; w_push := []; w_geo := [];
     w_inet_aton := λ _, Some OSError; w_dns := λ _, Raise GaiError |}.

(** Every command a computation sends satisfies [P]; the log only grows. *)
Definition sends_only (P : cmd → Prop) {A} (f : M A) : Prop :=
  ∀ w, ∃ l, w_log (snd (f w)) = l ++ w_log w ∧ Forall (λ x, P (snd x)) l.

(** [ip route del ... via 10.0.2.2 ...]: the deletion of a gateway route,
    which is what the host route of a proxy is. *)
Definition deletes_gateway_route (c : cmd) : bool :=
  match c with
  | RouteDel r => String.eqb (rt_via r) "10.0.2.2"
  | _ => false
  end.

(** Whenever [f] returns success, [x] is among the commands sent. *)
Definition sent_if_ok (f : M result) (x : string * cmd) : Prop :=
  ∀ w, fst (f w) = Val Ok → In x (w_log (snd (f w))).

(** ** Further notions used by the statements *)

(** The channel to the device [d] under [serial] is reliable: the device is
    there and every call answers, that is, adb starts, ends in time and its
    output decodes. *)
Definition reliable (serial : string) (d : device) (w : world) : Prop :=
  w_devs w !! serial = Some d ∧ w_faults w = [].

(** The device after the commands of [cs], in order. *)
Definition dev_run (cs : list cmd) (d : device) : device :=
  fold_left (λ d c, snd (exec c d)) cs d.

(** From a world satisfying [P], [f] returns a value and a world related
    by [Q], and does not raise. *)
Definition hoare {A} (P : world → Prop) (f : M A) (Q : A → world → Prop) : Prop :=
  ∀ w, P w → ∃ a, fst (f w) = Val a ∧ Q a (snd (f w)).

(** The channel to [serial] is reliable and the device there satisfies [P]. *)
Definition on_device (serial : string) (P : device → Prop) (w : world) : Prop :=
  ∃ d, reliable serial d w ∧ P d.

(** Nothing answers under [serial]. *)
Definition unreachable (serial : string) (w : world) : Prop :=
  w_devs w !! serial = None.

(** The server [disconnect_vpn] reads from the descriptor on the device:
    the [server] key of [read_current_config], empty without one. *)
Definition configured_server (d : device) : string :=
  match d_config d with
  | Some text =>
      let out := head_config text in
      if Text.nonempty (Text.strip out)
      then default "" (Text.strip <$> Re.search_value "address:" out)
      else ""
  | None => ""
  end.

(** The device after the commands of [disconnect_vpn], all of them run. *)
Definition after_disconnect (d : device) : device :=
  let d1 := dev_run cleanup_cmds d in
  let proxy_ip := configured_server d in
  let d2 := if Text.nonempty proxy_ip
            then snd (exec (RouteDel (host_route proxy_ip)) d1) else d1 in
  snd (exec RmFiles (snd (exec KillPid d2))).

(** The device has the routes [rs], the rules [us] and, when [c] names one,
    the descriptor [c]. *)
Definition has_installed (rs : list route) (us : list rule) (c : option string)
    (d : device) : Prop :=
  (∀ r, r ∈ rs → r ∈ d_routes d)
  ∧ (∀ u, u ∈ us → u ∈ d_rules d)
  ∧ (∀ y, c = Some y → d_config d = Some y).

(** Commands that delete no route or rule and leave the descriptor alone. *)
Definition keeps_installed (c : cmd) : bool :=
  match c with
  | GetpropBoot | TestBin | ChmodBin | SysctlRpAll | SysctlRpTun | StartDaemon
  | LinkShowTunUp | LinkShowTun | ProbeDaemon _ | HeadConfig | KillAll | KillPid
  | RouteAdd _ | RuleAdd _ | RouteFlush _
  | IptablesDelJump | IptablesFlush | IptablesDelChain => true
  | RouteDel _ | RuleDel _ | LinkDelTun | WriteConfig _ | RmFiles => false
  end.

(** The commands of the boot probe and of [read_vpn_status]. *)
Definition status_cmds : list cmd :=
  [GetpropBoot; ProbeDaemon "STOPPED"; LinkShowTun; HeadConfig].

Fixpoint all_chars (p : ascii → bool) (s : string) : bool :=
  match s with
  | EmptyString => true
  | String c r => p c && all_chars p r
  end.

(** A value the single-quoted scalar of the descriptor carries as it is:
    not empty, no quote, no newline. *)
Definition clean_value (s : string) : bool :=
  Text.nonempty s && all_chars Re.not_quote_nl s.

(** The descriptor around the port and the server. *)
Definition head_text : string :=
  "tunnel:" +:+ Text.nl +:+ "  name: tun0" +:+ Text.nl +:+
  "  mtu: 1500" +:+ Text.nl +:+ "  ipv4: 198.18.0.1" +:+ Text.nl +:+
  Text.nl +:+ "socks5:" +:+ Text.nl +:+ "  port: ".

Definition mid_text : string := Text.nl +:+ "  address: '".

Definition tail_text (username password : string) : string :=
  Text.nl +:+ "  udp: 'tcp'" +:+ Text.nl +:+
  auth_lines username password +:+
  "  mark: " +:+ Text.str_of_int TUNNEL_MARK +:+ Text.nl +:+
  Text.nl +:+
  "misc:" +:+ Text.nl +:+
  "  task-stack-size: 24576" +:+ Text.nl +:+
  "  connect-timeout: 5000" +:+ Text.nl +:+
  "  read-write-timeout: 60000" +:+ Text.nl +:+
  "  log-level: warn" +:+ Text.nl +:+
  "  pid-file: " +:+ TUNNEL_PID +:+ Text.nl.

(** The rules [_cleanup_routing] deletes. *)
Definition cleaned_rules : list rule :=
  [rule_fwmark; rule_main; rule_legacy_20; rule_legacy_14000; rule_legacy_fwmark].

(** The instance has given up: more than the maximum of attempts counted. *)
Definition given_up (m : manager) (name : string) : Prop :=
  ∃ rs, _reconnect_state m !! name = Some rs
        ∧ (_RECONNECT_MAX_ATTEMPTS < attempts rs)%nat.


(** No character of [s] is a carriage return. *)
Fixpoint no_cr (s : string) : bool :=
  match s with
  | EmptyString => true
  | String c r => negb (Ascii.eqb c (ascii_of_nat 13)) && no_cr r
  end.

(** The commands whose output has no carriage return whatever the device
    holds: all but the read of the descriptor. *)
Definition plain_output (c : cmd) : bool :=
  match c with
  | HeadConfig => false
  | ProbeDaemon dead => no_cr dead
  | _ => true
  end.

(** None of the pending faults raises. *)
Definition no_raise (fs : list fault) : Prop :=
  Forall (λ f, match f with Raises _ => False | _ => True end) fs.

(** The call is a turn of the poll loop. *)
Definition is_poll (o : op) : bool :=
  match o with OpPoll _ => true | _ => false end.

(** Without a raising fault pending, [f] returns a value and leaves none
    pending. *)
Definition returns {A} (f : M A) : Prop :=
  hoare (λ w, no_raise (w_faults w)) f (λ _ w, no_raise (w_faults w)).

(** A value that also comes back as it is through the decoding of the
    output: no carriage return either. *)
Definition plain_value (s : string) : bool := clean_value s && no_cr s.

(** From a world satisfying [P], a value that [f] returns and the world
    after are related by [Q]; nothing is said when [f] raises. *)
Definition partial {A} (P : world → Prop) (f : M A) (Q : A → world → Prop) : Prop :=
  ∀ w a, P w → fst (f w) = Val a → Q a (snd (f w)).

(** The instance is out of the registries with its cached status stopped,
    and the entries of an instance are the same in two managers. *)
Definition cancelled (m : manager) (name : string) : Prop :=
  _always_on m !! name = None
  ∧ (name ∉ _kill_switch m)
  ∧ _statuses m !! name = Some {| st_state := Stopped; st_server := "" |}.

Definition untouched (m m' : manager) (name : string) : Prop :=
  _always_on m' !! name = _always_on m !! name
  ∧ (name ∈ _kill_switch m' ↔ name ∈ _kill_switch m)
  ∧ _statuses m' !! name = _statuses m !! name.

(** The host of [lab] with the resolver as CPython has it for the name
    [a..b]: [inet_aton] raises [OSError] (illegal IP address string) and
    [gethostbyname] raises [UnicodeError], a [ValueError], from the idna
    codec (label empty or too long), before any lookup. *)
Definition lab_idna (d : device) : world :=
  {| w_devs := {[ "emu" := d ]}; w_faults := []; w_log := [];
     w_clock := λ n, 100 * Z.of_nat n; w_tick := 0;
     w_local_bin := false; w_push := []; w_geo := [];
     w_inet_aton := λ h, if String.eqb h "a..b" then Some OSError else None;
     w_dns := λ h, if String.eqb h "a..b" then Raise ValueError
                   else Raise GaiError |}.

(** Three workers, the second of which takes longer than its join waits,
    and three that all hang. *)
Definition slow_batch : list worker :=
  [ {| wk_name := "A"; wk_end := Val Ok; wk_done := 5 |};
    {| wk_name := "B"; wk_end := Val Ok; wk_done := 45 |};
    {| wk_name := "C"; wk_end := Val (Failed daemon_failed_msg); wk_done := 10 |} ].

Definition hung_batch : list worker :=
  [ {| wk_name := "A"; wk_end := Val Ok; wk_done := 1000 |};
    {| wk_name := "B"; wk_end := Val Ok; wk_done := 1000 |};
    {| wk_name := "C"; wk_end := Val Ok; wk_done := 1000 |} ].

(** A rule of the system, beside those of the tunnel. *)
Definition system_rule : rule :=
  {| ru_fwmark := None; ru_lookup := "local"; ru_pref := 0 |}.

(** The device as a successful apply for 10.0.0.9 leaves it. *)
Definition tunnelled_device : device :=
  {| d_booted := true; d_bin := BinExec; d_pidfile := true; d_alive := true;
     d_tun := true;
     d_config := Some (_build_tunnel_config "10.0.0.9" 1080 "u" "p");
     d_routes := [split_high; split_low; host_route "10.0.0.9"; default_route];
     d_rules := [rule_main; rule_fwmark; system_rule];
     d_daemon_ok := true |}.

(** The world [lab] on a host that has the binary, with the outcomes [l] of
    the next pushes. *)
Definition lab_push (l : list bool) (d : device) : world :=
  {| w_devs := {[ "emu" := d ]}; w_faults := []; w_log := [];
     w_clock := λ n, 100 * Z.of_nat n; w_tick := 0;
     w_local_bin := true; w_push := l; w_geo := [];
     w_inet_aton := λ _, None; w_dns := λ _, Raise GaiError |}.

(** A manager that saw [A] boot at time 0 and has it registered always-on,
    and the same after [A] has given up. *)
Definition watching_manager : manager :=
  with_boot_ready {[ "A" := 0 ]} (set_always_on "A" (Some demo_cfg) new_manager).

Definition given_up_manager : manager :=
  with_reconnect_state {[ "A" := {| last_attempt := 0; attempts := 11 |} ]}
    watching_manager.

(** Three registered instances, two of them with the kill switch. *)
Definition fleet_manager : manager :=
  with_kill_switch {[ "A"; "C" ]}
    (set_always_on "C" (Some demo_cfg)
       (set_always_on "B" (Some demo_cfg)
          (set_always_on "A" (Some demo_cfg) new_manager))).


(** The world [lab] with a resolver that knows the name [proxy.example]. *)
Definition lab_dns (d : device) : world :=
  {| w_devs := {[ "emu" := d ]}; w_faults := []; w_log := [];
     w_clock := λ n, 100 * Z.of_nat n; w_tick := 0;
     w_local_bin := false; w_push := []; w_geo := [];
     w_inet_aton := λ _, Some OSError;
     w_dns := λ h, if String.eqb h "proxy.example" then Val "10.0.0.9"
                   else Raise GaiError |}.

(** The instance [B], whose serial no device answers to. *)
Definition gone_inst : instance := {| inst_name := "B"; inst_serial := "gone" |}.

(** * Properties *)

(** ** Descriptor builder *)

Lemma auth_lines_empty_iff username password :
  auth_lines username password = "" ↔ username = "" ∨ password = "".
Proof.
  unfold auth_lines.
  destruct username as [|a u], password as [|b p]; simpl; split;
    try (intros; auto; fail); try discriminate.
  intros [H | H]; discriminate.
Qed.

Lemma auth_lines_escaped username password :
  username ≠ "" → password ≠ "" →
  auth_lines username password =
    "  username: '" +:+ Text.replace_char Text.quote "''" username +:+ "'" +:+ Text.nl +:+
    "  password: '" +:+ Text.replace_char Text.quote "''" password +:+ "'" +:+ Text.nl.
Proof.
  intros Hu Hp. unfold auth_lines.
  destruct username; [congruence |]. destruct password; [congruence |].
  reflexivity.
Qed.

(** C7, at the failing input: for the server [a'b] the builder writes the
    address line with the quote as it came, not doubled, while the same
    quote in the user name is doubled. *)
Theorem build_tunnel_config_server_unescaped :
  let text := _build_tunnel_config "a'b" 1080 "u'v" "pw" in
  Text.contains ("  address: 'a'b'" +:+ Text.nl) text = true
  ∧ Text.contains "address: 'a''b'" text = false
  ∧ Text.contains ("  username: 'u''v'" +:+ Text.nl) text = true.
Proof. vm_compute. auto. Qed.

(** ** Reconnect policy *)







(** ** Running computations against the world *)

(** Split the next pair-returning call or boolean test of the goal. *)
Ltac mstep :=
  match goal with
  | |- context [match ?x with (_, _) => _ end] => destruct x eqn:?
  | |- context [match ?x with Val _ => _ | Raise _ => _ end] => destruct x eqn:?
  | |- context [if ?b then _ else _] => destruct b eqn:?
  end.

Ltac mrun := unfold bind, ret; repeat (mstep; unfold bind, ret); simpl.

(** The three things the next call can do. *)
Ltac faults w := destruct (w_faults w) as [|[| |?] ?]; simpl.

Lemma adb_shell_log serial c w :
  w_log (snd (adb_shell serial c w)) = (serial, c) :: w_log w.
Proof.
  unfold adb_shell.
  faults w; destruct (w_devs w !! serial); try destruct (exec c d); reflexivity.
Qed.

Lemma universal_newlines_no_cr s :
  no_cr s = true → Text.universal_newlines s = s.
Proof.
  induction s as [|c r IH]; [reflexivity |].
  cbn [no_cr Text.universal_newlines]. intros [Hc Hr]%andb_prop.
  apply negb_true_iff in Hc. rewrite Hc, (IH Hr). reflexivity.
Qed.

Lemma universal_newlines_app s t :
  no_cr s = true →
  Text.universal_newlines (s +:+ t) = s +:+ Text.universal_newlines t.
Proof.
  induction s as [|c r IH]; [reflexivity |].
  cbn [no_cr]. intros [Hc Hr]%andb_prop. apply negb_true_iff in Hc.
  change (String c r +:+ t) with (String c (r +:+ t)).
  change (String c r +:+ Text.universal_newlines t)
    with (String c (r +:+ Text.universal_newlines t)).
  cbn [Text.universal_newlines]. rewrite Hc, (IH Hr). reflexivity.
Qed.

Lemma as_text_plain c d :
  plain_output c = true → as_text (fst (exec c d)) = fst (exec c d).
Proof.
  intros Hc.
  assert (H : no_cr (stdout (fst (exec c d))) = true
              ∧ no_cr (stderr (fst (exec c d))) = true).
  { destruct c; try discriminate Hc; cbn [exec fst];
      repeat match goal with
             | |- context [if ?b then _ else _] => destruct b
             | |- context [match d_bin d with _ => _ end] => destruct (d_bin d)
             end; cbn [fst stdout stderr done_ok done_fail];
      try (split; reflexivity).
    all: cbn [plain_output] in Hc; split; [| reflexivity].
    all: induction dead as [|a r IH]; [reflexivity |];
      cbn [no_cr] in Hc |- *; apply andb_prop in Hc as [Ha Hr];
      change (String a r +:+ Text.nl) with (String a (r +:+ Text.nl));
      cbn [no_cr]; rewrite Ha, (IH Hr); reflexivity. }
  destruct H as [Ho He]. unfold as_text.
  rewrite (universal_newlines_no_cr _ Ho), (universal_newlines_no_cr _ He).
  destruct (fst (exec c d)); reflexivity.
Qed.

(** On a reliable channel a command runs on the device it names. *)
Lemma adb_shell_quiet serial c w d :
  w_devs w !! serial = Some d → w_faults w = [] →
  ∃ w', adb_shell serial c w = (Val (as_text (fst (exec c d))), w')
        ∧ w_devs w' !! serial = Some (snd (exec c d))
        ∧ w_faults w' = [].
Proof.
  intros Hd Hf. unfold adb_shell. rewrite Hf, Hd. simpl.
  destruct (exec c d) as [cp d']. eexists. split; [reflexivity |].
  simpl. split; [apply lookup_insert_eq | reflexivity].
Qed.

Lemma no_raise_tail fs : no_raise fs → no_raise (tail fs).
Proof. destruct fs; [auto |]. intros H. inversion H; assumption. Qed.

(** Without a raising fault a command returns, and none is pending after. *)
Lemma adb_shell_returns serial c w :
  no_raise (w_faults w) →
  ∃ cp, fst (adb_shell serial c w) = Val cp
        ∧ no_raise (w_faults (snd (adb_shell serial c w))).
Proof.
  intros Hn. unfold adb_shell.
  destruct (w_faults w) as [|[| |e] fs] eqn:Hf.
  - destruct (w_devs w !! serial); [destruct (exec c d) |]; eexists;
      (split; [reflexivity | simpl; constructor]).
  - inversion Hn; subst.
    destruct (w_devs w !! serial); [destruct (exec c d) |]; eexists;
      (split; [reflexivity | simpl; assumption]).
  - inversion Hn; subst. eexists. split; [reflexivity | simpl; assumption].
  - inversion Hn; subst. contradiction.
Qed.

(** ** What the poll loop leaves alone *)

Lemma apply_proxy_registries name serial server port username password m w :
  let m' := snd (fst (apply_proxy name serial server port username password m w)) in
  _always_on m' = _always_on m
  ∧ _kill_switch m' = _kill_switch m
  ∧ _reconnect_state m' = _reconnect_state m
  ∧ ∀ n, count_reconnects n (events m') = count_reconnects n (events m).
Proof.
  unfold apply_proxy.
  destruct (write_proxy_config _ _ _ _ _ w) as [[res|e] w1];
    [destruct (result_ok res) |]; simpl; auto.
Qed.

Lemma reconnect_branch_always_on inst cfg m w :
  _always_on (fst (reconnect_branch inst cfg m w)) = _always_on m.
Proof.
  unfold reconnect_branch.
  destruct (time_time w) as [now w1].
  destruct (reconnect_decide _ now) as [[] rs']; try reflexivity.
  match goal with |- context [apply_proxy ?a ?b ?c ?d ?e ?f ?g ?h] =>
    pose proof (apply_proxy_registries a b c d e f g h) as (Ha & _);
    destruct (apply_proxy a b c d e f g h) as [[[res|err] m2] w2] end;
    simpl in Ha; [| exact Ha].
  destruct (result_ok res); [| exact Ha].
  destruct (bool_decide _); [destruct (enable_kill_switch _ w2) |]; exact Ha.
Qed.

Lemma reconnect_branch_other inst cfg m w name :
  inst_name inst ≠ name →
  count_reconnects name (events (fst (reconnect_branch inst cfg m w)))
    = count_reconnects name (events m).
Proof.
  intros Hne. apply String.eqb_neq in Hne.
  unfold reconnect_branch.
  destruct (time_time w) as [now w1].
  destruct (reconnect_decide _ now) as [[] rs']; try reflexivity.
  match goal with |- context [apply_proxy ?a ?b ?c ?d ?e ?f ?g ?h] =>
    pose proof (apply_proxy_registries a b c d e f g h) as (_ & _ & _ & Hc);
    destruct (apply_proxy a b c d e f g h) as [[[res|err] m2] w2] end;
    simpl in Hc; specialize (Hc name); simpl in Hc; rewrite Hne in Hc;
    [| exact Hc].
  destruct (result_ok res); [| exact Hc].
  destruct (bool_decide _); [destruct (enable_kill_switch _ w2) |]; exact Hc.
Qed.

Lemma poll_instance_always_on inst m w :
  _always_on (fst (poll_instance inst m w)) = _always_on m.
Proof.
  unfold poll_instance.
  destruct (adb_shell _ GetpropBoot w) as [[boot_cp|e] w1]; [| reflexivity].
  destruct (_ || _); [reflexivity |].
  destruct (_boot_ready m !! inst_name inst) as [t0|];
    destruct (time_time w1) as [t w2]; [| reflexivity].
  destruct (_ <? 30); [reflexivity |].
  destruct (read_vpn_status _ w2) as [[st|e] w3]; [| reflexivity].
  destruct (bool_decide (_statuses m !! inst_name inst ≠ Some st)); simpl;
    destruct (st_state st); try reflexivity;
    destruct (_always_on m !! inst_name inst); try reflexivity;
    rewrite reconnect_branch_always_on; reflexivity.
Qed.

Lemma poll_instance_no_reconnect inst m w name :
  _always_on m !! name = None →
  count_reconnects name (events (fst (poll_instance inst m w)))
    = count_reconnects name (events m).
Proof.
  intros Hoff. unfold poll_instance.
  destruct (adb_shell _ GetpropBoot w) as [[boot_cp|e] w1]; [| reflexivity].
  destruct (_ || _); [reflexivity |].
  destruct (_boot_ready m !! inst_name inst) as [t0|];
    destruct (time_time w1) as [t w2]; [| reflexivity].
  destruct (_ <? 30); [reflexivity |].
  destruct (read_vpn_status _ w2) as [[st|e] w3]; [| reflexivity].
  destruct (bool_decide (_statuses m !! inst_name inst ≠ Some st)); simpl;
    destruct (st_state st); try reflexivity;
    destruct (_always_on m !! inst_name inst) eqn:Hon; try reflexivity;
    (rewrite reconnect_branch_other; [reflexivity | congruence]).
Qed.

Lemma poll_cycle_no_reconnect instances m w name :
  _always_on m !! name = None →
  _always_on (fst (poll_cycle instances m w)) = _always_on m
  ∧ count_reconnects name (events (fst (poll_cycle instances m w)))
      = count_reconnects name (events m).
Proof.
  revert m w. induction instances as [|inst rest IH]; intros m w Hoff; simpl.
  - auto.
  - pose proof (poll_instance_always_on inst m w) as Ha.
    pose proof (poll_instance_no_reconnect inst m w name Hoff) as Hc.
    destruct (poll_instance inst m w) as [m1 w1]. simpl in Ha, Hc.
    destruct (IH m1 w1) as [Ha' Hc']; [congruence |].
    split; congruence.
Qed.

Lemma poll_loop_no_reconnect n instances m w name :
  _always_on m !! name = None →
  _always_on (fst (_poll_loop n instances m w)) = _always_on m
  ∧ count_reconnects name (events (fst (_poll_loop n instances m w)))
      = count_reconnects name (events m).
Proof.
  revert m w. induction n as [|n IH]; intros m w Hoff; simpl.
  - auto.
  - destruct (poll_cycle_no_reconnect instances m w name Hoff) as [Ha Hc].
    destruct (poll_cycle instances m w) as [m1 w1]. simpl in Ha, Hc.
    destruct (IH m1 w1) as [Ha' Hc']; [congruence |].
    split; congruence.
Qed.

(** What [disconnect] does to the manager when it returns, and when
    [disconnect_vpn] raises. *)
Lemma disconnect_registries name serial m w r :
  fst (fst (disconnect name serial m w)) = Val r →
  let m' := snd (fst (disconnect name serial m w)) in
  _always_on m' = delete name (_always_on m)
  ∧ _kill_switch m' = _kill_switch m ∖ {[name]}
  ∧ _statuses m' = <[name := {| st_state := Stopped; st_server := "" |}]> (_statuses m)
  ∧ _reconnect_state m' = _reconnect_state m.
Proof.
  unfold disconnect.
  destruct (disconnect_vpn serial w) as [[res|e] w1]; [| discriminate].
  intros _.
  destruct (bool_decide (name ∈ _kill_switch m)) eqn:Hks.
  - destruct (disable_kill_switch serial w1) as [u w2]. simpl. auto.
  - simpl. apply bool_decide_eq_false in Hks.
    repeat split; auto.
    symmetry. apply difference_disjoint_L, disjoint_singleton_r. exact Hks.
Qed.

Lemma disconnect_raised name serial m w e :
  fst (fst (disconnect name serial m w)) = Raise e →
  snd (fst (disconnect name serial m w)) = m.
Proof.
  unfold disconnect.
  destruct (disconnect_vpn serial w) as [[res|e'] w1]; [| reflexivity].
  destruct (bool_decide _); [destruct (disable_kill_switch serial w1) |];
    discriminate.
Qed.

Lemma disconnect_events name serial m w n :
  count_reconnects n (events (snd (fst (disconnect name serial m w))))
    = count_reconnects n (events m).
Proof.
  unfold disconnect.
  destruct (disconnect_vpn serial w) as [[res|e] w1]; [| reflexivity].
  destruct (bool_decide _); [destruct (disable_kill_switch serial w1) |];
    reflexivity.
Qed.

(** Whether it returns or raises, [disconnect] registers nothing. *)
Lemma disconnect_off name serial m w other :
  _always_on m !! other = None →
  _always_on (snd (fst (disconnect name serial m w))) !! other = None.
Proof.
  intros Hoff.
  destruct (fst (fst (disconnect name serial m w))) as [r|e] eqn:E.
  - destruct (disconnect_registries name serial m w r E) as (Ha & _).
    rewrite Ha.
    destruct (decide (name = other)) as [-> | Hne];
      [apply lookup_delete_eq | rewrite lookup_delete_ne by exact Hne; exact Hoff].
  - rewrite (disconnect_raised name serial m w e E). exact Hoff.
Qed.

Lemma disconnect_all_from_off instances results m w name :
  _always_on m !! name = None →
  _always_on (snd (fst (disconnect_all_from instances results m w))) !! name = None
  ∧ count_reconnects name
      (events (snd (fst (disconnect_all_from instances results m w))))
    = count_reconnects name (events m).
Proof.
  revert results m w.
  induction instances as [|inst rest IH]; intros results m w Hoff; simpl.
  - auto.
  - pose proof (disconnect_off (inst_name inst) (inst_serial inst) m w name Hoff)
      as Ha.
    pose proof (disconnect_events (inst_name inst) (inst_serial inst) m w name)
      as Hc.
    destruct (disconnect (inst_name inst) (inst_serial inst) m w)
      as [[[res|e] m1] w1]; simpl in Ha, Hc.
    + destruct (IH (<[inst_name inst := res]> results) m1 w1 Ha) as [Ha' Hc'].
      split; congruence.
    + simpl. auto.
Qed.

Lemma refresh_status_registries name serial m w :
  let m' := fst (refresh_status name serial m w) in
  _always_on m' = _always_on m
  ∧ _kill_switch m' = _kill_switch m
  ∧ _reconnect_state m' = _reconnect_state m
  ∧ ∀ n, count_reconnects n (events m') = count_reconnects n (events m).
Proof.
  unfold refresh_status.
  destruct (read_vpn_status serial w) as [[st|e] w1]; simpl; auto.
Qed.

Lemma run_op_no_reconnect o m w name :
  registers name o = false →
  _always_on m !! name = None →
  _always_on (fst (run_op o m w)) !! name = None
  ∧ count_reconnects name (events (fst (run_op o m w)))
      = count_reconnects name (events m).
Proof.
  intros Hreg Hoff.
  destruct o as [instances | n s srv p u pw | n s | instances | n cfg | n s en | n s];
    simpl.
  - destruct (poll_cycle_no_reconnect instances m w name Hoff) as [Ha Hc].
    rewrite Ha. auto.
  - pose proof (apply_proxy_registries n s srv p u pw m w) as (Ha & _ & _ & Hc).
    destruct (apply_proxy n s srv p u pw m w) as [[res m1] w1]. simpl in *.
    rewrite Ha. auto.
  - pose proof (disconnect_off n s m w name Hoff) as Ha.
    pose proof (disconnect_events n s m w name) as Hc.
    destruct (disconnect n s m w) as [[res m1] w1]. simpl in *. auto.
  - pose proof (disconnect_all_from_off instances ∅ m w name Hoff) as [Ha Hc].
    unfold disconnect_all.
    destruct (disconnect_all_from instances ∅ m w) as [[res m1] w1]. simpl in *.
    auto.
  - destruct cfg as [c|]; simpl in *.
    + apply String.eqb_neq in Hreg.
      rewrite lookup_insert_ne by exact Hreg. auto.
    + split; [| reflexivity].
      destruct (decide (n = name)) as [-> | Hne];
        [apply lookup_delete_eq | rewrite lookup_delete_ne by exact Hne; exact Hoff].
  - unfold set_kill_switch.
    destruct en; [destruct (enable_kill_switch s w) |
                  destruct (disable_kill_switch s w)]; simpl; auto.
  - pose proof (refresh_status_registries n s m w) as (Ha & _ & _ & Hc).
    destruct (refresh_status n s m w) as [m1 w1]. simpl in *.
    rewrite Ha. auto.
Qed.

Lemma run_ops_no_reconnect os m w name :
  Forall (λ o, registers name o = false) os →
  _always_on m !! name = None →
  _always_on (fst (run_ops os m w)) !! name = None
  ∧ count_reconnects name (events (fst (run_ops os m w)))
      = count_reconnects name (events m).
Proof.
  intros Hos. revert m w.
  induction Hos as [|o os Ho _ IH]; intros m w Hoff; simpl.
  - auto.
  - destruct (run_op_no_reconnect o m w name Ho Hoff) as [Ha Hc].
    destruct (run_op o m w) as [m1 w1]. simpl in Ha, Hc.
    destruct (IH m1 w1 Ha) as [Ha' Hc'].
    split; congruence.
Qed.

(** C2: once [disconnect] has returned, the instance is in neither the
    always-on registry nor the kill-switch set and its cached status is
    [stopped]; and through any later calls of the manager and poll cycles,
    over whatever instances and whatever the devices report, as long as
    none of the calls registers always-on for it again, the registry stays
    without it and the log gains no reconnect attempt for it. *)
Theorem disconnect_cancels_always_on
    (name serial : string) (m : manager) (w : world) (os : list op) (r : result) :
  fst (fst (disconnect name serial m w)) = Val r →
  Forall (λ o, registers name o = false) os →
  let m1 := snd (fst (disconnect name serial m w)) in
  let w1 := snd (disconnect name serial m w) in
  let m2 := fst (run_ops os m1 w1) in
  _always_on m1 !! name = None
  ∧ (name ∉ _kill_switch m1)
  ∧ _statuses m1 !! name = Some {| st_state := Stopped; st_server := "" |}
  ∧ _always_on m2 !! name = None
  ∧ count_reconnects name (events m2) = count_reconnects name (events m1).
Proof.
  intros Hret Hos m1 w1 m2.
  destruct (disconnect_registries name serial m w r Hret) as (Ha & Hk & Hs & _).
  fold m1 in Ha, Hk, Hs.
  assert (Hoff : _always_on m1 !! name = None)
    by (rewrite Ha; apply lookup_delete_eq).
  destruct (run_ops_no_reconnect os m1 w1 name Hos Hoff) as [Ha2 Hc2].
  fold m2 in Ha2, Hc2.
  repeat split; auto.
  - rewrite Hk. intros [_ Hn]%elem_of_difference.
    apply Hn, elem_of_singleton. reflexivity.
  - rewrite Hs. apply lookup_insert_eq.
Qed.

(** ** Life cycle of the reconnect state *)

Lemma reconnect_branch_entries inst cfg m w name :
  name ≠ inst_name inst →
  _reconnect_state (fst (reconnect_branch inst cfg m w)) !! name
    = _reconnect_state m !! name.
Proof.
  intros Hne. unfold reconnect_branch.
  destruct (time_time w) as [now w1].
  destruct (reconnect_decide _ now) as [[] rs']; simpl;
    try reflexivity; try (rewrite lookup_insert_ne; [reflexivity | congruence]).
  match goal with |- context [apply_proxy ?a ?b ?c ?d ?e ?f ?g ?h] =>
    pose proof (apply_proxy_registries a b c d e f g h) as (_ & _ & Hr & _);
    destruct (apply_proxy a b c d e f g h) as [[[res|err] m2] w2] end;
    simpl in Hr.
  - destruct (result_ok res).
    + destruct (bool_decide _); simpl;
        rewrite lookup_insert_ne, Hr, lookup_insert_ne by congruence; reflexivity.
    + simpl. rewrite Hr, lookup_insert_ne by congruence. reflexivity.
  - simpl. rewrite Hr, lookup_insert_ne by congruence. reflexivity.
Qed.

Lemma reconnect_branch_success inst cfg m w :
  fst (reconnect_decide
         (default reconnect_zero (_reconnect_state m !! inst_name inst))
         (fst (time_time w))) = Attempt →
  fst (write_proxy_config (inst_serial inst) (pc_server cfg) (pc_port cfg)
         (pc_username cfg) (pc_password cfg) (snd (time_time w))) = Val Ok →
  _reconnect_state (fst (reconnect_branch inst cfg m w)) !! inst_name inst
    = Some reconnect_zero.
Proof.
  unfold reconnect_branch.
  destruct (time_time w) as [now w1]. simpl.
  destruct (reconnect_decide _ now) as [d rs']. simpl. intros -> Hok.
  unfold apply_proxy.
  destruct (write_proxy_config _ _ _ _ _ w1) as [res w2]. simpl in Hok.
  subst res. simpl.
  destruct (bool_decide _); simpl; apply lookup_insert_eq.
Qed.

(** Unless a reconnect succeeds, the state the branch leaves for the next
    reading is the one [reconnect_decide] returns. *)
Lemma reconnect_branch_follows_decide inst cfg m w :
  fst (write_proxy_config (inst_serial inst) (pc_server cfg) (pc_port cfg)
         (pc_username cfg) (pc_password cfg) (snd (time_time w))) ≠ Val Ok →
  default reconnect_zero
    (_reconnect_state (fst (reconnect_branch inst cfg m w)) !! inst_name inst)
  = snd (reconnect_decide
           (default reconnect_zero (_reconnect_state m !! inst_name inst))
           (fst (time_time w))).
Proof.
  unfold reconnect_branch.
  destruct (time_time w) as [now w1]. simpl. intros Hfail.
  set (rs := default reconnect_zero (_reconnect_state m !! inst_name inst)).
  assert (Hsame : fst (reconnect_decide rs now) = GiveUpSilent
                  ∨ fst (reconnect_decide rs now) = Wait →
                  snd (reconnect_decide rs now) = rs).
  { unfold reconnect_decide.
    destruct (_ <=? attempts rs)%nat;
      [destruct (_ =? _)%nat | destruct (_ <=? _)]; simpl;
      intros [H | H]; try discriminate H; reflexivity. }
  destruct (reconnect_decide rs now) as [[] rs'] eqn:Hd; simpl in *.
  - rewrite lookup_insert_eq. reflexivity.
  - rewrite Hsame by auto. reflexivity.
  - unfold apply_proxy.
    destruct (write_proxy_config _ _ _ _ _ w1) as [[[|msg]|err] w2];
      simpl in Hfail; [contradiction | |]; simpl;
      rewrite lookup_insert_eq; reflexivity.
  - rewrite Hsame by auto. reflexivity.
Qed.

Lemma poll_instance_entries inst m w name :
  name ≠ inst_name inst →
  _reconnect_state (fst (poll_instance inst m w)) !! name
    = _reconnect_state m !! name.
Proof.
  intros Hne. unfold poll_instance.
  destruct (adb_shell _ GetpropBoot w) as [[boot_cp|e] w1]; [| reflexivity].
  destruct (_ || _); [reflexivity |].
  destruct (_boot_ready m !! inst_name inst) as [t0|];
    destruct (time_time w1) as [t w2]; [| reflexivity].
  destruct (_ <? 30); [reflexivity |].
  destruct (read_vpn_status _ w2) as [[st|e] w3]; [| reflexivity].
  destruct (bool_decide (_statuses m !! inst_name inst ≠ Some st)); simpl;
    destruct (st_state st); simpl;
    try reflexivity;
    try (rewrite lookup_delete_ne by congruence; reflexivity);
    destruct (_always_on m !! inst_name inst); try reflexivity;
    rewrite reconnect_branch_entries by assumption; reflexivity.
Qed.

Lemma poll_instance_unregistered inst m w :
  _always_on m !! inst_name inst = None →
  _reconnect_state (fst (poll_instance inst m w)) !! inst_name inst
    = _reconnect_state m !! inst_name inst
  ∨ _reconnect_state (fst (poll_instance inst m w)) !! inst_name inst = None.
Proof.
  intros Hoff. unfold poll_instance.
  destruct (adb_shell _ GetpropBoot w) as [[boot_cp|e] w1]; [| left; reflexivity].
  destruct (_ || _); [left; reflexivity |].
  destruct (_boot_ready m !! inst_name inst) as [t0|];
    destruct (time_time w1) as [t w2]; [| left; reflexivity].
  destruct (_ <? 30); [left; reflexivity |].
  destruct (read_vpn_status _ w2) as [[st|e] w3]; [| left; reflexivity].
  destruct (bool_decide (_statuses m !! inst_name inst ≠ Some st)); simpl;
    rewrite Hoff; destruct (st_state st); simpl;
    try (left; reflexivity); right; apply lookup_delete_eq.
Qed.

Lemma poll_cycle_entries instances m w name :
  name ∉ (inst_name <$> instances) →
  _reconnect_state (fst (poll_cycle instances m w)) !! name
    = _reconnect_state m !! name.
Proof.
  revert m w. induction instances as [|inst rest IH]; intros m w Hout; simpl.
  - reflexivity.
  - cbn [fmap list_fmap] in Hout. apply not_elem_of_cons in Hout as [Hne Hout].
    pose proof (poll_instance_entries inst m w name Hne) as H1.
    destruct (poll_instance inst m w) as [m1 w1]. simpl in H1.
    rewrite (IH m1 w1 Hout). exact H1.
Qed.

Lemma disconnect_all_from_state instances results m w :
  _reconnect_state (snd (fst (disconnect_all_from instances results m w)))
    = _reconnect_state m.
Proof.
  revert results m w.
  induction instances as [|inst rest IH]; intros results m w; simpl.
  - reflexivity.
  - destruct (fst (fst (disconnect (inst_name inst) (inst_serial inst) m w)))
      as [r|e] eqn:E.
    + destruct (disconnect_registries _ _ m w r E) as (_ & _ & _ & Hr).
      destruct (disconnect (inst_name inst) (inst_serial inst) m w)
        as [[res m1] w1]. simpl in E, Hr. subst res.
      rewrite IH. exact Hr.
    + pose proof (disconnect_raised _ _ m w e E) as Hm.
      destruct (disconnect (inst_name inst) (inst_serial inst) m w)
        as [[res m1] w1]. simpl in E, Hm. subst res m1. reflexivity.
Qed.

(** No call of the manager other than a turn of the poll loop touches the
    reconnect states. *)
Lemma run_op_reconnect_state o m w :
  is_poll o = false →
  _reconnect_state (fst (run_op o m w)) = _reconnect_state m.
Proof.
  destruct o as [instances | n s srv p u pw | n s | instances | n cfg | n s en | n s];
    simpl; intros Hp; try discriminate Hp.
  - pose proof (apply_proxy_registries n s srv p u pw m w) as (_ & _ & Hr & _).
    destruct (apply_proxy n s srv p u pw m w) as [[res m1] w1]. exact Hr.
  - destruct (fst (fst (disconnect n s m w))) as [r|e] eqn:E.
    + destruct (disconnect_registries n s m w r E) as (_ & _ & _ & Hr).
      destruct (disconnect n s m w) as [[res m1] w1]. exact Hr.
    + pose proof (disconnect_raised n s m w e E) as Hm.
      destruct (disconnect n s m w) as [[res m1] w1]. simpl in Hm. subst m1.
      reflexivity.
  - pose proof (disconnect_all_from_state instances ∅ m w) as Hr.
    unfold disconnect_all.
    destruct (disconnect_all_from instances ∅ m w) as [[res m1] w1]. exact Hr.
  - destruct cfg; reflexivity.
  - unfold set_kill_switch.
    destruct en; [destruct (enable_kill_switch s w) |
                  destruct (disable_kill_switch s w)]; reflexivity.
  - pose proof (refresh_status_registries n s m w) as (_ & _ & Hr & _).
    destruct (refresh_status n s m w) as [m1 w1]. exact Hr.
Qed.

(** C5, the claim refuted: after a failed reconnect attempt for [A] its entry
    counts one attempt; disabling always-on, by [set_always_on] or by
    [disconnect], leaves that entry behind without a registration, and
    registering again does not reset it. *)
Lemma reconnect_state_outlives_registration :
  let m := fst after_failed_reconnect in
  let w := snd after_failed_reconnect in
  _reconnect_state m !! "A" = Some {| last_attempt := 200; attempts := 1 |}
  ∧ ¬ reconnect_registered (set_always_on "A" None m)
  ∧ ¬ reconnect_registered (snd (fst (disconnect "A" "emu" m w)))
  ∧ _reconnect_state (set_always_on "A" (Some demo_cfg) m) !! "A"
      ≠ Some reconnect_zero.
Proof.
  assert (Hm : _reconnect_state (fst after_failed_reconnect) !! "A"
               = Some {| last_attempt := 200; attempts := 1 |})
    by (vm_compute; reflexivity).
  cbv zeta. split; [exact Hm |]. split; [| split].
  - intros H. destruct (H "A") as [c Hc].
    + simpl. rewrite Hm. eauto.
    + simpl in Hc. rewrite lookup_delete_eq in Hc. discriminate.
  - intros H.
    destruct (disconnect_registries "A" "emu" (fst after_failed_reconnect)
                (snd after_failed_reconnect) Ok) as (Ha & _ & _ & Hr);
      [vm_compute; reflexivity |].
    destruct (H "A") as [c Hc].
    + rewrite Hr, Hm. eauto.
    + rewrite Ha, lookup_delete_eq in Hc. discriminate.
  - simpl. rewrite Hm. discriminate.
Qed.

(** C5 as amended: no call of the manager other than a turn of the poll
    loop ([apply_proxy], [disconnect], [disconnect_all], [set_always_on],
    [set_kill_switch], [refresh_status]) changes the reconnect-state map,
    whether the call returns or raises; a poll cycle leaves the entries of
    the instances it does not poll as they are, and one pass over an
    instance that is not registered can only keep or drop that instance's
    entry; a reconnect attempt that succeeds stores [{0, 0}]. *)
Theorem reconnect_state_life_cycle
    (inst : instance) (cfg : proxy_config) (o : op) (instances : list instance)
    (name : string) (m : manager) (w : world) :
  (is_poll o = false →
   _reconnect_state (fst (run_op o m w)) = _reconnect_state m)
  ∧ (name ∉ (inst_name <$> instances) →
     _reconnect_state (fst (poll_cycle instances m w)) !! name
       = _reconnect_state m !! name)
  ∧ (_always_on m !! inst_name inst = None →
     _reconnect_state (fst (poll_instance inst m w)) !! inst_name inst
       = _reconnect_state m !! inst_name inst
     ∨ _reconnect_state (fst (poll_instance inst m w)) !! inst_name inst = None)
  ∧ (fst (reconnect_decide
            (default reconnect_zero (_reconnect_state m !! inst_name inst))
            (fst (time_time w))) = Attempt →
     fst (write_proxy_config (inst_serial inst) (pc_server cfg) (pc_port cfg)
            (pc_username cfg) (pc_password cfg) (snd (time_time w))) = Val Ok →
     _reconnect_state (fst (reconnect_branch inst cfg m w)) !! inst_name inst
       = Some reconnect_zero).
Proof.
  split; [apply run_op_reconnect_state |].
  split; [apply poll_cycle_entries |].
  split; [apply poll_instance_unregistered | apply reconnect_branch_success].
Qed.

(** ** The commands an apply sends *)

Section SendsOnly.

Variable P : cmd → Prop.

Lemma sends_only_ret {A} (a : A) : sends_only P (ret a).
Proof. intros w. exists []. split; [reflexivity | constructor]. Qed.

Lemma sends_only_bind {A B} (m : M A) (k : A → M B) :
  sends_only P m → (∀ a, sends_only P (k a)) → sends_only P (bind m k).
Proof.
  intros Hm Hk w. unfold bind.
  destruct (Hm w) as (l1 & H1 & F1). destruct (m w) as [[a|e] w1]; simpl in H1.
  - destruct (Hk a w1) as (l2 & H2 & F2). exists (l2 ++ l1). split.
    + rewrite H2, H1. apply app_assoc.
    + apply Forall_app. split; assumption.
  - exists l1. split; assumption.
Qed.

Lemma sends_only_try_except {A} (m : M A) caught (h : M A) :
  sends_only P m → sends_only P h → sends_only P (try_except m caught h).
Proof.
  intros Hm Hh w. unfold try_except.
  destruct (Hm w) as (l1 & H1 & F1). destruct (m w) as [[a|e] w1]; simpl in H1.
  - exists l1. split; assumption.
  - destruct (caught e); [| exists l1; split; assumption].
    destruct (Hh w1) as (l2 & H2 & F2). exists (l2 ++ l1). split.
    + rewrite H2, H1. apply app_assoc.
    + apply Forall_app. split; assumption.
Qed.

Lemma sends_only_inet_aton hostname : sends_only P (inet_aton hostname).
Proof.
  intros w. exists []. split; [| constructor]. unfold inet_aton.
  destruct (w_inet_aton w hostname); reflexivity.
Qed.

Lemma sends_only_gethostbyname hostname : sends_only P (gethostbyname hostname).
Proof. intros w. exists []. split; [reflexivity | constructor]. Qed.

Lemma sends_only_isfile_local : sends_only P isfile_local.
Proof. intros w. exists []. split; [reflexivity | constructor]. Qed.

Lemma sends_only_adb_shell serial c : P c → sends_only P (adb_shell serial c).
Proof.
  intros Hc w. exists [(serial, c)]. split; [apply adb_shell_log |].
  constructor; [exact Hc | constructor].
Qed.

Lemma sends_only_adb_push serial : sends_only P (adb_push serial).
Proof.
  intros w. exists []. split; [| constructor]. unfold adb_push.
  destruct (w_push w) as [|[] l]; reflexivity.
Qed.

Lemma sends_only_patch_geo serial : sends_only P (patch_geo serial).
Proof.
  intros w. exists []. split; [| constructor]. unfold patch_geo.
  destruct (w_geo w); reflexivity.
Qed.

Lemma sends_only_resolve hostname : sends_only P (_resolve_host hostname).
Proof.
  unfold _resolve_host.
  apply sends_only_try_except;
    [apply sends_only_bind;
       [apply sends_only_inet_aton | intros _; apply sends_only_ret] |].
  apply sends_only_try_except;
    [apply sends_only_gethostbyname | apply sends_only_ret].
Qed.

Lemma sends_only_run_all serial cs :
  Forall P cs → sends_only P (run_all serial cs).
Proof.
  induction 1 as [|c cs Hc _ IH]; simpl.
  - apply sends_only_ret.
  - apply sends_only_bind; [apply sends_only_adb_shell, Hc | intros _; exact IH].
Qed.

Lemma sends_only_push_loop n serial : sends_only P (push_loop n serial).
Proof.
  induction n as [|n IH]; simpl; [apply sends_only_ret |].
  apply sends_only_bind; [apply sends_only_adb_push |].
  intros []; [apply sends_only_ret | exact IH].
Qed.

Lemma sends_only_wait_tun0 n serial :
  P LinkShowTunUp → sends_only P (wait_tun0 n serial).
Proof.
  intros Hc. induction n as [|n IH]; simpl; [apply sends_only_ret |].
  apply sends_only_bind; [apply sends_only_adb_shell, Hc |].
  intros cp. destruct (Text.contains _ _); [apply sends_only_ret | exact IH].
Qed.

Lemma sends_only_geo_loop n serial : sends_only P (geo_loop n serial).
Proof.
  induction n as [|n IH]; simpl; [apply sends_only_ret |].
  apply sends_only_bind; [apply sends_only_patch_geo |].
  intros []; [apply sends_only_ret | exact IH].
Qed.

End SendsOnly.

(** Decompose a [sends_only] goal along binds and conditionals; what is left
    about single commands is closed by computation. *)
Ltac sends :=
  repeat first
    [ apply sends_only_bind; [| intros ?]
    | match goal with |- sends_only _ (if ?b then _ else _) => destruct b end
    | apply sends_only_ret
    | apply sends_only_isfile_local
    | apply sends_only_adb_shell
    | apply sends_only_adb_push
    | apply sends_only_patch_geo
    | apply sends_only_resolve
    | apply sends_only_push_loop
    | apply sends_only_geo_loop
    | apply sends_only_wait_tun0
    | apply sends_only_run_all
    | exact I
    | reflexivity
    | solve [repeat constructor] ].

Lemma sends_only_ensure_binary P serial :
  P TestBin → P ChmodBin → sends_only P (_ensure_binary serial).
Proof. intros H1 H2. unfold _ensure_binary. sends; assumption. Qed.

(** No apply ever asks the device to delete a route through the gateway. *)
Lemma write_proxy_config_never_deletes_host_route
    serial server port username password :
  sends_only (λ c, deletes_gateway_route c = false)
    (write_proxy_config serial server port username password).
Proof.
  unfold write_proxy_config, _cleanup_routing.
  apply sends_only_bind; [apply sends_only_resolve | intros server_ip].
  apply sends_only_bind;
    [apply sends_only_ensure_binary; reflexivity | intros have_bin].
  sends.
Qed.

Lemma sent_bind_later {A} (m : M A) (k : A → M result) x :
  (∀ a, sent_if_ok (k a) x) → sent_if_ok (bind m k) x.
Proof.
  intros Hk w. unfold bind.
  destruct (m w) as [[a|e] w1]; [apply Hk | discriminate].
Qed.

Lemma sent_bind_now serial c (k : completed → M result) :
  (∀ cp, sends_only (λ _, True) (k cp)) →
  sent_if_ok (bind (adb_shell serial c) k) (serial, c).
Proof.
  intros Hk w _. unfold bind.
  pose proof (adb_shell_log serial c w) as Hl.
  destruct (adb_shell serial c w) as [[cp|e] w1]; simpl in Hl.
  - destruct (Hk cp w1) as (l & -> & _). rewrite Hl.
    apply in_or_app. right. left. reflexivity.
  - simpl. rewrite Hl. left. reflexivity.
Qed.

Lemma sent_failed msg x : sent_if_ok (ret (Failed msg)) x.
Proof. intros w H. discriminate H. Qed.

(** The only failures an apply reports: none of them is about resolving
    the server name. *)
Lemma bind_val {A B} (m : M A) (k : A → M B) w b :
  fst (bind m k w) = Val b →
  ∃ a, fst (m w) = Val a ∧ fst (k a (snd (m w))) = Val b.
Proof.
  unfold bind. destruct (m w) as [[a|e] w1]; [eauto | discriminate].
Qed.

Lemma write_proxy_config_results serial server port username password w res :
  fst (write_proxy_config serial server port username password w) = Val res →
  res = Ok
  ∨ res = Failed "Failed to push tunnel binary to device"
  ∨ (∃ e, res = Failed ("Failed to write config: " +:+ e))
  ∨ res = Failed daemon_failed_msg.
Proof.
  unfold write_proxy_config. intros H.
  repeat match type of H with
         | fst (bind _ _ _) = Val _ =>
             apply bind_val in H as (? & _ & H)
         | fst ((if ?b then _ else _) _) = Val _ => destruct b
         end;
    cbn [ret fst] in H; injection H as <-; eauto.
Qed.

(** Resolving a name leaves the world as it is. *)
Lemma resolve_host_world hostname w : snd (_resolve_host hostname w) = w.
Proof.
  unfold _resolve_host, try_except, bind, inet_aton, gethostbyname, ret.
  destruct (w_inet_aton w hostname) as [e|]; [| reflexivity]. cbn [fst snd].
  destruct (is_OSError e); [| reflexivity].
  destruct (w_dns w hostname) as [ip|e']; [reflexivity |].
  destruct (is_gaierror e'); reflexivity.
Qed.

Lemma sent_bind_resolve hostname (k : string → M result) x w :
  fst (_resolve_host hostname w) = Val hostname →
  sent_if_ok (k hostname) x →
  fst (bind (_resolve_host hostname) k w) = Val Ok →
  In x (w_log (snd (bind (_resolve_host hostname) k w))).
Proof.
  unfold bind. intros Hres Hk.
  pose proof (resolve_host_world hostname w) as Hw.
  destruct (_resolve_host hostname w) as [ip w0]. simpl in Hres, Hw. subst.
  apply Hk.
Qed.

Lemma write_proxy_config_sends serial server_ip port username password w :
  fst (_resolve_host server_ip w) = Val server_ip →
  fst (write_proxy_config serial server_ip port username password w) = Val Ok →
  In (serial, WriteConfig (_build_tunnel_config server_ip port username password))
     (w_log (snd (write_proxy_config serial server_ip port username password w)))
  ∧ In (serial, RouteAdd (host_route server_ip))
       (w_log (snd (write_proxy_config serial server_ip port username password w))).
Proof.
  intros Hres Hok. unfold write_proxy_config, _cleanup_routing in *.
  split; (eapply sent_bind_resolve; [exact Hres | cbv beta | exact Hok]).
  - apply sent_bind_later; intros have_bin.
    destruct (negb have_bin); [apply sent_failed |].
    do 4 (apply sent_bind_later; intros ?).
    apply sent_bind_now. intros cp. sends.
  - apply sent_bind_later; intros have_bin.
    destruct (negb have_bin); [apply sent_failed |].
    do 4 (apply sent_bind_later; intros ?).
    apply sent_bind_later; intros cp.
    destruct (negb _); [apply sent_failed |].
    do 4 (apply sent_bind_later; intros ?).
    apply sent_bind_now. intros cp'. sends.
Qed.

Lemma resolve_host_literal hostname w :
  w_inet_aton w hostname = None → fst (_resolve_host hostname w) = Val hostname.
Proof.
  intros H. unfold _resolve_host, try_except, bind, inet_aton, ret.
  rewrite H. reflexivity.
Qed.

Lemma resolve_host_unresolved hostname w e e' :
  w_inet_aton w hostname = Some e → is_OSError e = true →
  w_dns w hostname = Raise e' → is_gaierror e' = true →
  fst (_resolve_host hostname w) = Val hostname.
Proof.
  intros H1 H2 H3 H4.
  unfold _resolve_host, try_except, bind, inet_aton, gethostbyname, ret.
  rewrite H1. cbn [fst snd]. rewrite H2, H3, H4. reflexivity.
Qed.

(** What escapes from [_resolve_host]: an exception of [inet_aton] that is
    no [socket.error], or one of [gethostbyname] that is no [gaierror]. *)
Lemma resolve_host_raises hostname w e :
  fst (_resolve_host hostname w) = Raise e ↔
  (w_inet_aton w hostname = Some e ∧ is_OSError e = false)
  ∨ (∃ e0, w_inet_aton w hostname = Some e0 ∧ is_OSError e0 = true
           ∧ w_dns w hostname = Raise e ∧ is_gaierror e = false).
Proof.
  unfold _resolve_host, try_except, bind, inet_aton, gethostbyname, ret.
  destruct (w_inet_aton w hostname) as [e0|]; cbn [fst snd].
  - destruct (is_OSError e0) eqn:H0; cbn [fst].
    + destruct (w_dns w hostname) as [ip|e1]; cbn [fst].
      * split; [discriminate |].
        intros [[[= <-] H] | (e2 & _ & _ & H & _)]; congruence.
      * destruct (is_gaierror e1) eqn:H1; cbn [fst].
        -- split; [discriminate |].
           intros [[[= <-] H] | (e2 & _ & _ & [= <-] & H)]; congruence.
        -- split.
           ++ intros [= <-]. right. exists e0. auto.
           ++ intros [[[= <-] H] | (e2 & _ & _ & [= <-] & _)];
                [congruence | reflexivity].
    + split.
      * intros [= <-]. left. auto.
      * intros [[[= <-] _] | (e2 & [= <-] & H & _)]; [reflexivity | congruence].
  - split; [discriminate |].
    intros [[H _] | (e2 & H & _)]; discriminate.
Qed.

(** ** Routing left behind by an apply *)

(** C1, at the failing input: after a successful apply for 10.0.0.1 and a
    successful apply for 10.0.0.2 on the same device, the routing table
    holds the host routes of both proxies; the split routes and the two
    rules are there once.  No apply, whatever its arguments and the world,
    sends the deletion of a route through the gateway. *)
Theorem second_apply_keeps_first_host_route :
  fst two_applies = (Val Ok, Val Ok)
  ∧ routes_of (snd two_applies)
      = [split_high; split_low; host_route "10.0.0.2"; host_route "10.0.0.1";
         default_route]
  ∧ rules_of (snd two_applies) = [rule_main; rule_fwmark]
  ∧ (∀ ip, deletes_gateway_route (RouteDel (host_route ip)) = true)
  ∧ (∀ serial server port username password,
       sends_only (λ c, deletes_gateway_route c = false)
         (write_proxy_config serial server port username password)).
Proof.
  split; [vm_compute; reflexivity |].
  split; [vm_compute; reflexivity |].
  split; [vm_compute; reflexivity |].
  split; [reflexivity | apply write_proxy_config_never_deletes_host_route].
Qed.

(** C4, at the failing input: when the daemon is found dead after the
    routing was installed, the apply fails with a message that contains
    "daemon failed to start" and no split route or rule is left, but the
    host route of the proxy is still in the table: none of the commands of
    [_cleanup_routing] deletes a route through the gateway. *)
Theorem failed_apply_keeps_host_route :
  fst failed_apply = Val (Failed daemon_failed_msg)
  ∧ Text.contains "daemon failed to start" daemon_failed_msg = true
  ∧ routes_of (snd failed_apply) = [host_route "10.0.0.9"; default_route]
  ∧ rules_of (snd failed_apply) = []
  ∧ Forall (λ c, deletes_gateway_route c = false) cleanup_cmds.
Proof.
  split; [vm_compute; reflexivity |].
  split; [vm_compute; reflexivity |].
  split; [vm_compute; reflexivity |].
  split; [vm_compute; reflexivity | repeat constructor].
Qed.

(** ** A reliable channel *)

Lemma adb_shell_reliable serial c w d :
  reliable serial d w →
  fst (adb_shell serial c w) = Val (as_text (fst (exec c d)))
  ∧ reliable serial (snd (exec c d)) (snd (adb_shell serial c w)).
Proof.
  intros [Hd Hf].
  destruct (adb_shell_quiet serial c w d Hd Hf) as (w' & -> & Hd' & Hf').
  simpl. split; [reflexivity | split; assumption].
Qed.

Lemma run_all_reliable serial cs w d :
  reliable serial d w →
  fst (run_all serial cs w) = Val tt
  ∧ reliable serial (dev_run cs d) (snd (run_all serial cs w)).
Proof.
  revert w d. induction cs as [|c cs IH]; intros w d Hr; simpl;
    [split; [reflexivity | exact Hr] |].
  unfold bind.
  destruct (adb_shell_reliable serial c w d Hr) as [E Hr'].
  destruct (adb_shell serial c w) as [cp w1]. simpl in E, Hr'. subst cp.
  apply IH, Hr'.
Qed.

(** ** Reasoning about computations *)

Lemma hoare_ret {A} (P : world → Prop) (a : A) (Q : A → world → Prop) :
  (∀ w, P w → Q a w) → hoare P (ret a) Q.
Proof. intros H w Hw. exists a. split; [reflexivity | apply H, Hw]. Qed.

Lemma hoare_bind {A B} (P : world → Prop) (m : M A) (R : A → world → Prop)
    (k : A → M B) (Q : B → world → Prop) :
  hoare P m R → (∀ a, hoare (R a) (k a) Q) → hoare P (bind m k) Q.
Proof.
  intros Hm Hk w Hw. unfold bind. destruct (Hm w Hw) as (a & Ea & Ha).
  destruct (m w) as [o w1]. simpl in Ea, Ha. subst o. apply (Hk a w1), Ha.
Qed.

Lemma hoare_weaken {A} (P P' : world → Prop) (f : M A) (Q Q' : A → world → Prop) :
  hoare P' f Q' → (∀ w, P w → P' w) → (∀ a w, Q' a w → Q a w) → hoare P f Q.
Proof.
  intros H HP HQ w Hw. destruct (H w (HP w Hw)) as (a & Ea & Ha).
  exists a. split; [exact Ea | apply HQ, Ha].
Qed.

(** A command on a reliable channel: what holds of the result and of the
    device afterwards holds of the call. *)
Lemma hoare_adb_shell serial c (P : device → Prop) (Q : completed → device → Prop) :
  (∀ d, P d → Q (as_text (fst (exec c d))) (snd (exec c d))) →
  hoare (on_device serial P) (adb_shell serial c)
    (λ cp w, on_device serial (Q cp) w).
Proof.
  intros H w (d & Hr & Hd).
  destruct (adb_shell_reliable serial c w d Hr) as [E Hr'].
  eexists. split; [exact E |].
  exists (snd (exec c d)). split; [exact Hr' | apply H, Hd].
Qed.

Lemma hoare_stable serial c (P : device → Prop) :
  (∀ d, P d → P (snd (exec c d))) →
  hoare (on_device serial P) (adb_shell serial c) (λ _, on_device serial P).
Proof. intros H. apply (hoare_adb_shell serial c P (λ _, P)), H. Qed.

Lemma hoare_run_all serial cs (P : device → Prop) :
  Forall (λ c, ∀ d, P d → P (snd (exec c d))) cs →
  hoare (on_device serial P) (run_all serial cs) (λ _, on_device serial P).
Proof.
  intros H. induction H as [|c cs Hc Hcs IH]; simpl.
  - apply hoare_ret. auto.
  - eapply hoare_bind; [apply hoare_stable, Hc | intros ?; exact IH].
Qed.

Lemma hoare_patch_geo serial (P : world → Prop) :
  (∀ w l, P w → P (with_geo l w)) →
  hoare P (patch_geo serial) (λ _, P).
Proof.
  intros H w Hw. unfold patch_geo.
  destruct (w_geo w); simpl; eexists; (split; [reflexivity | auto]).
Qed.

Lemma on_device_with_geo serial P w l :
  on_device serial P w → on_device serial P (with_geo l w).
Proof. intros (d & [Hd Hf] & HP). exists d. repeat split; assumption. Qed.

Lemma hoare_geo_loop n serial (P : device → Prop) :
  hoare (on_device serial P) (geo_loop n serial) (λ _, on_device serial P).
Proof.
  induction n as [|n IH]; simpl; [apply hoare_ret; auto |].
  eapply hoare_bind.
  - apply hoare_patch_geo. intros w l. apply on_device_with_geo.
  - intros []; [apply hoare_ret; auto | exact IH].
Qed.

Lemma hoare_wait_tun0 n serial (P : device → Prop) :
  hoare (on_device serial P) (wait_tun0 n serial) (λ _, on_device serial P).
Proof.
  induction n as [|n IH]; simpl; [apply hoare_ret; auto |].
  eapply hoare_bind; [apply hoare_stable; intros d Hd; exact Hd |].
  intros cp. destruct (Text.contains _ _); [apply hoare_ret; auto | exact IH].
Qed.

(** A resolution that returns leaves the world alone. *)
Lemma hoare_resolve hostname ip (P : world → Prop) :
  hoare (λ w, P w ∧ fst (_resolve_host hostname w) = Val ip)
    (_resolve_host hostname) (λ a w, P w ∧ a = ip).
Proof.
  intros w [Hw Hip]. exists ip. split; [exact Hip |].
  rewrite resolve_host_world. auto.
Qed.

Lemma hoare_isfile_local (P : world → Prop) :
  hoare P isfile_local (λ _, P).
Proof. intros w Hw. eexists. split; [reflexivity | exact Hw]. Qed.

Lemma on_device_pushed serial (P : device → Prop) w l :
  (∀ d, P d → P (set_bin BinPushed d)) →
  on_device serial P w →
  on_device serial P
    (with_push l (with_devs (alter (set_bin BinPushed) serial (w_devs w)) w)).
Proof.
  intros HP (d & [Hd Hf] & Hd'). exists (set_bin BinPushed d).
  split; [split |]; simpl.
  - rewrite lookup_alter_eq, Hd. reflexivity.
  - exact Hf.
  - apply HP, Hd'.
Qed.

Lemma hoare_adb_push serial (P : device → Prop) :
  (∀ d, P d → P (set_bin BinPushed d)) →
  hoare (on_device serial P) (adb_push serial) (λ _, on_device serial P).
Proof.
  intros HP w Hw. unfold adb_push.
  destruct (w_push w) as [|[] l]; simpl; eexists; (split; [reflexivity |]).
  - exact Hw.
  - apply on_device_pushed; assumption.
  - destruct Hw as (d & [Hd Hf] & Hd'). exists d. repeat split; assumption.
Qed.

Lemma hoare_push_loop n serial (P : device → Prop) :
  (∀ d, P d → P (set_bin BinPushed d)) →
  hoare (on_device serial P) (push_loop n serial) (λ _, on_device serial P).
Proof.
  intros HP. induction n as [|n IH]; simpl; [apply hoare_ret; auto |].
  eapply hoare_bind; [apply hoare_adb_push, HP |].
  intros []; [apply hoare_ret; auto | exact IH].
Qed.

(** [_ensure_binary] touches nothing of the device but the binary. *)
Lemma hoare_ensure_binary serial (P : device → Prop) :
  (∀ d b, P d → P (set_bin b d)) →
  hoare (on_device serial P) (_ensure_binary serial) (λ _, on_device serial P).
Proof.
  intros HP. unfold _ensure_binary.
  eapply hoare_bind; [apply hoare_stable; intros d Hd; exact Hd | intros cp].
  destruct (_ && _); [apply hoare_ret; auto |].
  eapply hoare_bind; [apply hoare_isfile_local | intros have_local].
  destruct (negb have_local); [apply hoare_ret; auto |].
  eapply hoare_bind; [apply hoare_push_loop; intros d Hd; apply HP, Hd |].
  intros []; [| apply hoare_ret; auto].
  eapply hoare_bind; [| intros ?; apply hoare_ret; intros w Hw; exact Hw].
  apply hoare_stable. intros d Hd. simpl.
  destruct (d_bin d) eqn:E; simpl; [exact Hd | apply HP, Hd | apply HP, Hd].
Qed.

(** ** Calls that return

    Without a raising fault pending every helper returns a value. *)

Lemma returns_ret {A} (a : A) : returns (ret a).
Proof. apply hoare_ret. auto. Qed.

Lemma returns_bind {A B} (m : M A) (k : A → M B) :
  returns m → (∀ a, returns (k a)) → returns (bind m k).
Proof. intros Hm Hk. eapply hoare_bind; [exact Hm | exact Hk]. Qed.

Lemma returns_adb_shell serial c : returns (adb_shell serial c).
Proof.
  intros w Hw. destruct (adb_shell_returns serial c w Hw) as (cp & E & Hn).
  exists cp. auto.
Qed.

Lemma returns_run_all serial cs : returns (run_all serial cs).
Proof.
  induction cs as [|c cs IH]; simpl; [apply returns_ret |].
  apply returns_bind; [apply returns_adb_shell | intros _; exact IH].
Qed.

(** Decompose a [returns] goal along binds and conditionals. *)
Ltac returning :=
  repeat first
    [ apply returns_bind; [| intros ?]
    | match goal with |- returns (if ?b then _ else _) => destruct b end
    | apply returns_ret
    | apply returns_adb_shell
    | apply returns_run_all ].

(** ** Disconnect *)

(** Follow a computation that returned through its binds and tests. *)
Ltac returned H :=
  repeat match type of H with
         | fst (bind _ _ _) = Val _ => apply bind_val in H as (? & _ & H)
         | fst ((if ?b then _ else _) _) = Val _ => destruct b
         end.

Lemma disconnect_vpn_result serial w r :
  fst (disconnect_vpn serial w) = Val r → r = Ok.
Proof.
  unfold disconnect_vpn. intros H. returned H.
  cbn [ret fst] in H. congruence.
Qed.

Lemma disconnect_vpn_returns serial : returns (disconnect_vpn serial).
Proof.
  unfold disconnect_vpn, read_current_config, _cleanup_routing. returning.
Qed.

Lemma disconnect_value_ok name serial m w r :
  fst (fst (disconnect name serial m w)) = Val r → r = Ok.
Proof.
  intros Hr. unfold disconnect in Hr.
  pose proof (disconnect_vpn_result serial w) as Hv.
  destruct (disconnect_vpn serial w) as [[res|e] w1]; [| discriminate].
  specialize (Hv res eq_refl). subst res.
  destruct (bool_decide _); [destruct (disable_kill_switch serial w1) |];
    simpl in Hr; congruence.
Qed.

(** C9, the claim refuted: when adb cannot be started, [disconnect] raises
    instead of returning [{"ok": True}], and the instance stays registered
    always-on and in the kill-switch set. *)
Lemma disconnect_raises_without_adb :
  let m := with_kill_switch {[ "A" ]}
             (set_always_on "A" (Some demo_cfg) new_manager) in
  let r := disconnect "A" "emu" m (with_faults [Raises OSError] (lab running_device)) in
  fst (fst r) = Raise OSError
  ∧ fst (fst r) ≠ Val Ok
  ∧ _always_on (snd (fst r)) !! "A" = Some demo_cfg
  ∧ "A" ∈ _kill_switch (snd (fst r)).
Proof.
  cbv zeta. split; [vm_compute; reflexivity |].
  split; [vm_compute; discriminate |].
  split; [vm_compute; reflexivity |].
  cbn. apply elem_of_singleton. reflexivity.
Qed.

(** C9 as amended: whenever [disconnect] returns, it returns [{"ok": True}],
    and it returns whenever [disconnect_vpn] does, which is the case as soon
    as no adb call raises: no return code, output or timeout of a teardown
    command is surfaced, nor is anything the kill-switch removal does.  An
    exception raised inside [disconnect_vpn] leaves [disconnect] as it is,
    with the manager unchanged. *)
Theorem disconnect_returns_ok
    (instance_name serial : string) (m : manager) (w : world) :
  (∀ r, fst (fst (disconnect instance_name serial m w)) = Val r → r = Ok)
  ∧ (∀ r, fst (disconnect_vpn serial w) = Val r →
       fst (fst (disconnect instance_name serial m w)) = Val Ok)
  ∧ (no_raise (w_faults w) →
       fst (fst (disconnect instance_name serial m w)) = Val Ok)
  ∧ (∀ e, fst (disconnect_vpn serial w) = Raise e →
       fst (fst (disconnect instance_name serial m w)) = Raise e
       ∧ snd (fst (disconnect instance_name serial m w)) = m).
Proof.
  assert (Hret : ∀ r, fst (disconnect_vpn serial w) = Val r →
                 fst (fst (disconnect instance_name serial m w)) = Val Ok).
  { intros r Hr. pose proof (disconnect_vpn_result serial w r Hr) as ->.
    unfold disconnect.
    destruct (disconnect_vpn serial w) as [res w1]. simpl in Hr. subst res.
    destruct (bool_decide _); [destruct (disable_kill_switch serial w1) |];
      reflexivity. }
  split; [| split; [exact Hret | split]].
  - intros r Hr. unfold disconnect in Hr.
    pose proof (disconnect_vpn_result serial w) as Hv.
    destruct (disconnect_vpn serial w) as [[res|e] w1]; [| discriminate].
    specialize (Hv res eq_refl). subst res.
    destruct (bool_decide _); [destruct (disable_kill_switch serial w1) |];
      simpl in Hr; congruence.
  - intros Hn. destruct (disconnect_vpn_returns serial w Hn) as (r & Hr & _).
    exact (Hret r Hr).
  - intros e He. unfold disconnect.
    destruct (disconnect_vpn serial w) as [res w1]. simpl in He. subst res.
    split; reflexivity.
Qed.

(** ** Status reader *)

Lemma parse_server_unreadable cp :
  returncode cp ≠ 0
  ∨ Text.strip (stdout cp) = ""
  ∨ Re.search_value "address:" (stdout cp) = None →
  parse_server cp = "".
Proof.
  unfold parse_server. intros [H | [H | H]].
  - destruct (Z.eqb_spec (returncode cp) 0); [contradiction | reflexivity].
  - rewrite H. simpl. rewrite andb_false_r. reflexivity.
  - rewrite H. destruct (_ && _); reflexivity.
Qed.

(** The status read on a reliable channel. *)
Lemma read_vpn_status_reliable serial w d :
  reliable serial d w →
  fst (read_vpn_status serial w)
  = Val {| st_state := if daemon_running d
                       then if d_tun d then Connected else Reconnecting
                       else Stopped;
           st_server := parse_server (as_text (fst (exec HeadConfig d))) |}
  ∧ reliable serial d (snd (read_vpn_status serial w)).
Proof.
  intros Hr. unfold read_vpn_status, bind, ret.
  destruct (adb_shell_reliable serial (ProbeDaemon "STOPPED") w d Hr) as [E1 Hr1].
  destruct (adb_shell serial (ProbeDaemon "STOPPED") w) as [cp1 w1].
  cbn [fst] in E1. cbn [snd exec] in Hr1. subst cp1.
  rewrite (as_text_plain (ProbeDaemon "STOPPED")) by reflexivity.
  cbn [exec fst returncode stdout done_ok].
  destruct (daemon_running d) eqn:Hrun.
  - replace (Text.contains "RUNNING" ("RUNNING" +:+ Text.nl)) with true
      by (vm_compute; reflexivity).
    cbn [Z.eqb andb].
    destruct (adb_shell_reliable serial LinkShowTun w1 d Hr1) as [E2 Hr2].
    destruct (adb_shell serial LinkShowTun w1) as [cp2 w2].
    cbn [fst] in E2. cbn [snd exec] in Hr2. subst cp2.
    rewrite (as_text_plain LinkShowTun) by reflexivity.
    cbn [exec fst].
    destruct (d_tun d) eqn:Htun;
      cbn [returncode stdout done_ok done_fail];
      [replace (Text.contains "tun0" tun0_line) with true
         by (vm_compute; reflexivity) |];
      cbn [Z.eqb andb fst snd];
      destruct (adb_shell_reliable serial HeadConfig w2 d Hr2) as [E3 Hr3];
      destruct (adb_shell serial HeadConfig w2) as [cp3 w3];
      cbn [fst] in E3; cbn [snd exec] in Hr3; subst cp3; cbn [fst snd];
      (split; [reflexivity | exact Hr3]).
  - replace (Text.contains "RUNNING" ("STOPPED" +:+ Text.nl)) with false
      by (vm_compute; reflexivity).
    cbn [Z.eqb andb].
    destruct (adb_shell_reliable serial HeadConfig w1 d Hr1) as [E3 Hr3].
    destruct (adb_shell serial HeadConfig w1) as [cp3 w3].
    cbn [fst] in E3. cbn [snd exec] in Hr3. subst cp3. cbn [fst snd].
    split; [reflexivity | exact Hr3].
Qed.

Lemma read_vpn_status_returns serial : returns (read_vpn_status serial).
Proof. unfold read_vpn_status. returning. Qed.







(** ** The descriptor read back *)

Lemma uint_digits d : all_chars Text.is_digit (NilEmpty.string_of_uint d) = true.
Proof. induction d; simpl; auto. Qed.

Lemma str_of_int_digits port :
  0 ≤ port →
  all_chars Text.is_digit (Text.str_of_int port) = true
  ∧ Text.nonempty (Text.str_of_int port) = true.
Proof.
  intros H. unfold Text.str_of_int.
  destruct port as [|p|p]; [split; reflexivity | | lia].
  cbn [Z.to_int NilZero.string_of_int].
  destruct (Pos.to_uint p); simpl; split; try reflexivity; apply uint_digits.
Qed.

Lemma all_chars_impl (p q : ascii → bool) s :
  (∀ c, p c = true → q c = true) → all_chars p s = true → all_chars q s = true.
Proof.
  intros Hpq. induction s as [|c s IH]; cbn [all_chars]; [reflexivity |].
  intros [Hc Hs]%andb_true_iff. rewrite (Hpq c Hc), (IH Hs). reflexivity.
Qed.

Lemma digit_facts c :
  Text.is_digit c = true →
  Text.is_space c = false ∧ negb (Ascii.eqb "a" c) = true
  ∧ negb (Ascii.eqb c (ascii_of_nat 10)) = true.
Proof.
  intros Hd.
  assert (Ha : c ≠ "a"%char) by (intros ->; discriminate Hd).
  assert (Hn : c ≠ ascii_of_nat 10) by (intros ->; discriminate Hd).
  revert Hd. unfold Text.is_digit, Text.is_space. cbv zeta.
  generalize (nat_of_ascii c). intros n [H1 H2]%andb_true_iff.
  apply Nat.leb_le in H1. apply Nat.leb_le in H2.
  repeat split.
  - repeat (apply orb_false_iff; split).
    + apply andb_false_iff. right. apply Nat.leb_gt. lia.
    + apply andb_false_iff. right. apply Nat.leb_gt. lia.
    + apply Nat.eqb_neq. lia.
    + apply Nat.eqb_neq. lia.
  - destruct (Ascii.eqb_spec "a" c); [congruence | reflexivity].
  - destruct (Ascii.eqb_spec c (ascii_of_nat 10)); [congruence | reflexivity].
Qed.

Lemma span_all p s c t :
  all_chars p s = true → p c = false →
  Text.span p (s +:+ String c t) = (s, String c t).
Proof.
  intros Hs Hc. induction s as [|a s IH]; simpl in *.
  - rewrite Hc. reflexivity.
  - apply andb_true_iff in Hs as [Ha Hs]. rewrite Ha, (IH Hs). reflexivity.
Qed.

Lemma search_value_skip k0 krest s t :
  all_chars (λ c, negb (Ascii.eqb k0 c)) s = true →
  Re.search_value (String k0 krest) (s +:+ t) = Re.search_value (String k0 krest) t.
Proof.
  intros Hs. induction s as [|a s IH]; simpl in *; [reflexivity |].
  apply andb_true_iff in Hs as [Ha Hs].
  unfold Re.value_at. simpl.
  destruct (Ascii.eqb k0 a); [discriminate |]. simpl.
  destruct s; simpl in *; apply IH; assumption.
Qed.

Lemma group_value_clean s t :
  clean_value s = true →
  Re.group_value (s +:+ String "'" t) = Some s.
Proof.
  intros [Hn Hc]%andb_true_iff. unfold Re.group_value.
  rewrite span_all by (assumption || reflexivity). rewrite Hn. reflexivity.
Qed.

Lemma build_split server port username password :
  _build_tunnel_config server port username password
  = head_text +:+ Text.str_of_int port +:+ mid_text +:+ server +:+
    String "'" (tail_text username password).
Proof. reflexivity. Qed.

Lemma search_address_head t :
  Re.search_value "address:" (head_text +:+ t) = Re.search_value "address:" t.
Proof. reflexivity. Qed.

Lemma search_address_mid s t :
  clean_value s = true →
  Re.search_value "address:" (mid_text +:+ s +:+ String "'" t) = Some s.
Proof.
  intros Hs.
  unfold mid_text, Text.nl. simpl. unfold Re.value_at. simpl.
  change ("" +:+ s +:+ String "'" t) with (s +:+ String "'" t).
  rewrite group_value_clean by assumption. reflexivity.
Qed.

(** In any text that starts like a descriptor the address found is the
    server written, whatever follows its closing quote. *)
Lemma search_address_text ps server t :
  all_chars Text.is_digit ps = true → clean_value server = true →
  Re.search_value "address:"
    (head_text +:+ ps +:+ mid_text +:+ server +:+ String "'" t) = Some server.
Proof.
  intros Hd Hs. rewrite search_address_head.
  rewrite search_value_skip
    by (revert Hd; apply all_chars_impl; intros c Hc; apply digit_facts, Hc).
  apply search_address_mid, Hs.
Qed.

Lemma star_ws_digit k c r :
  Text.is_digit c = true → Re.star_ws k (String c r) = k (String c r).
Proof.
  intros Hc. simpl. destruct (digit_facts c Hc) as (-> & _). reflexivity.
Qed.

Lemma search_port_text ps t :
  all_chars Text.is_digit ps = true → Text.nonempty ps = true →
  Re.search_port (head_text +:+ ps +:+ String (ascii_of_nat 10) t) = Some ps.
Proof.
  intros Hd Hn.
  assert (Hg : Re.star_ws Re.group_digits (ps +:+ String (ascii_of_nat 10) t)
               = Some ps).
  { destruct ps as [|c ps']; [discriminate Hn |].
    pose proof Hd as Hd'. cbn [all_chars] in Hd'.
    apply andb_true_iff in Hd' as [Hc _].
    change (String c ps' +:+ String (ascii_of_nat 10) t)
      with (String c (ps' +:+ String (ascii_of_nat 10) t)).
    rewrite star_ws_digit by exact Hc.
    change (String c (ps' +:+ String (ascii_of_nat 10) t))
      with (String c ps' +:+ String (ascii_of_nat 10) t).
    unfold Re.group_digits. rewrite span_all by (assumption || reflexivity).
    reflexivity. }
  unfold Re.search_port, head_text, Text.nl. simpl. unfold Re.port_at. simpl.
  change ("" +:+ ps +:+ String (ascii_of_nat 10) t)
    with (ps +:+ String (ascii_of_nat 10) t).
  rewrite Hg. reflexivity.
Qed.

Lemma head_lines_no_nl n s t :
  all_chars (λ c, negb (Ascii.eqb c (ascii_of_nat 10))) s = true →
  Text.head_lines (S n) (s +:+ t) = s +:+ Text.head_lines (S n) t.
Proof.
  induction s as [|c s IH]; cbn [all_chars]; [reflexivity |].
  intros [Hc Hs]%andb_true_iff. apply negb_true_iff, Ascii.eqb_neq in Hc.
  change (String c s +:+ t) with (String c (s +:+ t)).
  change (String c s +:+ Text.head_lines (S n) t)
    with (String c (s +:+ Text.head_lines (S n) t)).
  rewrite <- (IH Hs).
  change (Text.head_lines (S n) (String c (s +:+ t)))
    with (if Ascii.eqb c (ascii_of_nat 10)
          then String c (Text.head_lines n (s +:+ t))
          else String c (Text.head_lines (S n) (s +:+ t))).
  destruct (Ascii.eqb_spec c (ascii_of_nat 10)) as [E | _]; [contradiction |].
  reflexivity.
Qed.

Lemma clean_value_no_nl s :
  clean_value s = true →
  all_chars (λ c, negb (Ascii.eqb c (ascii_of_nat 10))) s = true.
Proof.
  intros [_ Hc]%andb_true_iff. revert Hc. apply all_chars_impl.
  unfold Re.not_quote_nl. intros c [_ H]%andb_true_iff. exact H.
Qed.

(** The first 50 lines of a descriptor reach past the address line. *)
Lemma built_head_lines server port username password :
  0 ≤ port → clean_value server = true →
  Text.head_lines 50 (_build_tunnel_config server port username password)
  = head_text +:+ Text.str_of_int port +:+ mid_text +:+ server +:+
    String "'" (Text.head_lines 43 (tail_text username password)).
Proof.
  intros Hp Hs. rewrite build_split.
  destruct (str_of_int_digits port Hp) as [Hd _].
  change (Text.head_lines 50 (head_text +:+ ?x))
    with (head_text +:+ Text.head_lines 44 x).
  rewrite head_lines_no_nl
    by (revert Hd; apply all_chars_impl; intros c Hc; apply digit_facts, Hc).
  change (Text.head_lines 44 (mid_text +:+ ?x))
    with (mid_text +:+ Text.head_lines 43 x).
  rewrite head_lines_no_nl by apply clean_value_no_nl, Hs.
  reflexivity.
Qed.

Lemma strip_nonempty c r :
  Text.is_space c = false → Text.nonempty (Text.strip (String c r)) = true.
Proof.
  intros Hc. unfold Text.strip. cbn [Text.lstrip]. rewrite Hc.
  cbn [Text.rstrip]. destruct (Text.rstrip r); [rewrite Hc |]; reflexivity.
Qed.

Lemma rstrip_no_space s :
  all_chars (λ c, negb (Text.is_space c)) s = true → Text.rstrip s = s.
Proof.
  induction s as [|c s IH]; cbn [all_chars Text.rstrip]; [reflexivity |].
  intros [Hc Hs]%andb_true_iff. apply negb_true_iff in Hc.
  rewrite (IH Hs), Hc. destruct s; reflexivity.
Qed.

Lemma strip_no_space s :
  all_chars (λ c, negb (Text.is_space c)) s = true → Text.strip s = s.
Proof.
  intros Hs. unfold Text.strip.
  assert (Hl : Text.lstrip s = s).
  { destruct s as [|c r]; [reflexivity |]. cbn [all_chars] in Hs.
    apply andb_true_iff in Hs as [Hc _]. apply negb_true_iff in Hc.
    cbn [Text.lstrip]. rewrite Hc. reflexivity. }
  rewrite Hl. apply rstrip_no_space, Hs.
Qed.

Lemma strip_digits ps : all_chars Text.is_digit ps = true → Text.strip ps = ps.
Proof.
  intros Hd. apply strip_no_space. revert Hd. apply all_chars_impl.
  intros c Hc. destruct (digit_facts c Hc) as (-> & _). reflexivity.
Qed.

(** The server entry computed from the first 50 lines of a descriptor. *)
Lemma parse_server_built server port username password :
  0 ≤ port → clean_value server = true →
  parse_server
    (done_ok (Text.head_lines 50
                (_build_tunnel_config server port username password)))
  = Text.strip server +:+ ":" +:+ Text.str_of_int port.
Proof.
  intros Hp Hs. rewrite built_head_lines by assumption.
  destruct (str_of_int_digits port Hp) as [Hd Hn].
  unfold parse_server, done_ok. cbn [returncode stdout].
  rewrite search_address_text by assumption.
  change (mid_text +:+ ?x) with (String (ascii_of_nat 10) ("  address: '" +:+ x)).
  rewrite search_port_text by assumption.
  rewrite (strip_digits _ Hd), Hn.
  change (head_text +:+ ?x) with (String "t" (String.append "unnel:" (String.append Text.nl
    ("  name: tun0" +:+ Text.nl +:+ "  mtu: 1500" +:+ Text.nl +:+
     "  ipv4: 198.18.0.1" +:+ Text.nl +:+ Text.nl +:+ "socks5:" +:+ Text.nl +:+
     "  port: " +:+ x)))).
  rewrite strip_nonempty by reflexivity. reflexivity.
Qed.

(** ** Reading the descriptor back *)

(** The two searches of the status reader find, in a descriptor built for a
    server without quote or newline and a port that is not negative, the
    server and the port it was built from. *)
Theorem descriptor_read_back (server : string) (port : Z) (username password : string) :
  0 ≤ port → clean_value server = true →
  Re.search_value "address:" (_build_tunnel_config server port username password)
    = Some server
  ∧ Re.search_port (_build_tunnel_config server port username password)
    = Some (Text.str_of_int port).
Proof.
  intros Hp Hs. destruct (str_of_int_digits port Hp) as [Hd Hn].
  rewrite build_split. split.
  - apply search_address_text; assumption.
  - change (mid_text +:+ ?x) with (String (ascii_of_nat 10) ("  address: '" +:+ x)).
    apply search_port_text; assumption.
Qed.

(** *** The descriptor as the host reads it *)

Lemma digits_no_cr s : all_chars Text.is_digit s = true → no_cr s = true.
Proof.
  induction s as [|c s IH]; cbn [all_chars no_cr]; [reflexivity |].
  intros [Hc Hs]%andb_true_iff. rewrite (IH Hs), andb_true_r.
  apply negb_true_iff, Ascii.eqb_neq. intros ->. discriminate Hc.
Qed.

Lemma plain_value_clean s : plain_value s = true → clean_value s = true.
Proof. intros [H _]%andb_true_iff. exact H. Qed.

Lemma plain_value_no_cr s : plain_value s = true → no_cr s = true.
Proof. intros [_ H]%andb_true_iff. exact H. Qed.

(** The first 50 lines of a descriptor, decoded, up to the address line. *)
Lemma built_head_config server port username password :
  0 ≤ port → plain_value server = true →
  head_config (_build_tunnel_config server port username password)
  = head_text +:+ Text.str_of_int port +:+ mid_text +:+ server +:+
    String "'" (Text.universal_newlines
                  (Text.head_lines 43 (tail_text username password))).
Proof.
  intros Hp Hs. unfold head_config.
  rewrite built_head_lines by (try apply plain_value_clean; assumption).
  destruct (str_of_int_digits port Hp) as [Hd _].
  rewrite (universal_newlines_app head_text) by reflexivity.
  rewrite universal_newlines_app by apply digits_no_cr, Hd.
  rewrite (universal_newlines_app mid_text) by reflexivity.
  rewrite universal_newlines_app by apply plain_value_no_cr, Hs.
  reflexivity.
Qed.

Lemma built_text_facts server port username password :
  0 ≤ port → plain_value server = true →
  let out := head_config (_build_tunnel_config server port username password) in
  Re.search_value "address:" out = Some server
  ∧ Re.search_port out = Some (Text.str_of_int port)
  ∧ Text.nonempty (Text.strip out) = true.
Proof.
  intros Hp Hs out. subst out.
  destruct (str_of_int_digits port Hp) as [Hd Hn].
  pose proof (plain_value_clean _ Hs) as Hc.
  rewrite built_head_config by assumption.
  split; [apply search_address_text; assumption |].
  split.
  - change (mid_text +:+ ?x) with (String (ascii_of_nat 10) ("  address: '" +:+ x)).
    apply search_port_text; assumption.
  - change (head_text +:+ ?x) with (String "t" (String.append "unnel:" (String.append Text.nl
      ("  name: tun0" +:+ Text.nl +:+ "  mtu: 1500" +:+ Text.nl +:+
       "  ipv4: 198.18.0.1" +:+ Text.nl +:+ Text.nl +:+ "socks5:" +:+ Text.nl +:+
       "  port: " +:+ x)))).
    apply strip_nonempty. reflexivity.
Qed.

(** The server entry computed from what the descriptor read returns. *)
Lemma parse_server_read server port username password :
  0 ≤ port → plain_value server = true →
  parse_server
    (as_text (done_ok (Text.head_lines 50
                         (_build_tunnel_config server port username password))))
  = Text.strip server +:+ ":" +:+ Text.str_of_int port.
Proof.
  intros Hp Hs.
  destruct (built_text_facts server port username password Hp Hs)
    as (Ha & Hport & Hne).
  destruct (str_of_int_digits port Hp) as [Hd Hn].
  unfold parse_server, as_text, done_ok. cbn [returncode stdout].
  fold (head_config (_build_tunnel_config server port username password)).
  rewrite Hne, Ha, Hport. cbn [Z.eqb andb].
  rewrite (strip_digits _ Hd), Hn. reflexivity.
Qed.

Lemma read_current_config_reliable serial w d :
  reliable serial d w →
  (∃ c, fst (read_current_config serial w) = Val c
        ∧ default "" (cc_server c) = configured_server d)
  ∧ reliable serial d (snd (read_current_config serial w)).
Proof.
  intros Hr. unfold read_current_config, bind, ret, configured_server.
  destruct (adb_shell_reliable serial HeadConfig w d Hr) as [E Hr1].
  destruct (adb_shell serial HeadConfig w) as [cp w1].
  cbn [fst] in E. cbn [snd exec] in Hr1. subst cp. cbn [exec fst].
  destruct (d_config d) as [text|]; unfold as_text;
    cbn [returncode stdout done_ok done_fail].
  - cbn [Z.eqb negb orb]. fold (head_config text).
    destruct (Text.nonempty (Text.strip (head_config text))); cbn;
      (split; [eexists; split; reflexivity | exact Hr1]).
  - cbn. split; [eexists; split; reflexivity | exact Hr1].
Qed.

Lemma configured_server_built d server port username password :
  d_config d = Some (_build_tunnel_config server port username password) →
  0 ≤ port → plain_value server = true →
  configured_server d = Text.strip server.
Proof.
  intros Hc Hp Hs. unfold configured_server. rewrite Hc.
  destruct (built_text_facts server port username password Hp Hs) as (Ha & _ & Hn).
  cbv zeta. rewrite Hn, Ha. reflexivity.
Qed.

(** On a reliable channel, a device that holds the descriptor built for a
    port that is not negative and a server without quote, line feed or
    carriage return gives them back: [read_current_config] returns the
    server, stripped of surrounding white space, and the port, and
    [read_vpn_status] reports [server:port]. *)
Theorem written_endpoint_is_reported
    (serial : string) (w : world) (d : device)
    (server : string) (port : Z) (username password : string) :
  reliable serial d w →
  d_config d = Some (_build_tunnel_config server port username password) →
  0 ≤ port → plain_value server = true →
  (∃ c, fst (read_current_config serial w) = Val c
        ∧ cc_server c = Some (Text.strip server)
        ∧ cc_port c = Some (Text.str_of_int port))
  ∧ (∃ st, fst (read_vpn_status serial w) = Val st
           ∧ st_server st = Text.strip server +:+ ":" +:+ Text.str_of_int port).
Proof.
  intros Hr Hc Hp Hs.
  destruct (str_of_int_digits port Hp) as [Hd Hn].
  destruct (built_text_facts server port username password Hp Hs)
    as (Haddr & Hport & Hne).
  split.
  - unfold read_current_config, bind, ret.
    destruct (adb_shell_reliable serial HeadConfig w d Hr) as [E _].
    destruct (adb_shell serial HeadConfig w) as [cp w1]. cbn [fst] in E. subst cp.
    cbn [exec fst]. rewrite Hc. unfold as_text.
    cbn [returncode stdout done_ok Z.eqb negb orb].
    fold (head_config (_build_tunnel_config server port username password)).
    rewrite Hne. cbn [negb fst]. eexists. split; [reflexivity |].
    cbn [cc_server cc_port]. rewrite Haddr, Hport.
    cbn [fmap option_fmap option_map]. rewrite (strip_digits _ Hd).
    split; reflexivity.
  - destruct (read_vpn_status_reliable serial w d Hr) as [E _].
    eexists. split; [exact E |]. cbn [st_server exec fst]. rewrite Hc.
    apply parse_server_read; assumption.
Qed.

(** ** Teardown *)

Lemma filter_in_all {A} (P : A → Prop) `{∀ x, Decision (P x)} (l : list A) :
  (∀ x, x ∈ l → P x) → filter P l = l.
Proof.
  induction l as [|a l IH]; intros H0; [reflexivity |].
  rewrite filter_cons_True by (apply H0; left).
  rewrite IH; [reflexivity |]. intros x Hx. apply H0. right. exact Hx.
Qed.

Lemma cleanup_device d :
  dev_run cleanup_cmds d
  = set_rules
      (filter (λ x, x ≠ rule_legacy_fwmark)
         (filter (λ x, x ≠ rule_legacy_14000)
            (filter (λ x, x ≠ rule_legacy_20)
               (filter (λ x, x ≠ rule_main)
                  (filter (λ x, x ≠ rule_fwmark) (d_rules d))))))
      (set_routes
         (filter (λ x, x ≠ split_high)
            (filter (λ x, x ≠ split_low) (d_routes d))) d).
Proof. destruct d. reflexivity. Qed.

Lemma cleanup_routes d r :
  r ∈ d_routes (dev_run cleanup_cmds d)
  ↔ r ∈ d_routes d ∧ r ≠ split_low ∧ r ≠ split_high.
Proof.
  rewrite cleanup_device. cbn [d_routes set_rules set_routes].
  rewrite !list_elem_of_filter. tauto.
Qed.

Lemma cleanup_rules d r :
  r ∈ d_rules (dev_run cleanup_cmds d) ↔ r ∈ d_rules d ∧ r ∉ cleaned_rules.
Proof.
  rewrite cleanup_device. cbn [d_rules set_rules set_routes].
  rewrite !list_elem_of_filter. unfold cleaned_rules.
  rewrite !not_elem_of_cons. pose proof (not_elem_of_nil r). tauto.
Qed.

Lemma filter_ne_absent {A} `{EqDecision A} (a : A) (l : list A) :
  a ∉ l → filter (λ x, x ≠ a) l = l.
Proof.
  intros Ha. apply filter_in_all. intros x Hx ->. contradiction.
Qed.

Lemma cleanup_idem d :
  dev_run cleanup_cmds (dev_run cleanup_cmds d) = dev_run cleanup_cmds d.
Proof.
  rewrite (cleanup_device (dev_run cleanup_cmds d)).
  assert (Hr : ∀ r, r = split_low ∨ r = split_high →
                    r ∉ d_routes (dev_run cleanup_cmds d))
    by (intros r Hx Hin; apply cleanup_routes in Hin; destruct Hx; tauto).
  assert (Hu : ∀ r, r ∈ cleaned_rules → r ∉ d_rules (dev_run cleanup_cmds d))
    by (intros r Hx Hin; apply cleanup_rules in Hin; tauto).
  rewrite (filter_ne_absent split_low) by (apply Hr; auto).
  rewrite (filter_ne_absent split_high) by (apply Hr; auto).
  unfold cleaned_rules in Hu.
  rewrite (filter_ne_absent rule_fwmark) by (apply Hu; repeat (first [left; reflexivity | right])).
  rewrite (filter_ne_absent rule_main) by (apply Hu; repeat (first [left; reflexivity | right])).
  rewrite (filter_ne_absent rule_legacy_20) by (apply Hu; repeat (first [left; reflexivity | right])).
  rewrite (filter_ne_absent rule_legacy_14000) by (apply Hu; repeat (first [left; reflexivity | right])).
  rewrite (filter_ne_absent rule_legacy_fwmark) by (apply Hu; repeat (first [left; reflexivity | right])).
  destruct (dev_run cleanup_cmds d). reflexivity.
Qed.

(** [_cleanup_routing] on a reliable channel removes the two split routes
    and the five rules it names and nothing else, leaves daemon, interface
    and descriptor alone, and a second run changes nothing. *)
Theorem cleanup_routing_idempotent (serial : string) (w : world) (d : device) :
  reliable serial d w →
  ∃ d1, reliable serial d1 (snd (_cleanup_routing serial w))
    ∧ (∀ r, r ∈ d_routes d1 ↔ r ∈ d_routes d ∧ r ≠ split_low ∧ r ≠ split_high)
    ∧ (∀ r, r ∈ d_rules d1 ↔ r ∈ d_rules d ∧ r ∉ cleaned_rules)
    ∧ daemon_running d1 = daemon_running d
    ∧ d_tun d1 = d_tun d
    ∧ d_config d1 = d_config d
    ∧ reliable serial d1
        (snd (_cleanup_routing serial (snd (_cleanup_routing serial w)))).
Proof.
  intros Hr. exists (dev_run cleanup_cmds d).
  destruct (run_all_reliable serial cleanup_cmds w d Hr) as [_ Hr1].
  split; [exact Hr1 |].
  split; [apply cleanup_routes |].
  split; [apply cleanup_rules |].
  split; [rewrite cleanup_device; reflexivity |].
  split; [rewrite cleanup_device; reflexivity |].
  split; [rewrite cleanup_device; reflexivity |].
  destruct (run_all_reliable serial cleanup_cmds _ _ Hr1) as [_ Hr2].
  rewrite cleanup_idem in Hr2. exact Hr2.
Qed.

Lemma disconnect_vpn_reliable serial w d :
  reliable serial d w →
  fst (disconnect_vpn serial w) = Val Ok
  ∧ reliable serial (after_disconnect d) (snd (disconnect_vpn serial w)).
Proof.
  intros Hr. unfold disconnect_vpn, after_disconnect, bind, ret.
  destruct (read_current_config_reliable serial w d Hr) as ((c & Ec & Hip) & Hr1).
  destruct (read_current_config serial w) as [config w1]. simpl in Ec, Hr1.
  subst config. rewrite Hip.
  destruct (run_all_reliable serial cleanup_cmds w1 d Hr1) as [Eu Hr2].
  unfold _cleanup_routing.
  destruct (run_all serial cleanup_cmds w1) as [u w2]. simpl in Eu, Hr2. subst u.
  destruct (Text.nonempty (configured_server d)).
  - destruct (adb_shell_reliable serial
                (RouteDel (host_route (configured_server d))) w2 _ Hr2) as [E3 Hr3].
    destruct (adb_shell serial (RouteDel _) w2) as [cp3 w3].
    simpl in E3, Hr3. subst cp3.
    destruct (adb_shell_reliable serial KillPid w3 _ Hr3) as [E4 Hr4].
    destruct (adb_shell serial KillPid w3) as [cp4 w4]. simpl in E4, Hr4. subst cp4.
    destruct (adb_shell_reliable serial RmFiles w4 _ Hr4) as [E5 Hr5].
    destruct (adb_shell serial RmFiles w4) as [cp5 w5]. simpl in E5, Hr5. subst cp5.
    split; [reflexivity | exact Hr5].
  - destruct (adb_shell_reliable serial KillPid w2 _ Hr2) as [E4 Hr4].
    destruct (adb_shell serial KillPid w2) as [cp4 w4]. simpl in E4, Hr4. subst cp4.
    destruct (adb_shell_reliable serial RmFiles w4 _ Hr4) as [E5 Hr5].
    destruct (adb_shell serial RmFiles w4) as [cp5 w5]. simpl in E5, Hr5. subst cp5.
    split; [reflexivity | exact Hr5].
Qed.

Lemma after_disconnect_files d :
  d_config (after_disconnect d) = None
  ∧ d_pidfile (after_disconnect d) = false
  ∧ d_alive (after_disconnect d) = d_alive d && negb (d_pidfile d)
  ∧ d_tun (after_disconnect d) = d_tun d
  ∧ d_bin (after_disconnect d) = d_bin d.
Proof.
  unfold after_disconnect. rewrite cleanup_device.
  destruct (Text.nonempty (configured_server d)); destruct d as [? ? [] [] ? ? ? ? ?];
    simpl; auto.
Qed.

Lemma after_disconnect_routes d r :
  r ∈ d_routes (after_disconnect d)
  ↔ r ∈ d_routes d ∧ r ≠ split_low ∧ r ≠ split_high
    ∧ (configured_server d ≠ "" → r ≠ host_route (configured_server d)).
Proof.
  unfold after_disconnect.
  assert (Hk : ∀ x, d_routes (snd (exec RmFiles (snd (exec KillPid x)))) = d_routes x)
    by (intros x; simpl; destruct (d_pidfile x); reflexivity).
  rewrite Hk.
  destruct (configured_server d) as [|c s] eqn:E; cbn [Text.nonempty].
  - rewrite cleanup_routes. intuition congruence.
  - cbn [exec snd d_routes set_routes]. rewrite list_elem_of_filter, cleanup_routes.
    split.
    + intros (Hne & Hin & H1 & H2). repeat split; auto.
    + intros (Hin & H1 & H2 & Hh). split; [apply Hh; discriminate | auto].
Qed.

Lemma after_disconnect_rules d r :
  r ∈ d_rules (after_disconnect d) ↔ r ∈ d_rules d ∧ r ∉ cleaned_rules.
Proof.
  unfold after_disconnect.
  assert (Hk : ∀ x, d_rules (snd (exec RmFiles (snd (exec KillPid x)))) = d_rules x)
    by (intros x; simpl; destruct (d_pidfile x); reflexivity).
  rewrite Hk.
  destruct (Text.nonempty (configured_server d)); cbn [exec snd d_rules set_routes];
    apply cleanup_rules.
Qed.

Lemma after_disconnect_idem d :
  after_disconnect (after_disconnect d) = after_disconnect d.
Proof.
  destruct (after_disconnect_files d) as (Hc & Hp & _).
  unfold after_disconnect at 1.
  unfold configured_server at 1 2. rewrite Hc. cbn [Text.nonempty].
  assert (Hcl : dev_run cleanup_cmds (after_disconnect d) = after_disconnect d).
  { rewrite cleanup_device.
    rewrite (filter_ne_absent split_low)
      by (intros H; apply after_disconnect_routes in H; tauto).
    rewrite (filter_ne_absent split_high)
      by (intros H; apply after_disconnect_routes in H; tauto).
    assert (Hu : ∀ r, r ∈ cleaned_rules → r ∉ d_rules (after_disconnect d))
      by (intros r Hx Hin; apply after_disconnect_rules in Hin; tauto).
    unfold cleaned_rules in Hu.
    rewrite (filter_ne_absent rule_fwmark) by (apply Hu; repeat (first [left; reflexivity | right])).
    rewrite (filter_ne_absent rule_main) by (apply Hu; repeat (first [left; reflexivity | right])).
    rewrite (filter_ne_absent rule_legacy_20) by (apply Hu; repeat (first [left; reflexivity | right])).
    rewrite (filter_ne_absent rule_legacy_14000) by (apply Hu; repeat (first [left; reflexivity | right])).
    rewrite (filter_ne_absent rule_legacy_fwmark) by (apply Hu; repeat (first [left; reflexivity | right])).
    destruct (after_disconnect d). reflexivity. }
  rewrite Hcl. cbn [exec]. rewrite Hp. cbn [snd].
  revert Hc Hp. destruct (after_disconnect d). simpl. intros -> ->. reflexivity.
Qed.

(** [disconnect_vpn] on a reliable channel returns [{"ok": True}];
    afterwards the PID file and the descriptor are gone, the daemon that the
    PID file named has been killed while a daemon without a PID file keeps
    running, and tun0 is left as it was; the split routes, the rules of the
    tunnel and the host route of the server the descriptor named are
    removed and every other route and rule is kept; the status read next is
    stopped with an empty server; a second disconnect changes nothing on
    the device. *)
Theorem disconnect_vpn_tears_down (serial : string) (w : world) (d : device) :
  reliable serial d w →
  ∃ d1, fst (disconnect_vpn serial w) = Val Ok
    ∧ reliable serial d1 (snd (disconnect_vpn serial w))
    ∧ d_config d1 = None
    ∧ d_pidfile d1 = false
    ∧ d_alive d1 = d_alive d && negb (d_pidfile d)
    ∧ d_tun d1 = d_tun d
    ∧ (∀ r, r ∈ d_routes d1
            ↔ r ∈ d_routes d ∧ r ≠ split_low ∧ r ≠ split_high
              ∧ (configured_server d ≠ "" → r ≠ host_route (configured_server d)))
    ∧ (∀ r, r ∈ d_rules d1 ↔ r ∈ d_rules d ∧ r ∉ cleaned_rules)
    ∧ fst (read_vpn_status serial (snd (disconnect_vpn serial w)))
      = Val {| st_state := Stopped; st_server := "" |}
    ∧ reliable serial d1
        (snd (disconnect_vpn serial (snd (disconnect_vpn serial w)))).
Proof.
  intros Hr. exists (after_disconnect d).
  destruct (disconnect_vpn_reliable serial w d Hr) as [Hok Hr1].
  destruct (after_disconnect_files d) as (Hc & Hp & Ha & Ht & _).
  split; [exact Hok |].
  split; [exact Hr1 |].
  split; [exact Hc |].
  split; [exact Hp |].
  split; [exact Ha |].
  split; [exact Ht |].
  split; [apply after_disconnect_routes |].
  split; [apply after_disconnect_rules |].
  split.
  - destruct (read_vpn_status_reliable serial _ _ Hr1) as [-> _].
    unfold daemon_running. rewrite Hp. cbn [andb exec fst]. rewrite Hc.
    reflexivity.
  - destruct (disconnect_vpn_reliable serial _ _ Hr1) as [_ Hr2].
    rewrite after_disconnect_idem in Hr2. exact Hr2.
Qed.

(** When the device holds the descriptor written for a server without
    quote, line feed, carriage return or surrounding white space,
    [disconnect_vpn] on a reliable channel leaves the routing table without
    the host route of that server. *)
Theorem disconnect_removes_written_host_route
    (serial : string) (w : world) (d : device)
    (server : string) (port : Z) (username password : string) :
  reliable serial d w →
  d_config d = Some (_build_tunnel_config server port username password) →
  0 ≤ port → plain_value server = true → Text.strip server = server →
  ∃ d1, reliable serial d1 (snd (disconnect_vpn serial w))
    ∧ (host_route server ∉ d_routes d1)
    ∧ (∀ r, r ∈ d_routes d → r ≠ split_low → r ≠ split_high →
            r ≠ host_route server → r ∈ d_routes d1).
Proof.
  intros Hr Hc Hp Hs Hst. exists (after_disconnect d).
  split; [apply disconnect_vpn_reliable, Hr |].
  assert (Hcs : configured_server d = server)
    by (rewrite (configured_server_built d server port username password Hc Hp Hs);
        exact Hst).
  split.
  - intros Hin. apply after_disconnect_routes in Hin as (_ & _ & _ & Hh).
    rewrite Hcs in Hh. apply Hh; [| reflexivity].
    intros ->. discriminate Hs.
  - intros r Hin H1 H2 H3. apply after_disconnect_routes.
    rewrite Hcs. auto.
Qed.

(** ** What a successful apply leaves on the device *)

Lemma hoare_frame_pure {A} (P : world → Prop) (φ : Prop) (f : M A)
    (Q : A → world → Prop) :
  (φ → hoare P f Q) → hoare (λ w, P w ∧ φ) f Q.
Proof. intros H w [Hw Hφ]. apply (H Hφ), Hw. Qed.

Lemma hoare_failed {A} (P : world → Prop) (m : M A) (R : A → world → Prop)
    msg (Q : world → Prop) :
  hoare P m R →
  hoare P (bind m (λ _, ret (Failed msg))) (λ res w, res = Ok → Q w).
Proof.
  intros Hm. eapply hoare_bind; [exact Hm |].
  intros a. apply hoare_ret. intros w _ H. discriminate H.
Qed.

Lemma has_installed_keeps rs us c cmd d :
  keeps_installed cmd = true →
  has_installed rs us c d → has_installed rs us c (snd (exec cmd d)).
Proof.
  intros Hk (Hr & Hu & Hc).
  destruct cmd; try discriminate Hk; simpl;
    repeat match goal with
           | |- context [match ?x with _ => _ end] => destruct x eqn:?
           end;
    simpl;
    ((split; [| split]);
     [ intros x Hx; try (apply elem_of_cons; right); auto
     | intros x Hx; try (apply elem_of_cons; right); auto
     | intros y Hy; simpl; auto; try congruence;
       match goal with E : d_config d = _ |- _ => rewrite E; auto end ]).
Qed.

Lemma has_installed_route_add r rs us c d :
  rt_dev r ≠ "tun0" →
  has_installed rs us c d →
  has_installed (r :: rs) us c (snd (exec (RouteAdd r) d)).
Proof.
  intros Hdev (Hr & Hu & Hc). simpl. unfold dev_present.
  apply String.eqb_neq in Hdev. rewrite Hdev. cbn [andb].
  destruct (bool_decide (r ∈ d_routes d)) eqn:E; simpl.
  - apply bool_decide_eq_true in E. split; [| split]; auto.
    intros x [-> | Hx]%elem_of_cons; auto.
  - split; [| split]; auto.
    intros x [-> | Hx]%elem_of_cons; [left | right; auto].
Qed.

Lemma has_installed_rule_add u rs us c d :
  has_installed rs us c d →
  has_installed rs (u :: us) c (snd (exec (RuleAdd u) d)).
Proof.
  intros (Hr & Hu & Hc). simpl.
  destruct (bool_decide (u ∈ d_rules d)) eqn:E; simpl.
  - apply bool_decide_eq_true in E. split; [| split]; auto.
    intros x [-> | Hx]%elem_of_cons; auto.
  - split; [| split]; auto.
    intros x [-> | Hx]%elem_of_cons; [left | right; auto].
Qed.

Lemma has_installed_write y rs us d :
  has_installed rs us None d →
  has_installed rs us (Some y) (snd (exec (WriteConfig y) d)).
Proof.
  intros (Hr & Hu & _). simpl. split; [| split]; auto.
Qed.

Lemma has_installed_set_bin rs us c d b :
  has_installed rs us c d → has_installed rs us c (set_bin b d).
Proof. intros H. exact H. Qed.

Lemma has_installed_nothing d : has_installed [] [] None d.
Proof.
  split; [| split]; [intros r Hr | intros u Hu | intros y Hy];
    [apply not_elem_of_nil in Hr | apply not_elem_of_nil in Hu | discriminate Hy];
    contradiction.
Qed.

Lemma probe_dead_running d :
  Text.contains "RUNNING"
    (stdout (as_text (fst (exec (ProbeDaemon "DEAD") d)))) = true →
  daemon_running d = true.
Proof.
  rewrite (as_text_plain (ProbeDaemon "DEAD")) by reflexivity.
  simpl. destruct (daemon_running d); [reflexivity |].
  vm_compute. discriminate.
Qed.

Lemma hoare_cleanup serial (P : device → Prop) :
  hoare (on_device serial P) (_cleanup_routing serial) (λ _ _, True).
Proof.
  intros w (d & Hr & _).
  destruct (run_all_reliable serial cleanup_cmds w d Hr) as [E _].
  exists tt. split; [exact E | exact I].
Qed.

Lemma route_dev_eth0 ip : rt_dev (host_route ip) ≠ "tun0".
Proof. discriminate. Qed.

(** The steps of an apply after the descriptor is written. *)
Lemma apply_hoare serial server port username password ip :
  hoare
    (λ w, on_device serial (λ _, True) w ∧ fst (_resolve_host server w) = Val ip)
    (write_proxy_config serial server port username password)
    (λ res w, res = Ok →
       on_device serial
         (λ d, has_installed [host_route ip; default_route] [rule_main; rule_fwmark]
                 (Some (_build_tunnel_config ip port username password)) d
               ∧ daemon_running d = true) w).
Proof.
  unfold write_proxy_config.
  eapply hoare_bind
    with (R := λ a w, on_device serial (has_installed [] [] None) w ∧ a = ip).
  { eapply hoare_weaken;
      [apply (hoare_resolve server ip (on_device serial (has_installed [] [] None)))
      | | intros a w H; exact H].
    intros w [(d & Hr & _) Hip]. split; [| exact Hip].
    exists d. split; [exact Hr | apply has_installed_nothing]. }
  intros a. apply hoare_frame_pure. intros ->.
  eapply hoare_bind;
    [apply hoare_ensure_binary; intros d b H; exact H | intros have_bin].
  destruct (negb have_bin); [apply hoare_ret; intros w _ H; discriminate H |].
  eapply hoare_bind;
    [apply hoare_stable; intros d; apply has_installed_keeps; reflexivity
    | intros ?].
  eapply hoare_bind with (R := λ _, on_device serial (has_installed [] [] None)).
  { intros w (d & Hr & _).
    destruct (run_all_reliable serial cleanup_cmds w d Hr) as [E Hr'].
    exists tt. split; [exact E |].
    exists (dev_run cleanup_cmds d).
    split; [exact Hr' | apply has_installed_nothing]. }
  intros ?.
  eapply hoare_bind
    with (R := λ _, on_device serial (has_installed [] [] None)).
  { apply (hoare_adb_shell serial LinkDelTun _ (λ _, has_installed [] [] None)).
    intros d _. apply has_installed_nothing. }
  intros ?.
  eapply hoare_bind.
  { apply (hoare_adb_shell serial (RouteAdd default_route) _
             (λ _, has_installed [default_route] [] None)).
    intros d. apply has_installed_route_add. discriminate. }
  intros ?.
  eapply hoare_bind.
  { apply (hoare_adb_shell serial (WriteConfig _) _
             (λ _, has_installed [default_route] []
                     (Some (_build_tunnel_config ip port username password)))).
    intros d. apply has_installed_write. }
  intros cp.
  destruct (negb (returncode cp =? 0)); [apply hoare_ret; intros w _ H; discriminate H |].
  eapply hoare_bind;
    [apply hoare_stable; intros d; apply has_installed_keeps; reflexivity
    | intros ?].
  eapply hoare_bind;
    [apply hoare_stable; intros d; apply has_installed_keeps; reflexivity
    | intros ?].
  eapply hoare_bind; [apply hoare_wait_tun0 | intros ?].
  eapply hoare_bind;
    [apply hoare_stable; intros d; apply has_installed_keeps; reflexivity
    | intros ?].
  eapply hoare_bind.
  { apply (hoare_adb_shell serial (RouteAdd (host_route ip)) _
             (λ _, has_installed [host_route ip; default_route] []
                     (Some (_build_tunnel_config ip port username password)))).
    intros d. apply has_installed_route_add. discriminate. }
  intros ?.
  eapply hoare_bind;
    [apply hoare_stable; intros d; apply has_installed_keeps; reflexivity
    | intros ?].
  eapply hoare_bind;
    [apply hoare_stable; intros d; apply has_installed_keeps; reflexivity
    | intros ?].
  eapply hoare_bind.
  { apply (hoare_adb_shell serial (RuleAdd rule_fwmark) _
             (λ _, has_installed [host_route ip; default_route] [rule_fwmark]
                     (Some (_build_tunnel_config ip port username password)))).
    intros d. apply has_installed_rule_add. }
  intros ?.
  eapply hoare_bind.
  { apply (hoare_adb_shell serial (RuleAdd rule_main) _
             (λ _, has_installed [host_route ip; default_route]
                     [rule_main; rule_fwmark]
                     (Some (_build_tunnel_config ip port username password)))).
    intros d. apply has_installed_rule_add. }
  intros ?.
  eapply hoare_bind.
  { apply (hoare_adb_shell serial (ProbeDaemon "DEAD") _
             (λ cp d,
                has_installed [host_route ip; default_route]
                  [rule_main; rule_fwmark]
                  (Some (_build_tunnel_config ip port username password)) d
                ∧ (Text.contains "RUNNING" (stdout cp) = true →
                   daemon_running d = true))).
    intros d H. split; [exact H | apply probe_dead_running]. }
  intros cp_verify.
  destruct (Text.contains "RUNNING" (stdout cp_verify)) eqn:E; cbn [negb].
  - eapply hoare_bind
      with (R := λ _, on_device serial
         (λ d, has_installed [host_route ip; default_route] [rule_main; rule_fwmark]
                 (Some (_build_tunnel_config ip port username password)) d
               ∧ daemon_running d = true)).
    + eapply hoare_weaken; [apply hoare_geo_loop | | intros u0 w0 H; exact H].
      intros w (d & Hr & Hi & Hrun). exists d. auto.
    + intros ?. apply hoare_ret. intros w H _. exact H.
  - eapply hoare_failed. apply hoare_cleanup.
Qed.

(** On a reliable channel, an apply that returns success leaves a daemon
    that is seen running, the descriptor built from the resolved server, the
    host route of that server and the default route through the gateway and
    both rules of the tunnel; the status read next is not stopped. *)
Theorem apply_success_installs
    (serial server : string) (port : Z) (username password : string)
    (w : world) (d : device) :
  reliable serial d w →
  fst (write_proxy_config serial server port username password w) = Val Ok →
  let w' := snd (write_proxy_config serial server port username password w) in
  ∃ ip d', fst (_resolve_host server w) = Val ip
    ∧ reliable serial d' w'
    ∧ daemon_running d' = true
    ∧ d_config d' = Some (_build_tunnel_config ip port username password)
    ∧ host_route ip ∈ d_routes d'
    ∧ default_route ∈ d_routes d'
    ∧ rule_fwmark ∈ d_rules d'
    ∧ rule_main ∈ d_rules d'
    ∧ (∃ st, fst (read_vpn_status serial w') = Val st ∧ st_state st ≠ Stopped).
Proof.
  intros Hr Hok w'.
  pose proof Hok as Hok'. unfold write_proxy_config in Hok'.
  apply bind_val in Hok' as (ip & Hip & _).
  destruct (apply_hoare serial server port username password ip w) as
    (res & Eres & Hpost).
  { split; [exists d; split; [exact Hr | exact I] | exact Hip]. }
  rewrite Hok in Eres. injection Eres as <-.
  destruct (Hpost eq_refl) as (d' & Hr' & (Hroutes & Hrules & Hconf) & Hrun).
  exists ip, d'. fold w' in Hr'.
  split; [exact Hip |].
  split; [exact Hr' |]. split; [exact Hrun |].
  split; [apply Hconf; reflexivity |].
  split; [apply Hroutes; left |].
  split; [apply Hroutes; right; left |].
  split; [apply Hrules; right; left |].
  split; [apply Hrules; left |].
  destruct (read_vpn_status_reliable serial w' d' Hr') as [E _].
  eexists. split; [exact E |].
  cbn [st_state]. rewrite Hrun. destruct (d_tun d'); discriminate.
Qed.

(** ** The daemon binary *)

Lemma adb_shell_readonly serial c w :
  (∀ d, snd (exec c d) = d) →
  w_devs (snd (adb_shell serial c w)) = w_devs w
  ∧ w_push (snd (adb_shell serial c w)) = w_push w
  ∧ w_local_bin (snd (adb_shell serial c w)) = w_local_bin w.
Proof.
  intros H. unfold adb_shell.
  faults w; destruct (w_devs w !! serial) as [d|] eqn:E; simpl; auto;
    specialize (H d); destruct (exec c d) as [cp d']; simpl in *; subst d';
    rewrite insert_id by exact E; auto.
Qed.

Lemma adb_shell_push serial c w :
  w_push (snd (adb_shell serial c w)) = w_push w.
Proof.
  unfold adb_shell.
  faults w; destruct (w_devs w !! serial) as [d|]; simpl; auto;
    destruct (exec c d); reflexivity.
Qed.

(** The push loop never raises. *)
Lemma push_loop_val n serial w : ∃ b, fst (push_loop n serial w) = Val b.
Proof.
  revert w. induction n as [|n IH]; intros w; simpl; [eexists; reflexivity |].
  unfold bind, adb_push.
  destruct (w_push w) as [|[] l]; simpl; eauto.
Qed.

Lemma push_loop_false n serial w :
  fst (push_loop n serial w) = Val false →
  w_devs (snd (push_loop n serial w)) = w_devs w
  ∧ w_log (snd (push_loop n serial w)) = w_log w.
Proof.
  revert w. induction n as [|n IH]; intros w; simpl; [auto |].
  unfold bind, adb_push.
  destruct (w_push w) as [|[] l]; simpl.
  - intros H. destruct (IH w H). auto.
  - discriminate.
  - intros H. destruct (IH _ H) as [H1 H2]. simpl in H1, H2. auto.
Qed.

Lemma push_loop_bound n serial w :
  (length (w_push w) ≤ length (w_push (snd (push_loop n serial w))) + n)%nat.
Proof.
  revert w. induction n as [|n IH]; intros w; simpl; [lia |].
  unfold bind, adb_push.
  destruct (w_push w) as [|[] l]; simpl.
  - specialize (IH w). lia.
  - lia.
  - specialize (IH (with_push l w)). simpl in IH. lia.
Qed.

Lemma hoare_push_loop_result n serial d :
  hoare (on_device serial (λ x, x = d)) (push_loop n serial)
    (λ pushed w,
       on_device serial (λ x, x = if pushed then set_bin BinPushed d else d) w).
Proof.
  induction n as [|n IH]; simpl; [apply hoare_ret; auto |].
  intros w (x & [Hx Hf] & ->). unfold bind, adb_push.
  destruct (w_push w) as [|[] l] eqn:E; simpl.
  - apply IH. exists d. repeat split; assumption.
  - exists true. split; [reflexivity |].
    exists (set_bin BinPushed d). split; [split |]; simpl; auto.
    rewrite lookup_alter_eq, Hx. reflexivity.
  - apply IH. exists d. repeat split; assumption.
Qed.

Lemma ensure_binary_false serial w :
  fst (_ensure_binary serial w) = Val false →
  w_devs (snd (_ensure_binary serial w)) = w_devs w
  ∧ w_log (snd (_ensure_binary serial w)) = (serial, TestBin) :: w_log w.
Proof.
  unfold _ensure_binary, bind, ret, isfile_local.
  pose proof (adb_shell_log serial TestBin w) as Hlog.
  destruct (adb_shell_readonly serial TestBin w) as (Hdevs & Hpush & Hbin);
    [intros x; simpl; destruct (d_bin x); reflexivity |].
  destruct (adb_shell serial TestBin w) as [[cp|e] w1];
    [| cbn [fst]; discriminate].
  cbn [fst snd] in Hlog, Hdevs, Hpush, Hbin |- *.
  destruct (_ && _); [cbn [fst]; discriminate |].
  destruct (negb (w_local_bin w1)); [intros _; cbn [snd]; auto |].
  pose proof (push_loop_false 3 serial w1) as Hpl.
  destruct (push_loop 3 serial w1) as [[[]|e] w2]; cbn [fst snd] in Hpl |- *.
  - destruct (adb_shell serial ChmodBin w2) as [[?|?] ?]; cbn [fst]; discriminate.
  - intros _. destruct Hpl as [H1 H2]; [reflexivity |]. split; congruence.
  - discriminate.
Qed.

(** [_ensure_binary]: when it fails it has changed no device and sent only
    the test for the binary; it never pushes more than three times; and when it
    succeeds on a reliable channel the binary on the device is executable
    and nothing else about the device has changed. *)
Theorem ensure_binary_outcomes (serial : string) (w : world) (d : device) :
  (fst (_ensure_binary serial w) = Val false →
     w_devs (snd (_ensure_binary serial w)) = w_devs w
     ∧ w_log (snd (_ensure_binary serial w)) = (serial, TestBin) :: w_log w)
  ∧ (length (w_push w)
       ≤ length (w_push (snd (_ensure_binary serial w))) + 3)%nat
  ∧ (reliable serial d w → fst (_ensure_binary serial w) = Val true →
     reliable serial (set_bin BinExec d) (snd (_ensure_binary serial w))).
Proof.
  split; [apply ensure_binary_false |].
  unfold _ensure_binary, bind, ret, isfile_local.
  pose proof (adb_shell_log serial TestBin w) as Hlog.
  destruct (adb_shell_readonly serial TestBin w) as (Hdevs & Hpush & Hbin);
    [intros x; simpl; destruct (d_bin x); reflexivity |].
  split.
  - destruct (adb_shell serial TestBin w) as [[cp|e] w1];
      cbn [fst snd] in Hlog, Hdevs, Hpush, Hbin |- *; rewrite <- Hpush;
      [| lia].
    destruct (_ && _); [cbn [snd]; lia |].
    destruct (negb (w_local_bin w1)); [cbn [snd]; lia |].
    pose proof (push_loop_bound 3 serial w1) as Hb.
    destruct (push_loop 3 serial w1) as [[[]|e] w2]; cbn [fst snd] in Hb |- *.
    + pose proof (adb_shell_push serial ChmodBin w2) as Hp.
      destruct (adb_shell serial ChmodBin w2) as [[?|?] ?];
        cbn [fst snd] in Hp |- *; rewrite Hp; lia.
    + lia.
    + lia.
  - intros Hr.
    destruct (adb_shell_reliable serial TestBin w d Hr) as [E Hr1].
    destruct (adb_shell serial TestBin w) as [cp w1].
    cbn [fst] in E. cbn [snd exec] in Hr1. subst cp.
    rewrite (as_text_plain TestBin) by reflexivity.
    assert (Hpushed :
              fst (let (o, w') := push_loop 3 serial w1 in
                   match o with
                   | Val pushed =>
                       (if pushed
                        then λ w0, let (o0, w'0) := adb_shell serial ChmodBin w0 in
                                   match o0 with
                                   | Val _ => (Val true, w'0)
                                   | Raise e => (Raise e, w'0)
                                   end
                        else λ w0, (Val false, w0)) w'
                   | Raise e => (Raise e, w')
                   end) = Val true →
              reliable serial (set_bin BinExec d)
                (snd (let (o, w') := push_loop 3 serial w1 in
                      match o with
                      | Val pushed =>
                          (if pushed
                           then λ w0, let (o0, w'0) := adb_shell serial ChmodBin w0 in
                                      match o0 with
                                      | Val _ => (Val true, w'0)
                                      | Raise e => (Raise e, w'0)
                                      end
                           else λ w0, (Val false, w0)) w'
                      | Raise e => (Raise e, w')
                      end))).
    { destruct (hoare_push_loop_result 3 serial d w1) as (b & Eb & Hpl);
        [exists d; auto |].
      destruct (push_loop 3 serial w1) as [o w2]; cbn [fst snd] in Eb, Hpl |- *.
      subst o. destruct b; [| discriminate].
      destruct Hpl as (x & Hx & ->).
      destruct (adb_shell_reliable serial ChmodBin w2 _ Hx) as [E2 Hr2].
      destruct (adb_shell serial ChmodBin w2) as [o2 w3].
      cbn [fst snd] in E2, Hr2 |- *. subst o2. cbn [fst snd].
      intros _. exact Hr2. }
    cbn [exec fst snd].
    destruct (d_bin d) eqn:Eb; cbn [returncode stdout done_ok done_fail].
    + cbn [Z.eqb andb fst snd].
      destruct (negb (w_local_bin w1)); [cbn [fst]; discriminate | exact Hpushed].
    + cbn [Z.eqb andb fst snd].
      destruct (negb (w_local_bin w1)); [cbn [fst]; discriminate | exact Hpushed].
    + replace (Text.contains "OK" ("OK" +:+ Text.nl)) with true
        by (vm_compute; reflexivity).
      cbn [Z.eqb andb fst snd]. intros _.
      replace (set_bin BinExec d) with d; [exact Hr1 |].
      destruct d; simpl in Eb; subst; reflexivity.
Qed.

(** An apply that fails for want of the binary has changed no device: the
    only command it sent is the test for the binary, before anything of a
    running tunnel is touched. *)
Theorem apply_without_binary_is_harmless
    (serial server : string) (port : Z) (username password : string) (w : world) :
  fst (write_proxy_config serial server port username password w)
    = Val (Failed "Failed to push tunnel binary to device") →
  w_devs (snd (write_proxy_config serial server port username password w))
    = w_devs w
  ∧ w_log (snd (write_proxy_config serial server port username password w))
    = (serial, TestBin) :: w_log w.
Proof.
  destruct (write_proxy_config serial server port username password w)
    as [res w'] eqn:E.
  cbn [fst snd]. intros ->.
  unfold write_proxy_config in E. unfold bind at 1 in E.
  pose proof (resolve_host_world server w) as Hw.
  destruct (_resolve_host server w) as [[ip|e] w0]; cbn [snd] in Hw; subst w0;
    [| discriminate E].
  unfold bind at 1 in E.
  pose proof (ensure_binary_false serial w) as Hf.
  destruct (_ensure_binary serial w) as [[[]|e] w1]; cbn [negb fst snd] in Hf, E.
  - exfalso. apply (f_equal fst) in E. cbn [fst] in E. revert E.
    mrun; intros H; discriminate H.
  - injection E as <-. apply Hf. reflexivity.
  - discriminate E.
Qed.

(** ** A device that does not answer *)

Lemma partial_ret {A} (P : world → Prop) (a : A) (Q : A → world → Prop) :
  (∀ w, P w → Q a w) → partial P (ret a) Q.
Proof. intros H w a' Hw [= <-]. apply H, Hw. Qed.

Lemma partial_bind {A B} (P : world → Prop) (m : M A) (R : A → world → Prop)
    (k : A → M B) (Q : B → world → Prop) :
  partial P m R → (∀ a, partial (R a) (k a) Q) → partial P (bind m k) Q.
Proof.
  intros Hm Hk w b Hw. unfold bind. specialize (Hm w).
  destruct (m w) as [[a|e] w1]; [| discriminate].
  apply (Hk a w1), (Hm a Hw eq_refl).
Qed.

Lemma partial_frame_pure {A} (P : world → Prop) (φ : Prop) (f : M A)
    (Q : A → world → Prop) :
  (φ → partial P f Q) → partial (λ w, P w ∧ φ) f Q.
Proof. intros H w a [Hw Hφ]. apply (H Hφ), Hw. Qed.

Lemma adb_shell_unreachable serial c w :
  unreachable serial w →
  unreachable serial (snd (adb_shell serial c w))
  ∧ ∀ cp, fst (adb_shell serial c w) = Val cp →
          returncode cp = 1 ∧ stdout cp = "".
Proof.
  unfold unreachable, adb_shell. intros H. rewrite H.
  destruct (w_faults w) as [|[| |e] fs]; cbn [fst snd w_devs with_faults with_log];
    (split; [exact H |]); intros cp E; try discriminate E;
    injection E as <-; auto.
Qed.

Lemma partial_unreachable serial c :
  partial (unreachable serial) (adb_shell serial c)
    (λ cp w, unreachable serial w ∧ returncode cp = 1 ∧ stdout cp = "").
Proof.
  intros w cp Hw E. destruct (adb_shell_unreachable serial c w Hw) as [H1 H2].
  split; [exact H1 | apply H2, E].
Qed.

Lemma partial_unreachable_any serial c :
  partial (unreachable serial) (adb_shell serial c) (λ _, unreachable serial).
Proof. intros w cp Hw _. apply (adb_shell_unreachable serial c w Hw). Qed.

Lemma partial_unreachable_run_all serial cs :
  partial (unreachable serial) (run_all serial cs) (λ _, unreachable serial).
Proof.
  induction cs as [|c cs IH]; simpl; [apply partial_ret; auto |].
  eapply partial_bind; [apply partial_unreachable_any | intros ?; exact IH].
Qed.

Lemma partial_unreachable_push_loop n serial :
  partial (unreachable serial) (push_loop n serial) (λ _, unreachable serial).
Proof.
  induction n as [|n IH]; simpl; [apply partial_ret; auto |].
  eapply partial_bind with (R := λ _, unreachable serial).
  - intros w b Hw _. unfold adb_push, unreachable in *.
    destruct (w_push w) as [|[] l]; simpl; auto.
    rewrite lookup_alter_eq, Hw. reflexivity.
  - intros []; [apply partial_ret; auto | exact IH].
Qed.

Lemma partial_unreachable_ensure serial :
  partial (unreachable serial) (_ensure_binary serial) (λ _, unreachable serial).
Proof.
  unfold _ensure_binary.
  eapply partial_bind; [apply partial_unreachable_any | intros cp].
  destruct (_ && _); [apply partial_ret; auto |].
  eapply partial_bind with (R := λ _, unreachable serial);
    [intros w b Hw _; exact Hw | intros have_local].
  destruct (negb have_local); [apply partial_ret; auto |].
  eapply partial_bind; [apply partial_unreachable_push_loop |].
  intros []; [| apply partial_ret; auto].
  eapply partial_bind; [apply partial_unreachable_any |].
  intros ?. apply partial_ret. auto.
Qed.

Lemma apply_unreachable serial server port username password :
  partial (unreachable serial)
    (write_proxy_config serial server port username password)
    (λ res _, res ≠ Ok).
Proof.
  unfold write_proxy_config.
  eapply partial_bind with (R := λ _, unreachable serial).
  { intros w ip Hw _. rewrite resolve_host_world. exact Hw. }
  intros ip.
  eapply partial_bind; [apply partial_unreachable_ensure | intros have_bin].
  destruct (negb have_bin); [apply partial_ret; discriminate |].
  eapply partial_bind; [apply partial_unreachable_any | intros ?].
  eapply partial_bind; [apply partial_unreachable_run_all | intros ?].
  eapply partial_bind; [apply partial_unreachable_any | intros ?].
  eapply partial_bind; [apply partial_unreachable_any | intros ?].
  eapply partial_bind; [apply partial_unreachable | intros cp].
  apply partial_frame_pure. intros [Hrc _]. rewrite Hrc. cbn [Z.eqb negb].
  apply partial_ret. discriminate.
Qed.

Lemma read_vpn_status_unreachable serial :
  partial (unreachable serial) (read_vpn_status serial)
    (λ st _, st = {| st_state := Stopped; st_server := "" |}).
Proof.
  unfold read_vpn_status.
  eapply partial_bind; [apply partial_unreachable | intros cp1].
  apply partial_frame_pure. intros [Hrc _]. rewrite Hrc. cbn [Z.eqb andb].
  eapply partial_bind with (R := λ state w, unreachable serial w ∧ state = Stopped);
    [apply partial_ret; auto | intros state].
  apply partial_frame_pure. intros ->.
  eapply partial_bind; [apply partial_unreachable | intros cp2].
  apply partial_frame_pure. intros [Hrc2 _].
  apply partial_ret. intros w _.
  rewrite parse_server_unreadable by (left; rewrite Hrc2; discriminate).
  reflexivity.
Qed.

(** When nothing answers under the serial, whatever else the channel does:
    the status read, unless adb raises, is stopped with an empty server,
    not unknown; an apply never reports success; and the poll loop skips
    the instance, only forgetting when it saw it boot. *)
Theorem unreachable_device
    (inst : instance) (server : string) (port : Z) (username password : string)
    (m : manager) (w : world) :
  unreachable (inst_serial inst) w →
  (∀ st, fst (read_vpn_status (inst_serial inst) w) = Val st →
         st = {| st_state := Stopped; st_server := "" |})
  ∧ (no_raise (w_faults w) →
     fst (read_vpn_status (inst_serial inst) w)
       = Val {| st_state := Stopped; st_server := "" |})
  ∧ fst (write_proxy_config (inst_serial inst) server port username password w)
    ≠ Val Ok
  ∧ fst (poll_instance inst m w)
    = with_boot_ready (delete (inst_name inst) (_boot_ready m)) m.
Proof.
  intros Hu.
  assert (Hst : ∀ st, fst (read_vpn_status (inst_serial inst) w) = Val st →
                      st = {| st_state := Stopped; st_server := "" |})
    by (intros st E; exact (read_vpn_status_unreachable (inst_serial inst) w st Hu E)).
  split; [exact Hst |]. split; [| split].
  - intros Hn.
    destruct (read_vpn_status_returns (inst_serial inst) w Hn) as (st & E & _).
    rewrite E. f_equal. apply Hst, E.
  - intros E.
    exact (apply_unreachable (inst_serial inst) server port username password
             w Ok Hu E eq_refl).
  - unfold poll_instance.
    destruct (adb_shell_unreachable _ GetpropBoot w Hu) as (_ & Hcp).
    destruct (adb_shell _ GetpropBoot w) as [[cp|e] w1]; [| reflexivity].
    destruct (Hcp cp eq_refl) as [Hrc _]. rewrite Hrc. reflexivity.
Qed.

(** ** The poll loop *)

Lemma adb_shell_clock serial c w :
  w_clock (snd (adb_shell serial c w)) = w_clock w
  ∧ w_tick (snd (adb_shell serial c w)) = w_tick w.
Proof.
  unfold adb_shell.
  faults w; destruct (w_devs w !! serial) as [d|]; simpl; auto;
    destruct (exec c d); auto.
Qed.

(** While the boot probe raises or fails, before the boot was first seen,
    and for 30 seconds after that, a pass of the poll loop sends the device
    nothing but the boot probe and leaves the cached statuses, the reconnect
    states, the registry and the event log as they are. *)
Theorem poll_boot_gate (inst : instance) (m : manager) (w : world) :
  let boot := fst (adb_shell (inst_serial inst) GetpropBoot w) in
  let now := w_clock w (w_tick w) in
  (∃ e, boot = Raise e)
  ∨ (∃ boot_cp, boot = Val boot_cp
       ∧ (returncode boot_cp ≠ 0 ∨ Text.contains "1" (stdout boot_cp) = false))
  ∨ _boot_ready m !! inst_name inst = None
  ∨ (∃ t0, _boot_ready m !! inst_name inst = Some t0 ∧ now - t0 < 30) →
  let m' := fst (poll_instance inst m w) in
  let w' := snd (poll_instance inst m w) in
  w_log w' = (inst_serial inst, GetpropBoot) :: w_log w
  ∧ _statuses m' = _statuses m
  ∧ _reconnect_state m' = _reconnect_state m
  ∧ _always_on m' = _always_on m
  ∧ events m' = events m.
Proof.
  intros boot now Hgate. subst boot now. unfold poll_instance.
  pose proof (adb_shell_log (inst_serial inst) GetpropBoot w) as Hlog.
  destruct (adb_shell_clock (inst_serial inst) GetpropBoot w) as [Hck Htk].
  destruct (adb_shell (inst_serial inst) GetpropBoot w) as [[cp|e] w1];
    cbn [fst snd] in Hlog, Hck, Htk, Hgate; [| cbn [fst snd]; auto].
  destruct (negb (returncode cp =? 0) || negb (Text.contains "1" (stdout cp))) eqn:Eb.
  { cbn [fst snd]. auto. }
  apply orb_false_iff in Eb as [E1 E2].
  apply negb_false_iff in E1, E2. apply Z.eqb_eq in E1.
  destruct Hgate as [(e & H) | [(cp' & [= <-] & [H | H]) | [H | (t0 & H & Hlt)]]];
    [discriminate H | contradiction | congruence | |].
  - rewrite H. unfold time_time. cbn [fst snd]. auto.
  - rewrite H. unfold time_time. rewrite Hck, Htk.
    destruct (Z.ltb_spec (w_clock w (w_tick w) - t0) 30); [| lia].
    cbn [fst snd]. auto.
Qed.

Lemma reconnect_branch_kill_switch inst cfg m w :
  _kill_switch (fst (reconnect_branch inst cfg m w)) = _kill_switch m.
Proof.
  unfold reconnect_branch.
  destruct (time_time w) as [now w1].
  destruct (reconnect_decide _ now) as [[] rs']; try reflexivity.
  match goal with |- context [apply_proxy ?a ?b ?c ?d ?e ?f ?g ?h] =>
    pose proof (apply_proxy_registries a b c d e f g h) as (_ & Hk & _);
    destruct (apply_proxy a b c d e f g h) as [[[res|err] m2] w2] end;
    simpl in Hk; [| exact Hk].
  destruct (result_ok res); [| exact Hk].
  destruct (bool_decide _); exact Hk.
Qed.

Lemma poll_instance_kill_switch inst m w :
  _kill_switch (fst (poll_instance inst m w)) = _kill_switch m.
Proof.
  unfold poll_instance.
  destruct (adb_shell _ GetpropBoot w) as [[boot_cp|e] w1]; [| reflexivity].
  destruct (_ || _); [reflexivity |].
  destruct (_boot_ready m !! inst_name inst) as [t0|];
    destruct (time_time w1) as [t w2]; [| reflexivity].
  destruct (_ <? 30); [reflexivity |].
  destruct (read_vpn_status _ w2) as [[st|e] w3]; [| reflexivity].
  destruct (bool_decide (_statuses m !! inst_name inst ≠ Some st)); simpl;
    destruct (st_state st); try reflexivity;
    destruct (_always_on m !! inst_name inst); try reflexivity;
    rewrite reconnect_branch_kill_switch; reflexivity.
Qed.

(** However long it runs and whatever the devices do, the poll loop never
    changes the always-on registry or the kill-switch set. *)
Theorem poll_loop_keeps_registries
    (n : nat) (instances : list instance) (m : manager) (w : world) :
  _always_on (fst (_poll_loop n instances m w)) = _always_on m
  ∧ _kill_switch (fst (_poll_loop n instances m w)) = _kill_switch m.
Proof.
  assert (Hcycle : ∀ l m0 w0,
            _always_on (fst (poll_cycle l m0 w0)) = _always_on m0
            ∧ _kill_switch (fst (poll_cycle l m0 w0)) = _kill_switch m0).
  { induction l as [|inst l IH]; intros m0 w0; simpl; [auto |].
    pose proof (poll_instance_always_on inst m0 w0) as Ha.
    pose proof (poll_instance_kill_switch inst m0 w0) as Hk.
    destruct (poll_instance inst m0 w0) as [m1 w1]. simpl in Ha, Hk.
    destruct (IH m1 w1) as [Ha' Hk']. split; congruence. }
  revert m w. induction n as [|n IH]; intros m w; simpl; [auto |].
  destruct (Hcycle instances m w) as [Ha Hk].
  destruct (poll_cycle instances m w) as [m1 w1]. simpl in Ha, Hk.
  destruct (IH m1 w1) as [Ha' Hk']. split; congruence.
Qed.

Lemma reconnect_decide_given_up rs now :
  (_RECONNECT_MAX_ATTEMPTS < attempts rs)%nat →
  reconnect_decide rs now = (GiveUpSilent, rs).
Proof.
  intros H. unfold reconnect_decide.
  destruct (Nat.leb_spec _RECONNECT_MAX_ATTEMPTS (attempts rs)); [| lia].
  destruct (Nat.eqb_spec (attempts rs) _RECONNECT_MAX_ATTEMPTS); [lia | reflexivity].
Qed.

Lemma reconnect_branch_given_up inst cfg m w :
  given_up m (inst_name inst) →
  fst (reconnect_branch inst cfg m w) = m.
Proof.
  intros (rs & Hrs & Hgt). unfold reconnect_branch.
  destruct (time_time w) as [now w1]. rewrite Hrs. cbn [default].
  rewrite reconnect_decide_given_up by exact Hgt. reflexivity.
Qed.

(** An instance that has given up is not tried again by a pass of the poll
    loop, also not right after always-on was registered anew or disabled for
    it: the log gains no reconnect attempt for it, and its state stays given
    up unless the pass saw the tunnel connected and dropped the state. *)
Theorem given_up_is_not_revived
    (inst : instance) (cfg : option proxy_config) (m : manager) (w : world)
    (name : string) :
  given_up m name →
  let m' := fst (poll_instance inst (set_always_on name cfg m) w) in
  count_reconnects name (events m') = count_reconnects name (events m)
  ∧ (given_up m' name ∨ _reconnect_state m' !! name = None).
Proof.
  intros Hg m'. subst m'.
  set (m0 := set_always_on name cfg m).
  assert (Hg0 : given_up m0 name) by (destruct cfg; exact Hg).
  assert (He0 : events m0 = events m) by (destruct cfg; reflexivity).
  rewrite <- He0. clearbody m0. clear Hg He0 m.
  unfold poll_instance.
  destruct (adb_shell _ GetpropBoot w) as [[boot_cp|e] w1];
    [| split; [reflexivity | left; exact Hg0]].
  destruct (_ || _); [split; [reflexivity | left; exact Hg0] |].
  destruct (_boot_ready m0 !! inst_name inst) as [t0|];
    destruct (time_time w1) as [t w2];
    [| split; [reflexivity | left; exact Hg0]].
  destruct (_ <? 30); [split; [reflexivity | left; exact Hg0] |].
  destruct (read_vpn_status _ w2) as [[st|e] w3];
    [| split; [reflexivity | left; exact Hg0]].
  set (m2 := if bool_decide (_statuses m0 !! inst_name inst ≠ Some st)
             then emit (StatusChange (inst_name inst) st)
                    (with_statuses (<[inst_name inst:=st]> (_statuses m0)) m0)
             else with_statuses (<[inst_name inst:=st]> (_statuses m0)) m0).
  assert (Hg2 : given_up m2 name)
    by (subst m2; destruct (bool_decide _); exact Hg0).
  assert (He2 : count_reconnects name (events m2) = count_reconnects name (events m0))
    by (subst m2; destruct (bool_decide _); reflexivity).
  assert (Ha2 : _always_on m2 = _always_on m0)
    by (subst m2; destruct (bool_decide _); reflexivity).
  rewrite <- He2. clearbody m2.
  destruct (st_state st).
  - cbn [fst events with_reconnect_state _reconnect_state].
    split; [reflexivity |].
    destruct (decide (inst_name inst = name)) as [-> | Hne].
    + right. apply lookup_delete_eq.
    + left. destruct Hg2 as (rs & Hrs & Hgt). exists rs.
      cbn [fst _reconnect_state with_reconnect_state].
      rewrite lookup_delete_ne by exact Hne. auto.
  - destruct (_always_on m2 !! inst_name inst); split; try reflexivity; left; exact Hg2.
  - destruct (_always_on m2 !! inst_name inst) as [c|];
      [| split; [reflexivity | left; exact Hg2]].
    destruct (decide (inst_name inst = name)) as [E | Hne].
    + rewrite reconnect_branch_given_up by (rewrite E; exact Hg2).
      split; [reflexivity | left; exact Hg2].
    + split; [apply reconnect_branch_other, Hne |].
      left. destruct Hg2 as (rs & Hrs & Hgt). exists rs.
      rewrite reconnect_branch_entries by congruence. auto.
  - destruct (_always_on m2 !! inst_name inst); split; try reflexivity; left; exact Hg2.
Qed.

Lemma read_vpn_status_sends serial :
  sends_only (λ c, c ∈ status_cmds) (read_vpn_status serial).
Proof.
  unfold read_vpn_status, status_cmds.
  apply sends_only_bind;
    [apply sends_only_adb_shell; right; left | intros cp1].
  apply sends_only_bind.
  - destruct (_ && _); [| apply sends_only_ret].
    apply sends_only_bind;
      [apply sends_only_adb_shell; right; right; left | intros cp2].
    destruct (_ && _); apply sends_only_ret.
  - intros st. apply sends_only_bind;
      [apply sends_only_adb_shell; right; right; right; left | intros cp3].
    apply sends_only_ret.
Qed.

(** On a reliable channel, a pass of the poll loop over an instance whose
    daemon is seen running sends only the boot probe and the three commands
    of the status read, leaves the device as it is and logs no reconnect
    attempt for any instance. *)
Theorem poll_leaves_running_tunnel
    (inst : instance) (m : manager) (w : world) (d : device) :
  reliable (inst_serial inst) d w →
  daemon_running d = true →
  let m' := fst (poll_instance inst m w) in
  let w' := snd (poll_instance inst m w) in
  reliable (inst_serial inst) d w'
  ∧ (∃ l, w_log w' = l ++ w_log w ∧ Forall (λ x, snd x ∈ status_cmds) l)
  ∧ (∀ name, count_reconnects name (events m') = count_reconnects name (events m)).
Proof.
  intros Hr Hrun m' w'. subst m' w'. unfold poll_instance.
  pose proof (adb_shell_log (inst_serial inst) GetpropBoot w) as Hlog.
  destruct (adb_shell_reliable (inst_serial inst) GetpropBoot w d Hr) as [E1 Hr1].
  destruct (adb_shell (inst_serial inst) GetpropBoot w) as [o w1].
  cbn [fst snd exec] in Hlog, Hr1, E1. subst o.
  assert (Hsent1 : ∃ l, w_log w1 = l ++ w_log w ∧ Forall (λ x, snd x ∈ status_cmds) l).
  { exists [(inst_serial inst, GetpropBoot)]. split; [exact Hlog |].
    constructor; [left | constructor]. }
  destruct (_ || _); [cbn [fst snd]; auto |].
  assert (Htime : ∀ t w2, time_time w1 = (t, w2) →
            reliable (inst_serial inst) d w2 ∧ w_log w2 = w_log w1).
  { intros t w2 [= _ <-]. destruct Hr1 as [H1 H2]. repeat split; assumption. }
  destruct (_boot_ready m !! inst_name inst) as [t0|];
    destruct (time_time w1) as [t w2] eqn:Et;
    destruct (Htime t w2 eq_refl) as [Hr2 Hlog2];
    [| cbn [fst snd]; rewrite Hlog2; auto].
  destruct (_ <? 30); [cbn [fst snd]; rewrite Hlog2; auto |].
  destruct (read_vpn_status_reliable (inst_serial inst) w2 d Hr2) as [Est Hr3].
  destruct (read_vpn_status_sends (inst_serial inst) w2) as (l3 & Hlog3 & Hall3).
  destruct (read_vpn_status (inst_serial inst) w2) as [o3 w3].
  cbn [fst snd] in Est, Hr3, Hlog3. rewrite Hrun in Est. subst o3.
  assert (Hsent3 : ∃ l, w_log w3 = l ++ w_log w ∧ Forall (λ x, snd x ∈ status_cmds) l).
  { destruct Hsent1 as (l1 & E1 & F1). exists (l3 ++ l1). split.
    - rewrite Hlog3, Hlog2, E1. apply app_assoc.
    - apply Forall_app. split; assumption. }
  destruct (bool_decide _); destruct (d_tun d); cbn [st_state fst snd];
    try match goal with
        | |- context [_always_on ?x !! ?y] => destruct (_always_on x !! y)
        end;
    cbn [fst snd];
    (split; [exact Hr3 | split; [exact Hsent3 | intros name; reflexivity]]).
Qed.

(** ** The list of polled instances *)

Lemma dict_get_set name inst l :
  dict_get name (dict_set inst l)
  = if String.eqb (inst_name inst) name then Some inst else dict_get name l.
Proof.
  induction l as [|x l IH]; simpl.
  - reflexivity.
  - destruct (String.eqb_spec (inst_name x) (inst_name inst)) as [E | E]; simpl.
    + rewrite E. destruct (String.eqb (inst_name inst) name); reflexivity.
    + rewrite IH.
      destruct (String.eqb_spec (inst_name x) name) as [E1 | E1];
        destruct (String.eqb_spec (inst_name inst) name) as [E2 | E2];
        congruence.
Qed.

Lemma dict_get_app name l1 l2 :
  dict_get name (l1 ++ l2)
  = match dict_get name l1 with Some i => Some i | None => dict_get name l2 end.
Proof.
  induction l1 as [|x l1 IH]; simpl; [reflexivity |].
  destruct (String.eqb (inst_name x) name); [reflexivity | exact IH].
Qed.

Lemma dict_get_update name l d :
  dict_get name (dict_update l d)
  = match last_named name l with Some i => Some i | None => dict_get name d end.
Proof.
  unfold dict_update, last_named. revert d.
  induction l as [|x l IH]; intros d; simpl; [reflexivity |].
  rewrite IH, dict_get_app, dict_get_set. simpl.
  destruct (dict_get name (rev l)); [reflexivity |].
  destruct (String.eqb (inst_name x) name); reflexivity.
Qed.

Lemma dict_set_names inst l name :
  name ∈ (inst_name <$> dict_set inst l)
  ↔ name = inst_name inst ∨ name ∈ (inst_name <$> l).
Proof.
  induction l as [|x l IH]; simpl.
  - rewrite list_elem_of_singleton. pose proof (not_elem_of_nil name). tauto.
  - destruct (String.eqb_spec (inst_name x) (inst_name inst)) as [E | E];
      cbn [fmap list_fmap]; rewrite !elem_of_cons; [rewrite E; tauto |].
    change (list_fmap instance string inst_name (dict_set inst l))
      with (inst_name <$> dict_set inst l).
    rewrite IH. tauto.
Qed.

Lemma dict_set_nodup inst l :
  NoDup (inst_name <$> l) → NoDup (inst_name <$> dict_set inst l).
Proof.
  induction l as [|x l IH]; simpl; intros Hnd.
  - apply NoDup_singleton.
  - apply NoDup_cons in Hnd as [Hx Hl].
    destruct (String.eqb_spec (inst_name x) (inst_name inst)) as [E | E];
      cbn [fmap list_fmap]; apply NoDup_cons.
    + rewrite <- E. split; assumption.
    + split; [| apply IH, Hl].
      change (list_fmap instance string inst_name (dict_set inst l))
        with (inst_name <$> dict_set inst l).
      rewrite dict_set_names. intros [H | H]; [congruence | contradiction].
Qed.

Lemma dict_update_nodup l d :
  NoDup (inst_name <$> d) → NoDup (inst_name <$> dict_update l d).
Proof.
  unfold dict_update. revert d. induction l as [|x l IH]; intros d Hd; simpl;
    [exact Hd | apply IH, dict_set_nodup, Hd].
Qed.

Lemma dict_update_names l d name :
  name ∈ (inst_name <$> dict_update l d)
  ↔ name ∈ (inst_name <$> l) ∨ name ∈ (inst_name <$> d).
Proof.
  unfold dict_update. revert d. induction l as [|x l IH]; intros d; simpl.
  - pose proof (not_elem_of_nil name). cbn [fmap list_fmap]. tauto.
  - rewrite IH, dict_set_names. cbn [fmap list_fmap]. rewrite elem_of_cons. tauto.
Qed.

(** With a live poller, [start_polling] keeps one instance per name: every
    name polled before or given now is polled afterwards and no other; under
    a name given now the instance given last is polled, under any other name
    the one polled before.  Without a live poller the given list replaces
    the polled one as it is. *)
Theorem start_polling_merges (current new : list instance) :
  let merged := start_polling true current new in
  NoDup (inst_name <$> merged)
  ∧ (∀ name, name ∈ (inst_name <$> merged)
             ↔ name ∈ (inst_name <$> current) ∨ name ∈ (inst_name <$> new))
  ∧ (∀ name, dict_get name merged
             = match last_named name new with
               | Some i => Some i
               | None => last_named name current
               end)
  ∧ start_polling false current new = new.
Proof.
  unfold start_polling. repeat split.
  - apply dict_update_nodup, dict_update_nodup. constructor.
  - rewrite !dict_update_names. pose proof (not_elem_of_nil name).
    cbn [fmap list_fmap] in *. tauto.
  - rewrite !dict_update_names. pose proof (not_elem_of_nil name).
    cbn [fmap list_fmap] in *. tauto.
  - intros name. rewrite !dict_get_update. simpl.
    destruct (last_named name new); [reflexivity |].
    destruct (last_named name current); reflexivity.
Qed.


(** ** Disconnecting several instances *)

Lemma untouched_refl m name : untouched m m name.
Proof. repeat split; auto. Qed.

Lemma untouched_trans m1 m2 m3 name :
  untouched m1 m2 name → untouched m2 m3 name → untouched m1 m3 name.
Proof.
  intros (H1 & H2 & H3) (H4 & H5 & H6). unfold untouched.
  rewrite H4, H1, H5, H2, H6, H3. repeat split; auto.
Qed.

Lemma cancelled_untouched m m' name :
  cancelled m name → untouched m m' name → cancelled m' name.
Proof.
  intros (H1 & H2 & H3) (H4 & H5 & H6). unfold cancelled.
  rewrite H4, H5, H6. auto.
Qed.

Lemma disconnect_cancelled name serial m w r :
  fst (fst (disconnect name serial m w)) = Val r →
  cancelled (snd (fst (disconnect name serial m w))) name
  ∧ ∀ other, other ≠ name →
      untouched m (snd (fst (disconnect name serial m w))) other.
Proof.
  intros E. destruct (disconnect_registries name serial m w r E) as (Ha & Hk & Hs & _).
  split.
  - unfold cancelled. rewrite Ha, Hk, Hs, lookup_delete_eq, lookup_insert_eq.
    repeat split; auto.
    intros [_ Hn]%elem_of_difference. apply Hn, elem_of_singleton. reflexivity.
  - intros other Hne. unfold untouched.
    rewrite Ha, Hk, Hs, lookup_delete_ne, lookup_insert_ne by congruence.
    repeat split; auto.
    + intros [H _]%elem_of_difference. exact H.
    + intros H. apply elem_of_difference. split; [exact H |].
      intros ->%elem_of_singleton. congruence.
Qed.

Lemma disconnect_all_from_spec instances :
  ∀ results m w,
  let r := disconnect_all_from instances results m w in
  match fst (fst r) with
  | Val results' =>
      (∀ name, name ∈ (inst_name <$> instances) →
         results' !! name = Some Ok ∧ cancelled (snd (fst r)) name)
      ∧ (∀ name, name ∉ (inst_name <$> instances) →
         results' !! name = results !! name ∧ untouched m (snd (fst r)) name)
  | Raise _ =>
      ∃ done inst rest, instances = done ++ inst :: rest
        ∧ (∀ name, name ∈ (inst_name <$> done) → cancelled (snd (fst r)) name)
        ∧ (∀ name, name ∉ (inst_name <$> done) → untouched m (snd (fst r)) name)
  end.
Proof.
  induction instances as [|inst rest IH]; intros results m w; cbn zeta.
  - cbn [disconnect_all_from fst snd]. split.
    + intros name Hin. apply not_elem_of_nil in Hin. contradiction.
    + intros name _. split; [reflexivity | apply untouched_refl].
  - cbn [disconnect_all_from].
    destruct (fst (fst (disconnect (inst_name inst) (inst_serial inst) m w)))
      as [r0|e0] eqn:E0.
    + destruct (disconnect_cancelled _ _ m w r0 E0) as [Hc Hu].
      assert (r0 = Ok) as -> by (eapply disconnect_value_ok; exact E0).
      destruct (disconnect (inst_name inst) (inst_serial inst) m w)
        as [[o m1] w1]. cbn [fst snd] in E0, Hc, Hu. subst o.
      specialize (IH (<[inst_name inst := Ok]> results) m1 w1). cbn zeta in IH.
      destruct (disconnect_all_from rest (<[inst_name inst := Ok]> results) m1 w1)
        as [[[results'|e] m'] w']; cbn [fst snd] in IH |- *.
      * destruct IH as [IHin IHout]. split.
        -- intros name Hin. cbn [fmap list_fmap] in Hin.
           destruct (decide (name ∈ (inst_name <$> rest))) as [Hr | Hr];
             [apply IHin, Hr |].
           apply elem_of_cons in Hin as [-> | Hin]; [| contradiction].
           destruct (IHout _ Hr) as [H1 H2].
           rewrite H1, lookup_insert_eq.
           split; [reflexivity | exact (cancelled_untouched _ _ _ Hc H2)].
        -- intros name Hout. cbn [fmap list_fmap] in Hout.
           apply not_elem_of_cons in Hout as [Hne Hout].
           destruct (IHout _ Hout) as [H1 H2].
           rewrite H1, lookup_insert_ne by congruence.
           split; [reflexivity |].
           exact (untouched_trans _ _ _ _ (Hu _ Hne) H2).
      * destruct IH as (done & i & rest' & -> & IHin & IHout).
        exists (inst :: done), i, rest'. split; [reflexivity |]. split.
        -- intros name Hin. cbn [fmap list_fmap] in Hin.
           destruct (decide (name ∈ (inst_name <$> done))) as [Hr | Hr];
             [apply IHin, Hr |].
           apply elem_of_cons in Hin as [-> | Hin]; [| contradiction].
           exact (cancelled_untouched _ _ _ Hc (IHout _ Hr)).
        -- intros name Hout. cbn [fmap list_fmap] in Hout.
           apply not_elem_of_cons in Hout as [Hne Hout].
           exact (untouched_trans _ _ _ _ (Hu _ Hne) (IHout _ Hout)).
    + pose proof (disconnect_raised _ _ m w e0 E0) as Hm.
      destruct (disconnect (inst_name inst) (inst_serial inst) m w)
        as [[o m1] w1]. cbn [fst snd] in E0, Hm. subst o m1. cbn [fst snd].
      exists [], inst, rest. split; [reflexivity |]. split.
      * intros name Hin. apply not_elem_of_nil in Hin. contradiction.
      * intros name _. apply untouched_refl.
Qed.

Lemma disconnect_returns serial name m w :
  no_raise (w_faults w) →
  (∃ r, fst (fst (disconnect name serial m w)) = Val r)
  ∧ no_raise (w_faults (snd (disconnect name serial m w))).
Proof.
  intros Hn. unfold disconnect.
  destruct (disconnect_vpn_returns serial w Hn) as (r & E & Hn1).
  destruct (disconnect_vpn serial w) as [o w1]. cbn [fst snd] in E, Hn1. subst o.
  destruct (bool_decide _); cbn [fst snd]; [| eauto].
  assert (Hk : returns (disable_kill_switch serial))
    by (unfold disable_kill_switch; apply returns_run_all).
  destruct (Hk w1 Hn1) as (u & _ & Hn2).
  destruct (disable_kill_switch serial w1) as [o2 w2]. cbn [fst snd] in Hn2 |- *.
  eauto.
Qed.

Lemma disconnect_all_from_returns instances :
  ∀ results m w, no_raise (w_faults w) →
  ∃ results', fst (fst (disconnect_all_from instances results m w)) = Val results'.
Proof.
  induction instances as [|inst rest IH]; intros results m w Hn;
    cbn [disconnect_all_from]; [eexists; reflexivity |].
  destruct (disconnect_returns (inst_serial inst) (inst_name inst) m w Hn)
    as [(r & E) Hn1].
  destruct (disconnect (inst_name inst) (inst_serial inst) m w) as [[o m1] w1].
  cbn [fst snd] in E, Hn1. subst o. apply IH, Hn1.
Qed.

(** [disconnect_all] either returns or raises with the exception of one
    instance's [disconnect].  When it returns, the dictionary holds
    [{"ok": True}] under the name of every instance given and under no
    other name, and each of them is out of the always-on registry and of the
    kill-switch set with the cached status stopped.  When it raises, that
    holds of the instances before the one that raised, and nothing is
    returned.  Either way the entries of the names not reached and the
    reconnect states stay as they were, and it returns whenever no adb call
    raises. *)
Theorem disconnect_all_cancels_each
    (instances : list instance) (m : manager) (w : world) :
  let r := disconnect_all instances m w in
  let m' := snd (fst r) in
  (∀ results, fst (fst r) = Val results →
     (∀ name, name ∈ (inst_name <$> instances) →
        results !! name = Some Ok ∧ cancelled m' name)
     ∧ (∀ name, name ∉ (inst_name <$> instances) →
        results !! name = None ∧ untouched m m' name))
  ∧ (∀ e, fst (fst r) = Raise e →
     ∃ done inst rest, instances = done ++ inst :: rest
       ∧ (∀ name, name ∈ (inst_name <$> done) → cancelled m' name)
       ∧ (∀ name, name ∉ (inst_name <$> done) → untouched m m' name))
  ∧ _reconnect_state m' = _reconnect_state m
  ∧ (no_raise (w_faults w) → ∃ results, fst (fst r) = Val results).
Proof.
  cbn zeta. unfold disconnect_all.
  pose proof (disconnect_all_from_spec instances ∅ m w) as H. cbn zeta in H.
  split; [| split; [| split]].
  - intros results E. rewrite E in H. destruct H as [Hin Hout].
    split; [exact Hin |].
    intros name Hn. destruct (Hout name Hn) as [H1 H2].
    rewrite H1, lookup_empty. auto.
  - intros e E. rewrite E in H. exact H.
  - apply disconnect_all_from_state.
  - apply disconnect_all_from_returns.
Qed.

(** ** The cached status across apply and refresh *)

Lemma get_status_set name st m :
  get_status name (set_status name st m) = st.
Proof. unfold get_status, set_status. simpl. rewrite lookup_insert_eq. reflexivity. Qed.

Lemma get_status_set_ne name other st m :
  other ≠ name → get_status other (set_status name st m) = get_status other m.
Proof.
  intros Hne. unfold get_status, set_status. simpl.
  rewrite lookup_insert_ne by congruence. reflexivity.
Qed.


(** After a successful [apply_proxy] on a reliably reachable device, for a
    port that is not negative and a resolved address without quote, line
    feed or carriage return, the cached status is [reconnecting] with the
    server as it was given; a [refresh_status] then replaces it by what the
    device reports, which is not [stopped] and names the resolved address
    and the port applied. The cached statuses of the other instances stay
    as they were. *)
Theorem apply_then_refresh_status
    (name serial server : string) (port : Z) (username password : string)
    (m : manager) (w : world) (d : device) (ip : string) :
  reliable serial d w →
  0 ≤ port →
  fst (_resolve_host server w) = Val ip →
  plain_value ip = true →
  fst (fst (apply_proxy name serial server port username password m w)) = Val Ok →
  let m1 := snd (fst (apply_proxy name serial server port username password m w)) in
  let w1 := snd (apply_proxy name serial server port username password m w) in
  let m2 := fst (refresh_status name serial m1 w1) in
  get_status name m1
    = {| st_state := Reconnecting;
         st_server := server +:+ ":" +:+ Text.str_of_int port |}
  ∧ st_state (get_status name m2) ≠ Stopped
  ∧ st_state (get_status name m2) ≠ Unknown
  ∧ st_server (get_status name m2)
    = Text.strip ip +:+ ":" +:+ Text.str_of_int port
  ∧ (∀ other, other ≠ name → get_status other m2 = get_status other m).
Proof.
  intros Hr Hp Hip Hclean Hok. cbn zeta. revert Hok.
  unfold apply_proxy.
  destruct (apply_hoare serial server port username password ip w
              (conj (ex_intro _ d (conj Hr I)) Hip)) as (res & Eres & Hpost).
  destruct (write_proxy_config serial server port username password w)
    as [o w1].
  cbn [fst snd] in Eres, Hpost. subst o.
  destruct (result_ok res) eqn:Hres; cbn [fst snd]; intros [= ->];
    [| discriminate].
  destruct (Hpost eq_refl) as (d' & Hr' & (_ & _ & Hconf) & Hrun).
  specialize (Hconf _ eq_refl).
  split; [apply get_status_set |].
  unfold refresh_status.
  destruct (read_vpn_status_reliable serial w1 d' Hr') as [Hst _].
  destruct (read_vpn_status serial w1) as [o w2]. cbn [fst] in Hst |- *.
  subst o. cbn [fst]. rewrite get_status_set. cbn [st_state st_server].
  rewrite Hrun.
  split; [destruct (d_tun d'); discriminate |].
  split; [destruct (d_tun d'); discriminate |].
  split.
  - cbn [exec fst]. rewrite Hconf. apply parse_server_read; assumption.
  - intros other Hne. rewrite !get_status_set_ne by exact Hne. reflexivity.
Qed.

(** ** Resolving the server name *)

(** C10, at the failing input: for the server name [a..b], which no
    resolver can look up, [gethostbyname] raises [UnicodeError]; neither
    handler of [_resolve_host] catches it, so the name does not come back
    unchanged: [write_proxy_config] raises before it has sent a command. *)
Theorem resolve_host_lets_unicode_error_through :
  let w := lab_idna (fresh_device BinExec true) in
  fst (_resolve_host "a..b" w) = Raise ValueError
  ∧ fst (write_proxy_config "emu" "a..b" 1080 "" "" w) = Raise ValueError
  ∧ w_log (snd (write_proxy_config "emu" "a..b" 1080 "" "" w)) = [].
Proof. cbv zeta. repeat split; vm_compute; reflexivity. Qed.

(** Resolving a server name leaves the world alone.  A name that
    [inet_aton] accepts comes back unchanged; when [inet_aton] raises a
    [socket.error], the address that [gethostbyname] returns comes back, and
    the name itself when [gethostbyname] raises a [gaierror]; any other
    exception of the two calls escapes, and only those.  An apply that
    returns reports no failure other than a missing binary, an unwritten
    descriptor or a dead daemon, and when the name came back unchanged a
    successful apply has written the descriptor built from that very name
    and added the host route for it. *)
Theorem resolve_host_fallbacks
    (hostname serial : string) (port : Z) (username password : string) (w : world) :
  snd (_resolve_host hostname w) = w
  ∧ (w_inet_aton w hostname = None → fst (_resolve_host hostname w) = Val hostname)
  ∧ (∀ e ip, w_inet_aton w hostname = Some e → is_OSError e = true →
       w_dns w hostname = Val ip → fst (_resolve_host hostname w) = Val ip)
  ∧ (∀ e e', w_inet_aton w hostname = Some e → is_OSError e = true →
       w_dns w hostname = Raise e' → is_gaierror e' = true →
       fst (_resolve_host hostname w) = Val hostname)
  ∧ (∀ e, fst (_resolve_host hostname w) = Raise e ↔
       (w_inet_aton w hostname = Some e ∧ is_OSError e = false)
       ∨ (∃ e0, w_inet_aton w hostname = Some e0 ∧ is_OSError e0 = true
                ∧ w_dns w hostname = Raise e ∧ is_gaierror e = false))
  ∧ (∀ res, fst (write_proxy_config serial hostname port username password w)
              = Val res →
       res = Ok
       ∨ res = Failed "Failed to push tunnel binary to device"
       ∨ (∃ e, res = Failed ("Failed to write config: " +:+ e))
       ∨ res = Failed daemon_failed_msg)
  ∧ (fst (_resolve_host hostname w) = Val hostname →
     fst (write_proxy_config serial hostname port username password w) = Val Ok →
     In (serial, WriteConfig (_build_tunnel_config hostname port username password))
        (w_log (snd (write_proxy_config serial hostname port username password w)))
     ∧ In (serial, RouteAdd (host_route hostname))
          (w_log (snd (write_proxy_config serial hostname port username password w)))).
Proof.
  split; [apply resolve_host_world |].
  split; [apply resolve_host_literal |].
  split.
  { intros e ip H1 H2 H3.
    unfold _resolve_host, try_except, bind, inet_aton, gethostbyname, ret.
    rewrite H1. cbn [fst snd]. rewrite H2, H3. reflexivity. }
  split; [apply resolve_host_unresolved |].
  split; [intros e; apply resolve_host_raises |].
  split; [apply write_proxy_config_results | apply write_proxy_config_sends].
Qed.

(** ** Bulk apply *)

Lemma join_bounds now done : now ≤ join now done ≤ now + 30.
Proof. unfold join. destruct (Z.leb_spec done now); lia. Qed.

Lemma join_covers now done : done ≤ now + 30 → done ≤ join now done.
Proof. unfold join. destruct (Z.leb_spec done now); lia. Qed.

Lemma join_all_bounds ws :
  ∀ now, now ≤ join_all now ws ≤ now + 30 * Z.of_nat (length ws).
Proof.
  induction ws as [|wk ws IH]; intros now; cbn [join_all length]; [lia |].
  specialize (IH (join now (wk_done wk))).
  pose proof (join_bounds now (wk_done wk)). lia.
Qed.

Lemma join_all_within ws b :
  (∀ wk, wk ∈ ws → wk_done wk ≤ b) →
  ∀ now, now ≤ b → join_all now ws ≤ b.
Proof.
  induction ws as [|wk ws IH]; intros Hall now Hnow; cbn [join_all]; [exact Hnow |].
  apply IH.
  - intros x Hx. apply Hall. right. exact Hx.
  - assert (wk_done wk ≤ b) by (apply Hall; left).
    unfold join. destruct (Z.leb_spec (wk_done wk) now); lia.
Qed.

Lemma join_all_covers ws wk :
  wk ∈ ws → wk_done wk ≤ 30 →
  ∀ now, 0 ≤ now → wk_done wk ≤ join_all now ws.
Proof.
  intros Hin Hd. induction ws as [|x ws IH]; intros now Hnow; cbn [join_all].
  - apply not_elem_of_nil in Hin. contradiction.
  - pose proof (join_bounds now (wk_done x)).
    apply elem_of_cons in Hin as [-> | Hin].
    + pose proof (join_covers now (wk_done x)).
      pose proof (join_all_bounds ws (join now (wk_done x))). lia.
    + apply IH; [exact Hin | lia].
Qed.

Lemma elem_of_insert_by_done wk ws x :
  x ∈ insert_by_done wk ws ↔ x = wk ∨ x ∈ ws.
Proof.
  induction ws as [|y ws IH]; cbn [insert_by_done].
  - rewrite list_elem_of_singleton, elem_of_nil. tauto.
  - destruct (wk_done wk <? wk_done y).
    + rewrite elem_of_cons. tauto.
    + rewrite !elem_of_cons, IH. tauto.
Qed.

Lemma elem_of_by_done ws x : x ∈ by_done ws ↔ x ∈ ws.
Proof.
  unfold by_done.
  assert (H : ∀ l, x ∈ fold_right insert_by_done [] l ↔ x ∈ l).
  { induction l as [|y l IH]; cbn [fold_right]; [tauto |].
    rewrite elem_of_insert_by_done, elem_of_cons, IH. tauto. }
  rewrite H, !list_elem_of_In. symmetry. apply in_rev.
Qed.

Lemma store_lookup results wk name :
  store results wk !! name
  = match wk_end wk with
    | Val r => if decide (wk_name wk = name) then Some r else results !! name
    | Raise _ => results !! name
    end.
Proof.
  unfold store. destruct (wk_end wk) as [r|e]; [| reflexivity].
  destruct (decide (wk_name wk = name)) as [-> | Hne];
    [apply lookup_insert_eq | apply lookup_insert_ne, Hne].
Qed.

(** Every entry is what a worker of that name returned. *)
Lemma fold_store_sound l :
  ∀ acc name r, fold_left store l acc !! name = Some r →
  acc !! name = Some r
  ∨ ∃ wk, wk ∈ l ∧ wk_name wk = name ∧ wk_end wk = Val r.
Proof.
  induction l as [|a l IH]; intros acc name r H; cbn [fold_left] in H; [auto |].
  destruct (IH _ _ _ H) as [H1 | (wk & Hin & Hn & He)].
  - rewrite store_lookup in H1. destruct (wk_end a) as [r0|e] eqn:Ea; [| auto].
    destruct (decide (wk_name a = name)) as [Hn | Hn]; [| auto].
    injection H1 as <-. right. exists a. split; [left | auto].
  - right. exists wk. split; [right; exact Hin | auto].
Qed.

(** A worker that returned has its entry when all the workers of its name
    that stored returned the same. *)
Lemma fold_store_complete l name r :
  ∀ acc,
  acc !! name = Some r
  ∨ (∃ wk, wk ∈ l ∧ wk_name wk = name ∧ wk_end wk = Val r) →
  (∀ wk r', wk ∈ l → wk_name wk = name → wk_end wk = Val r' → r' = r) →
  fold_left store l acc !! name = Some r.
Proof.
  induction l as [|a l IH]; intros acc H Hall; cbn [fold_left].
  - destruct H as [H | (wk & Hin & _)]; [exact H |].
    apply not_elem_of_nil in Hin. contradiction.
  - apply IH; [| intros wk r' Hin; apply Hall; right; exact Hin].
    rewrite store_lookup.
    destruct (wk_end a) as [r0|e] eqn:Ea.
    + destruct (decide (wk_name a = name)) as [Hn | Hn].
      * left. f_equal. apply (Hall a r0); [left | exact Hn | exact Ea].
      * destruct H as [H | (wk & [-> | Hin]%elem_of_cons & Hn' & He)];
          [left; exact H | contradiction | right; eauto].
    + destruct H as [H | (wk & [-> | Hin]%elem_of_cons & Hn' & He)];
        [left; exact H | congruence | right; eauto].
Qed.

Lemma fold_store_present l :
  ∀ acc name,
  is_Some (acc !! name)
  ∨ (∃ wk r, wk ∈ l ∧ wk_name wk = name ∧ wk_end wk = Val r) →
  is_Some (fold_left store l acc !! name).
Proof.
  induction l as [|a l IH]; intros acc name H; cbn [fold_left].
  - destruct H as [H | (wk & r & Hin & _)]; [exact H |].
    apply not_elem_of_nil in Hin. contradiction.
  - apply IH. rewrite store_lookup.
    destruct (wk_end a) as [r0|e] eqn:Ea.
    + destruct (decide (wk_name a = name)) as [Hn | Hn]; [left; eauto |].
      destruct H as [H | (wk & r & [-> | Hin]%elem_of_cons & Hn' & He)];
        [left; exact H | contradiction | right; eauto].
    + destruct H as [H | (wk & r & [-> | Hin]%elem_of_cons & Hn' & He)];
        [left; exact H | congruence | right; eauto].
Qed.

Lemma elem_of_ended t ws wk :
  wk ∈ filter (λ wk, wk_done wk ≤ t) (by_done ws) ↔ wk_done wk ≤ t ∧ wk ∈ ws.
Proof. rewrite list_elem_of_filter, elem_of_by_done. tauto. Qed.

(** C8, the claim refuted: of three workers that all return, the one that
    takes 45 seconds has no entry in the dictionary returned, which comes
    after 35 seconds; and with three workers that hang, the call returns
    after 90 seconds, the sum of the three join timeouts. *)
Lemma bulk_apply_drops_slow_worker :
  fst (apply_proxy_bulk slow_batch) !! "A" = Some Ok
  ∧ fst (apply_proxy_bulk slow_batch) !! "B" = None
  ∧ snd (apply_proxy_bulk slow_batch) = 35
  ∧ fst (apply_proxy_bulk hung_batch) = ∅
  ∧ snd (apply_proxy_bulk hung_batch) = 90.
Proof. repeat split; vm_compute; reflexivity. Qed.

(** C8 as amended: the dictionary that bulk apply returns holds, under a
    name, what a worker of that name returned from [apply_proxy] before the
    last join returned, and nothing else; a worker that ends within 30
    seconds ends before the last join returns; a worker that returned by
    then has an entry under its name, which is its own result when no
    other worker has that name, whatever the other workers do; the call
    returns no later than 30 seconds times the number of assignments, and
    within 30 seconds when every worker ends by then. *)
Theorem bulk_apply_contains_partial_failure (ws : list worker) :
  let results := fst (apply_proxy_bulk ws) in
  let t := snd (apply_proxy_bulk ws) in
  (∀ name r, results !! name = Some r →
     ∃ wk, wk ∈ ws ∧ wk_name wk = name ∧ wk_end wk = Val r ∧ wk_done wk ≤ t)
  ∧ (∀ wk, wk ∈ ws → wk_done wk ≤ 30 → wk_done wk ≤ t)
  ∧ (∀ wk r, wk ∈ ws → wk_end wk = Val r → wk_done wk ≤ t →
       is_Some (results !! wk_name wk)
       ∧ ((∀ wk', wk' ∈ ws → wk_name wk' = wk_name wk → wk' = wk) →
          results !! wk_name wk = Some r))
  ∧ 0 ≤ t ≤ 30 * Z.of_nat (length ws)
  ∧ ((∀ wk, wk ∈ ws → wk_done wk ≤ 30) → t ≤ 30).
Proof.
  cbn zeta. unfold apply_proxy_bulk. cbn [fst snd]. unfold results_at.
  split; [| split; [| split; [| split]]].
  - intros name r H. apply fold_store_sound in H as [H | (wk & Hin & Hn & He)].
    + rewrite lookup_empty in H. discriminate.
    + apply elem_of_ended in Hin as [Hd Hin]. eauto.
  - intros wk Hin Hd. apply join_all_covers; [exact Hin | exact Hd | lia].
  - intros wk r Hin He Hd.
    assert (Hended : wk ∈ filter (λ wk, wk_done wk ≤ join_all 0 ws) (by_done ws)).
    { apply elem_of_ended. split; [exact Hd | exact Hin]. }
    split.
    + apply fold_store_present. right. eauto.
    + intros Huniq. apply fold_store_complete; [right; eauto |].
      intros wk' r' Hin' Hn' He'. apply elem_of_ended in Hin' as [_ Hin'].
      rewrite (Huniq wk' Hin' Hn') in He'. congruence.
  - pose proof (join_all_bounds ws 0). lia.
  - intros Hall. apply join_all_within; [exact Hall | lia].
Qed.

(** ** Instances of the statements above *)

Lemma lab_reliable (d : device) : reliable "emu" d (lab d).
Proof. split; [vm_compute; reflexivity | reflexivity]. Defined.

Lemma lab_later_reliable (d : device) : reliable "emu" d (lab_later d).
Proof. split; [vm_compute; reflexivity | reflexivity]. Defined.

Lemma lab_push_reliable l (d : device) : reliable "emu" d (lab_push l d).
Proof. split; [vm_compute; reflexivity | reflexivity]. Defined.



(** After the failed reconnect of [A]: a disconnect leaves the map as it
    is; a poll cycle over [A] leaves the entry of [B], while it makes the
    second attempt for [A]; with always-on disabled a pass over [A], now
    connected, can only keep or drop the entry, and drops it; and a
    reconnect that succeeds stores [{0, 0}]. *)
Lemma reconnect_state_life_cycle_witness :
  let m := fst after_failed_reconnect in
  let w := snd after_failed_reconnect in
  let m_b := with_reconnect_state
               (<["B" := {| last_attempt := 7; attempts := 2 |}]> (_reconnect_state m)) m in
  let m_off := set_always_on "A" None m in
  let w_up := with_devs {[ "emu" := running_device ]} w in
  _reconnect_state (fst (run_op (OpDisconnect "A" "emu") m w)) = _reconnect_state m
  ∧ _reconnect_state (fst (poll_cycle [demo_inst] m_b w)) !! "B"
    = Some {| last_attempt := 7; attempts := 2 |}
  ∧ (_reconnect_state (fst (poll_instance demo_inst m_off w_up)) !! "A"
       = _reconnect_state m_off !! "A"
     ∨ _reconnect_state (fst (poll_instance demo_inst m_off w_up)) !! "A" = None)
  ∧ _reconnect_state
      (fst (reconnect_branch demo_inst demo_cfg
              (set_always_on "A" (Some demo_cfg) new_manager)
              (lab_later (fresh_device BinExec true)))) !! "A"
    = Some reconnect_zero
  ∧ _reconnect_state (fst (poll_cycle [demo_inst] m_b w)) !! "A"
    = Some {| last_attempt := 400; attempts := 2 |}
  ∧ _reconnect_state (fst (poll_instance demo_inst m_off w_up)) !! "A" = None.
Proof.
  cbv zeta.
  set (m := fst after_failed_reconnect). set (w := snd after_failed_reconnect).
  set (m_b := with_reconnect_state
                (<["B" := {| last_attempt := 7; attempts := 2 |}]> (_reconnect_state m)) m).
  destruct (reconnect_state_life_cycle demo_inst demo_cfg (OpDisconnect "A" "emu")
              [demo_inst] "B" m w) as (Hop & _).
  destruct (reconnect_state_life_cycle demo_inst demo_cfg (OpDisconnect "A" "emu")
              [demo_inst] "B" m_b w) as (_ & Hother & _).
  destruct (reconnect_state_life_cycle demo_inst demo_cfg (OpDisconnect "A" "emu")
              [demo_inst] "B" (set_always_on "A" None m)
              (with_devs {[ "emu" := running_device ]} w)) as (_ & _ & Hoff & _).
  destruct (reconnect_state_life_cycle demo_inst demo_cfg (OpDisconnect "A" "emu")
              [demo_inst] "B" (set_always_on "A" (Some demo_cfg) new_manager)
              (lab_later (fresh_device BinExec true))) as (_ & _ & _ & Hreset).
  split; [apply Hop; reflexivity |].
  split.
  { rewrite Hother.
    - subst m_b. cbn [_reconnect_state with_reconnect_state].
      apply lookup_insert_eq.
    - cbn [fmap list_fmap]. intros [H | H]%elem_of_cons; [discriminate H |].
      apply not_elem_of_nil in H. exact H. }
  split; [apply Hoff; cbn; apply lookup_delete_eq |].
  split; [apply Hreset; vm_compute; reflexivity |].
  split; vm_compute; reflexivity.
Defined.

Lemma disconnect_cancels_always_on_witness :
  let m := set_always_on "A" (Some demo_cfg) new_manager in
  let w := lab (fresh_device BinExec true) in
  let m1 := snd (fst (disconnect "A" "emu" m w)) in
  let w1 := snd (disconnect "A" "emu" m w) in
  count_reconnects "A"
    (events (fst (run_ops (replicate 10 (OpPoll [demo_inst])) m1 w1))) = O.
Proof.
  intros m w m1 w1.
  destruct (disconnect_cancels_always_on "A" "emu" m w
              (replicate 10 (OpPoll [demo_inst])) Ok) as (_ & _ & _ & _ & Hc).
  - vm_compute. reflexivity.
  - repeat constructor.
  - fold m1 w1 in Hc. rewrite Hc. vm_compute. reflexivity.
Defined.

(** A disconnect whose every command times out returns [{"ok": True}]; one
    whose first adb call raises leaves the manager as it was. *)
Lemma disconnect_returns_ok_witness :
  let w_slow := with_faults (replicate 12 TimesOut) (lab tunnelled_device) in
  let w_bad := with_faults [Raises OSError] (lab tunnelled_device) in
  fst (fst (disconnect "A" "emu" fleet_manager w_slow)) = Val Ok
  ∧ fst (fst (disconnect "A" "emu" fleet_manager w_bad)) = Raise OSError
  ∧ snd (fst (disconnect "A" "emu" fleet_manager w_bad)) = fleet_manager.
Proof.
  cbv zeta.
  destruct (disconnect_returns_ok "A" "emu" fleet_manager
              (with_faults (replicate 12 TimesOut) (lab tunnelled_device)))
    as (_ & _ & Hslow & _).
  destruct (disconnect_returns_ok "A" "emu" fleet_manager
              (with_faults [Raises OSError] (lab tunnelled_device)))
    as (_ & _ & _ & Hbad).
  split; [apply Hslow; cbn; repeat constructor |].
  apply (Hbad OSError). vm_compute. reflexivity.
Defined.

Lemma in_slow_batch wk :
  wk ∈ slow_batch →
  wk = {| wk_name := "A"; wk_end := Val Ok; wk_done := 5 |}
  ∨ wk = {| wk_name := "B"; wk_end := Val Ok; wk_done := 45 |}
  ∨ wk = {| wk_name := "C"; wk_end := Val (Failed daemon_failed_msg); wk_done := 10 |}.
Proof.
  unfold slow_batch. rewrite !elem_of_cons, elem_of_nil. tauto.
Defined.

(** In the batch with the slow worker [B], the entries of [A] and [C] are
    their own results, and the call returns within 90 seconds. *)
Lemma bulk_apply_contains_partial_failure_witness :
  fst (apply_proxy_bulk slow_batch) !! "A" = Some Ok
  ∧ fst (apply_proxy_bulk slow_batch) !! "C" = Some (Failed daemon_failed_msg)
  ∧ 0 ≤ snd (apply_proxy_bulk slow_batch) ≤ 90.
Proof.
  destruct (bulk_apply_contains_partial_failure slow_batch)
    as (_ & Hcov & Hent & Hbound & _).
  split; [| split; [| exact Hbound]].
  - apply (Hent {| wk_name := "A"; wk_end := Val Ok; wk_done := 5 |} Ok);
      [left | reflexivity | apply Hcov; [left | cbn; lia] |].
    intros wk' [-> | [-> | ->]]%in_slow_batch H; [reflexivity | |];
      discriminate H.
  - apply (Hent {| wk_name := "C"; wk_end := Val (Failed daemon_failed_msg);
                   wk_done := 10 |} (Failed daemon_failed_msg));
      [right; right; left | reflexivity
      | apply Hcov; [right; right; left | cbn; lia] |].
    intros wk' [-> | [-> | ->]]%in_slow_batch H; [| | reflexivity];
      discriminate H.
Defined.

Lemma lab_dns_reliable (d : device) : reliable "emu" d (lab_dns d).
Proof. split; [vm_compute; reflexivity | reflexivity]. Defined.

Lemma descriptor_read_back_witness :
  Re.search_value "address:" (_build_tunnel_config "10.0.0.9" 1080 "u" "p")
    = Some "10.0.0.9"
  ∧ Re.search_port (_build_tunnel_config "10.0.0.9" 1080 "u" "p") = Some "1080".
Proof.
  apply (descriptor_read_back "10.0.0.9" 1080 "u" "p"); [lia | reflexivity].
Defined.

Lemma written_endpoint_is_reported_witness :
  (∃ c, fst (read_current_config "emu" (lab tunnelled_device)) = Val c
        ∧ cc_server c = Some "10.0.0.9" ∧ cc_port c = Some "1080")
  ∧ (∃ st, fst (read_vpn_status "emu" (lab tunnelled_device)) = Val st
           ∧ st_server st = "10.0.0.9:1080").
Proof.
  apply (written_endpoint_is_reported "emu" (lab tunnelled_device) tunnelled_device
           "10.0.0.9" 1080 "u" "p");
    [apply lab_reliable | reflexivity | lia | reflexivity].
Defined.

(** On the device with a tunnel up, the cleanup removes the two split
    routes and the two rules of the tunnel, and keeps the host route, the
    default route and the rule of the system. *)
Lemma cleanup_routing_idempotent_witness :
  ∃ d1, reliable "emu" d1 (snd (_cleanup_routing "emu" (lab tunnelled_device)))
    ∧ d_routes d1 = [host_route "10.0.0.9"; default_route]
    ∧ d_rules d1 = [system_rule]
    ∧ (∀ r, r ∈ d_routes d1
            ↔ r ∈ d_routes tunnelled_device ∧ r ≠ split_low ∧ r ≠ split_high)
    ∧ (∀ r, r ∈ d_rules d1 ↔ r ∈ d_rules tunnelled_device ∧ r ∉ cleaned_rules)
    ∧ daemon_running d1 = true
    ∧ reliable "emu" d1
        (snd (_cleanup_routing "emu"
                (snd (_cleanup_routing "emu" (lab tunnelled_device))))).
Proof.
  destruct (cleanup_routing_idempotent "emu" (lab tunnelled_device) tunnelled_device
              (lab_reliable tunnelled_device))
    as (d1 & Hrel & Hroutes & Hrules & Hrun & _ & _ & Hagain).
  exists d1.
  assert (Hd1 : Some d1 = w_devs (snd (_cleanup_routing "emu" (lab tunnelled_device)))
                            !! "emu")
    by (symmetry; apply Hrel).
  vm_compute in Hd1. injection Hd1 as ->.
  split; [exact Hrel |].
  split; [reflexivity |]. split; [reflexivity |].
  split; [exact Hroutes |]. split; [exact Hrules |].
  split; [reflexivity | exact Hagain].
Defined.

(** Disconnecting the device with a tunnel up ends with no descriptor, no
    PID file, no daemon, without the split routes, the host route and the
    rules of the tunnel, and with the next status reading stopped. *)
Lemma disconnect_vpn_tears_down_witness :
  ∃ d1, fst (disconnect_vpn "emu" (lab tunnelled_device)) = Val Ok
    ∧ reliable "emu" d1 (snd (disconnect_vpn "emu" (lab tunnelled_device)))
    ∧ d_config d1 = None
    ∧ d_pidfile d1 = false
    ∧ d_alive d1 = false
    ∧ d_routes d1 = [default_route]
    ∧ d_rules d1 = [system_rule]
    ∧ fst (read_vpn_status "emu" (snd (disconnect_vpn "emu" (lab tunnelled_device))))
      = Val {| st_state := Stopped; st_server := "" |}.
Proof.
  destruct (disconnect_vpn_tears_down "emu" (lab tunnelled_device) tunnelled_device
              (lab_reliable tunnelled_device))
    as (d1 & Hok & Hrel & Hcfg & Hpid & Halive & _ & _ & _ & Hst & _).
  exists d1.
  assert (Hd1 : Some d1 = w_devs (snd (disconnect_vpn "emu" (lab tunnelled_device)))
                            !! "emu")
    by (symmetry; apply Hrel).
  split; [exact Hok |]. split; [exact Hrel |]. split; [exact Hcfg |].
  split; [exact Hpid |]. split; [exact Halive |].
  vm_compute in Hd1. injection Hd1 as ->.
  split; [reflexivity |]. split; [reflexivity | exact Hst].
Defined.

(** The host route of 10.0.0.9 is on the device with a tunnel up, and is
    gone after the disconnect, while the default route stays. *)
Lemma disconnect_removes_written_host_route_witness :
  host_route "10.0.0.9" ∈ d_routes tunnelled_device
  ∧ ∃ d1, reliable "emu" d1 (snd (disconnect_vpn "emu" (lab tunnelled_device)))
      ∧ (host_route "10.0.0.9" ∉ d_routes d1)
      ∧ default_route ∈ d_routes d1.
Proof.
  split; [vm_compute; do 2 right; left |].
  destruct (disconnect_removes_written_host_route "emu" (lab tunnelled_device)
              tunnelled_device "10.0.0.9" 1080 "u" "p")
    as (d1 & Hrel & Hgone & Hkept);
    [apply lab_reliable | reflexivity | lia | reflexivity | reflexivity |].
  exists d1. split; [exact Hrel |]. split; [exact Hgone |].
  apply Hkept; [vm_compute; do 3 right; left | | |]; discriminate.
Defined.

(** An apply for the name [proxy.example], which resolves to 10.0.0.9. *)
Lemma apply_success_installs_witness :
  let w := lab_dns (fresh_device BinExec true) in
  let w' := snd (write_proxy_config "emu" "proxy.example" 1080 "" "" w) in
  ∃ ip d', fst (_resolve_host "proxy.example" w) = Val ip
    ∧ reliable "emu" d' w'
    ∧ daemon_running d' = true
    ∧ d_config d' = Some (_build_tunnel_config ip 1080 "" "")
    ∧ host_route ip ∈ d_routes d'
    ∧ default_route ∈ d_routes d'
    ∧ rule_fwmark ∈ d_rules d'
    ∧ rule_main ∈ d_rules d'
    ∧ (∃ st, fst (read_vpn_status "emu" w') = Val st ∧ st_state st ≠ Stopped).
Proof.
  cbn zeta.
  apply (apply_success_installs "emu" "proxy.example" 1080 "" ""
           (lab_dns (fresh_device BinExec true)) (fresh_device BinExec true));
    [apply lab_dns_reliable | vm_compute; reflexivity].
Defined.

(** Without the binary on the host nothing but the test is sent; with it,
    a push that fails once and then succeeds leaves the binary installed. *)
Lemma ensure_binary_outcomes_witness :
  (let w := lab (fresh_device BinAbsent true) in
   w_devs (snd (_ensure_binary "emu" w)) = w_devs w
   ∧ w_log (snd (_ensure_binary "emu" w)) = [("emu", TestBin)])
  ∧ (let w := lab_push [false; true] (fresh_device BinAbsent true) in
     fst (_ensure_binary "emu" w) = Val true
     ∧ reliable "emu" (set_bin BinExec (fresh_device BinAbsent true))
         (snd (_ensure_binary "emu" w))).
Proof.
  cbn zeta. split.
  - destruct (ensure_binary_outcomes "emu" (lab (fresh_device BinAbsent true))
                (fresh_device BinAbsent true)) as (Hfalse & _ & _).
    apply Hfalse. vm_compute. reflexivity.
  - destruct (ensure_binary_outcomes "emu"
                (lab_push [false; true] (fresh_device BinAbsent true))
                (fresh_device BinAbsent true)) as (_ & _ & Htrue).
    split; [vm_compute; reflexivity |].
    apply Htrue; [apply lab_push_reliable | vm_compute; reflexivity].
Defined.

(** Three pushes that fail. *)
Lemma apply_without_binary_is_harmless_witness :
  let w := lab_push [false; false; false] (fresh_device BinAbsent true) in
  w_devs (snd (write_proxy_config "emu" "10.0.0.1" 1080 "" "" w)) = w_devs w
  ∧ w_log (snd (write_proxy_config "emu" "10.0.0.1" 1080 "" "" w))
    = [("emu", TestBin)].
Proof.
  cbn zeta.
  apply (apply_without_binary_is_harmless "emu" "10.0.0.1" 1080 "" ""
           (lab_push [false; false; false] (fresh_device BinAbsent true))).
  vm_compute. reflexivity.
Defined.

(** The instance [B], whose serial is unknown, seen booted before. *)
Lemma unreachable_device_witness :
  let w := lab tunnelled_device in
  let m := with_boot_ready {[ "B" := 0 ]} fleet_manager in
  fst (read_vpn_status "gone" w) = Val {| st_state := Stopped; st_server := "" |}
  ∧ fst (write_proxy_config "gone" "10.0.0.1" 1080 "" "" w) ≠ Val Ok
  ∧ fst (poll_instance gone_inst m w) = fleet_manager.
Proof.
  cbn zeta.
  destruct (unreachable_device gone_inst "10.0.0.1" 1080 "" ""
              (with_boot_ready {[ "B" := 0 ]} fleet_manager) (lab tunnelled_device))
    as (_ & Hst & Happly & Hpoll); [vm_compute; reflexivity |].
  split; [apply Hst; constructor |]. split; [exact Happly |].
  rewrite Hpoll. vm_compute. reflexivity.
Defined.

(** A pass at time 0 over the instance seen booted at time 0: within the
    cooldown of 30 seconds. *)
Lemma poll_boot_gate_witness :
  let w := lab (fresh_device BinExec true) in
  let m := watching_manager in
  w_log (snd (poll_instance demo_inst m w)) = [("emu", GetpropBoot)]
  ∧ _statuses (fst (poll_instance demo_inst m w)) = _statuses m
  ∧ _reconnect_state (fst (poll_instance demo_inst m w)) = _reconnect_state m
  ∧ _always_on (fst (poll_instance demo_inst m w)) = _always_on m
  ∧ events (fst (poll_instance demo_inst m w)) = events m.
Proof.
  cbn zeta.
  apply (poll_boot_gate demo_inst watching_manager (lab (fresh_device BinExec true))).
  right. right. right. exists 0. split; [vm_compute; reflexivity | vm_compute; reflexivity].
Defined.

(** A pass, 100 seconds after the boot, over the instance that has given
    up: the status is read and is stopped, and no reconnect is made. *)
Lemma given_up_is_not_revived_witness :
  let w := lab_later (fresh_device BinExec true) in
  let m' := fst (poll_instance demo_inst
                   (set_always_on "A" (Some demo_cfg) given_up_manager) w) in
  let w' := snd (poll_instance demo_inst
                   (set_always_on "A" (Some demo_cfg) given_up_manager) w) in
  w_log w' = [("emu", HeadConfig); ("emu", ProbeDaemon "STOPPED"); ("emu", GetpropBoot)]
  ∧ _statuses m' !! "A" = Some {| st_state := Stopped; st_server := "" |}
  ∧ count_reconnects "A" (events m') = count_reconnects "A" (events given_up_manager)
  ∧ (given_up m' "A" ∨ _reconnect_state m' !! "A" = None).
Proof.
  cbn zeta.
  split; [vm_compute; reflexivity |]. split; [vm_compute; reflexivity |].
  apply (given_up_is_not_revived demo_inst (Some demo_cfg) given_up_manager
           (lab_later (fresh_device BinExec true)) "A").
  exists {| last_attempt := 0; attempts := 11 |}.
  split; [vm_compute; reflexivity | vm_compute; lia].
Defined.

(** A pass, 100 seconds after the boot, over the always-on instance whose
    tunnel is up: the status is read and is connected, and the device is
    left as it is. *)
Lemma poll_leaves_running_tunnel_witness :
  let m := watching_manager in
  let w := lab_later tunnelled_device in
  let m' := fst (poll_instance demo_inst m w) in
  let w' := snd (poll_instance demo_inst m w) in
  _statuses m' !! "A" = Some {| st_state := Connected; st_server := "10.0.0.9:1080" |}
  ∧ w_log w' = [("emu", HeadConfig); ("emu", LinkShowTun);
                ("emu", ProbeDaemon "STOPPED"); ("emu", GetpropBoot)]
  ∧ reliable "emu" tunnelled_device w'
  ∧ (∃ l, w_log w' = l ++ w_log w ∧ Forall (λ x, snd x ∈ status_cmds) l)
  ∧ (∀ name, count_reconnects name (events m') = count_reconnects name (events m)).
Proof.
  cbn zeta.
  split; [vm_compute; reflexivity |]. split; [vm_compute; reflexivity |].
  apply (poll_leaves_running_tunnel demo_inst watching_manager
           (lab_later tunnelled_device) tunnelled_device);
    [apply lab_later_reliable | reflexivity].
Defined.

(** Disconnecting [A] and [B] out of the three registered instances: both
    are cancelled and [C] stays registered.  When the first adb call for
    [B] raises, [B] and [C] stay registered. *)
Lemma disconnect_all_cancels_each_witness :
  let r := disconnect_all [demo_inst; gone_inst] fleet_manager (lab tunnelled_device) in
  let r' := disconnect_all [demo_inst; gone_inst] fleet_manager
              (with_faults (replicate 15 Answers ++ [Raises OSError])
                 (lab tunnelled_device)) in
  (∃ results, fst (fst r) = Val results
     ∧ results !! "A" = Some Ok ∧ results !! "B" = Some Ok ∧ results !! "C" = None
     ∧ cancelled (snd (fst r)) "A" ∧ cancelled (snd (fst r)) "B"
     ∧ _always_on (snd (fst r)) !! "C" = Some demo_cfg
     ∧ "C" ∈ _kill_switch (snd (fst r)))
  ∧ fst (fst r') = Raise OSError
  ∧ _always_on (snd (fst r')) !! "A" = None
  ∧ _always_on (snd (fst r')) !! "B" = Some demo_cfg
  ∧ ∃ done inst rest, [demo_inst; gone_inst] = done ++ inst :: rest
      ∧ (∀ name, name ∈ (inst_name <$> done) → cancelled (snd (fst r')) name)
      ∧ (∀ name, name ∉ (inst_name <$> done) →
           untouched fleet_manager (snd (fst r')) name).
Proof.
  cbn zeta. split.
  - destruct (disconnect_all_cancels_each [demo_inst; gone_inst] fleet_manager
                (lab tunnelled_device)) as (Hval & _ & _ & Hret).
    destruct Hret as (results & E); [constructor |].
    destruct (Hval results E) as (Hin & Hout).
    exists results. split; [exact E |].
    destruct (Hin "A") as (HA & HcA); [vm_compute; left |].
    destruct (Hin "B") as (HB & HcB); [vm_compute; right; left |].
    destruct (Hout "C") as (HC & HuC).
    { cbn [fmap list_fmap inst_name demo_inst gone_inst].
      intros [H | [H | H]%elem_of_cons]%elem_of_cons;
        [discriminate H | discriminate H | apply not_elem_of_nil in H; exact H]. }
    destruct HuC as (Hao & Hks & _).
    split; [exact HA |]. split; [exact HB |]. split; [exact HC |].
    split; [exact HcA |]. split; [exact HcB |].
    split; [rewrite Hao; vm_compute; reflexivity |].
    apply Hks. vm_compute. reflexivity.
  - split; [vm_compute; reflexivity |].
    split; [vm_compute; reflexivity |].
    split; [vm_compute; reflexivity |].
    destruct (disconnect_all_cancels_each [demo_inst; gone_inst] fleet_manager
                (with_faults (replicate 15 Answers ++ [Raises OSError])
                   (lab tunnelled_device))) as (_ & Hraise & _).
    apply (Hraise OSError). vm_compute. reflexivity.
Defined.

(** An apply for [proxy.example], which resolves to 10.0.0.9: the cached
    status names the server as given, the refreshed one as resolved. *)
Lemma apply_then_refresh_status_witness :
  let w := lab_dns (fresh_device BinExec true) in
  let m1 := snd (fst (apply_proxy "A" "emu" "proxy.example" 1080 "" "" new_manager w)) in
  let w1 := snd (apply_proxy "A" "emu" "proxy.example" 1080 "" "" new_manager w) in
  let m2 := fst (refresh_status "A" "emu" m1 w1) in
  get_status "A" m1
    = {| st_state := Reconnecting; st_server := "proxy.example:1080" |}
  ∧ st_state (get_status "A" m2) ≠ Stopped
  ∧ st_state (get_status "A" m2) ≠ Unknown
  ∧ st_server (get_status "A" m2) = "10.0.0.9:1080"
  ∧ (∀ other, other ≠ "A" → get_status other m2 = get_status other new_manager).
Proof.
  cbn zeta.
  apply (apply_then_refresh_status "A" "emu" "proxy.example" 1080 "" "" new_manager
           (lab_dns (fresh_device BinExec true)) (fresh_device BinExec true)
           "10.0.0.9");
    [apply lab_dns_reliable | lia | reflexivity | reflexivity
    | vm_compute; reflexivity].
Defined.

(** A name that resolves, a name that does not and is used as it is, and
    the name [a..b], on which the resolver raises. *)
Lemma resolve_host_fallbacks_witness :
  fst (_resolve_host "proxy.example" (lab_dns (fresh_device BinExec true)))
    = Val "10.0.0.9"
  ∧ fst (_resolve_host "proxy.invalid" (lab_no_dns (fresh_device BinExec true)))
    = Val "proxy.invalid"
  ∧ fst (_resolve_host "a..b" (lab_idna (fresh_device BinExec true)))
    = Raise ValueError
  ∧ In ("emu", RouteAdd (host_route "proxy.invalid"))
       (w_log (snd (write_proxy_config "emu" "proxy.invalid" 1080 "" ""
                      (lab_no_dns (fresh_device BinExec true))))).
Proof.
  destruct (resolve_host_fallbacks "proxy.example" "emu" 1080 "" ""
              (lab_dns (fresh_device BinExec true))) as (_ & _ & Hdns & _).
  destruct (resolve_host_fallbacks "proxy.invalid" "emu" 1080 "" ""
              (lab_no_dns (fresh_device BinExec true)))
    as (_ & _ & _ & Hgai & _ & _ & Hsent).
  destruct (resolve_host_fallbacks "a..b" "emu" 1080 "" ""
              (lab_idna (fresh_device BinExec true)))
    as (_ & _ & _ & _ & Hraise & _).
  split; [apply (Hdns OSError); reflexivity |].
  split; [apply (Hgai OSError GaiError); reflexivity |].
  split.
  - apply Hraise. right. exists OSError. repeat split.
  - apply Hsent; [apply (Hgai OSError GaiError); reflexivity
                 | vm_compute; reflexivity].
Defined.
